(** * BrandGuard backend: a shallow embedding of [src/index.js]

    The service drives a headless browser (Playwright) behind three HTTP
    endpoints.  The repository file holds three successive revisions of
    [index.js]; the last one (lines 291-502) is modelled in [Rev3], the
    middle one (lines 126-290, the only one with the bearer gate) in [Rev2].
    The scoring expressions are textually the same in all three revisions
    (lines 108-112, 273, 467-471) and are modelled once.

    - JavaScript numbers are IEEE-754 binary64 values, modelled with the
      kernel's specification of floating-point arithmetic ([SpecFloat],
      precision 53, exponent bound 1024).
    - JavaScript strings are modelled as [string]; a character stands for a
      UTF-16 code unit below 256.
    - The browser engine is external: every call to it is an event of a small
      free monad, answered by an arbitrary deterministic engine.
    - Express and the two library middlewares, [cors()] and
      [express.json()], are external too: what they make of a request (a
      preflight they answer, a body they reject, the route they dispatch to)
      is part of the request, and the application goes through its
      middlewares in the order they are mounted. *)

From Stdlib Require Import ZArith List Bool Lia String Ascii.
From Stdlib Require Import SpecFloat DecimalString.
Import ListNotations.

Set Warnings "-register-all".
Local Open Scope Z_scope.

(** ** JavaScript numbers *)

Module JsNum.

Definition num := spec_float.

Definition prec : Z := 53.
Definition emax : Z := 1024.

(** Conversion of an integer to the nearest binary64 value (exact below
    [2^53]): what reading a WebIDL [long] or [unsigned long] attribute or an
    array length yields. *)
Definition of_Z (z : Z) : num := binary_normalize prec emax z 0 false.

Definition div (x y : num) : num := SFdiv prec emax x y.
Definition sub (x y : num) : num := SFsub prec emax x y.
Definition mul (x y : num) : num := SFmul prec emax x y.
Definition abs (x : num) : num := SFabs x.

(** [x > y] of JavaScript: false as soon as one side is NaN. *)
Definition gt (x y : num) : bool := SFltb y x.
Definition le (x y : num) : bool := SFleb x y.
Definition lt (x y : num) : bool := SFltb x y.

Definition zero : num := S754_zero false.
Definition one : num := of_Z 1.

(** ToBoolean on a number: [0], [-0] and [NaN] are falsy. *)
Definition truthy (x : num) : bool :=
  match x with
  | S754_zero _ | S754_nan => false
  | _ => true
  end.

(** The literal [0.03]: the binary64 value nearest to 3/100. *)
Definition lit_0_03 : num := S754_finite false 8646911284551352 (-58).

(** [Number(x.toFixed(f))] for [0 <= f]: [toFixed] picks the integer [n] with
    [n / 10^f] nearest to [x] (the larger one on a tie) and prints it with
    [f] decimals; [Number] reads the decimal back as the nearest binary64
    value.  Non-finite values and values of magnitude [10^21] or more are
    printed by [ToString], which [Number] reads back unchanged. *)
Definition toFixed_int (f : Z) (m : positive) (e : Z) : Z :=
  let scaled := Zpos m * 10 ^ f in
  match e with
  | Zneg p => (2 * scaled + 2 ^ Zpos p) / 2 ^ (Zpos p + 1)
  | _ => scaled * 2 ^ e
  end.

Definition ge_1e21 (m : positive) (e : Z) : bool :=
  match e with
  | Zneg p => 10 ^ 21 * 2 ^ Zpos p <=? Zpos m
  | _ => 10 ^ 21 <=? Zpos m * 2 ^ e
  end.

Definition Number_toFixed (f : Z) (x : num) : num :=
  match x with
  | S754_zero _ => S754_zero false
  | S754_finite s m e =>
      if ge_1e21 m e then x
      else
        match toFixed_int f m e with
        | Zpos n => SFdiv prec emax (S754_finite s n 0)
                                    (S754_finite false (Z.to_pos (10 ^ f)) 0)
        | _ => S754_zero s
        end
  | _ => x
  end.

(** Values that are a signed zero, a signed finite number or a signed
    infinity of sign [s]: everything but NaN. *)
Definition signed (s : bool) (x : spec_float) : Prop :=
  match x with
  | S754_zero s' | S754_infinity s' | S754_finite s' _ _ => s' = s
  | S754_nan => False
  end.

End JsNum.

(** ** JavaScript strings *)

Module JsStr.

Local Open Scope N_scope.

(** The double quote, code unit 34. *)
Definition dquote : ascii := ascii_of_N 34.

Definition isComma (c : ascii) : bool := N_of_ascii c =? 44.

(** The character class of the regular expression: the single and the
    double quote. *)
Definition isQuote (c : ascii) : bool :=
  (N_of_ascii c =? 39) || (N_of_ascii c =? 34).

(** WhiteSpace and LineTerminator code units below 256, as [trim] strips
    them: TAB, LF, VT, FF, CR, SP and NBSP. *)
Definition isSpace (c : ascii) : bool :=
  match N_of_ascii c with
  | 9 | 10 | 11 | 12 | 13 | 32 | 160 => true
  | _ => false
  end.

(** [toLowerCase] on one code unit below 256: A-Z and the upper-case letters
    of Latin-1 (U+00C0-U+00DE but the multiplication sign U+00D7). *)
Definition lowerChar (c : ascii) : ascii :=
  let n := N_of_ascii c in
  if ((65 <=? n) && (n <=? 90))
     || ((192 <=? n) && (n <=? 222) && negb (n =? 215))
  then ascii_of_N (n + 32)
  else c.

Fixpoint toLowerCase (s : string) : string :=
  match s with
  | EmptyString => EmptyString
  | String c r => String (lowerChar c) (toLowerCase r)
  end.

(** [s.split(',')[0]]: the characters before the first comma. *)
Fixpoint firstToken (s : string) : string :=
  match s with
  | EmptyString => EmptyString
  | String c r => if isComma c then EmptyString else String c (firstToken r)
  end.

Fixpoint dropFirstWhile (p : ascii -> bool) (s : string) : string :=
  match s with
  | EmptyString => EmptyString
  | String c r => if p c then dropFirstWhile p r else s
  end.

Fixpoint dropLastWhile (p : ascii -> bool) (s : string) : string :=
  match s with
  | EmptyString => EmptyString
  | String c r =>
      match dropLastWhile p r with
      | EmptyString => if p c then EmptyString else String c EmptyString
      | r' => String c r'
      end
  end.

Definition trim (s : string) : string :=
  dropLastWhile isSpace (dropFirstWhile isSpace s).

Definition dropFirstIf (p : ascii -> bool) (s : string) : string :=
  match s with
  | String c r => if p c then r else s
  | EmptyString => EmptyString
  end.

Fixpoint dropLastIf (p : ascii -> bool) (s : string) : string :=
  match s with
  | EmptyString => EmptyString
  | String c EmptyString => if p c then EmptyString else s
  | String c r => String c (dropLastIf p r)
  end.

(** [s.replace(re, '')] where [re] is the global regular expression with
    the two alternatives: a quote at the start, a quote at the end.  Both
    alternatives
    are tried from left to right; the first one can only match at index 0,
    the second one only the last character, and a character consumed by the
    first match is not matched again. *)
Definition stripQuotes (s : string) : string :=
  dropLastIf isQuote (dropFirstIf isQuote s).

(** ToBoolean on a string. *)
Definition truthy (s : string) : bool :=
  match s with EmptyString => false | _ => true end.

(** [normalize] of the analyze handler (lines 57, 239, 414); [None] is
    [null]. *)
Definition normalize (s : string) : option string :=
  if truthy s
  then Some (toLowerCase (stripQuotes (trim (firstToken s))))
  else None.

(** First and last characters, for stating what a normal form looks like. *)
Definition firstIs (p : ascii -> bool) (s : string) : bool :=
  match s with String c _ => p c | EmptyString => false end.

Fixpoint lastIs (p : ascii -> bool) (s : string) : bool :=
  match s with
  | EmptyString => false
  | String c EmptyString => p c
  | String _ r => lastIs p r
  end.

(** The characters [trim] and the quote stripping look for. *)
Definition edge (c : ascii) : bool := isSpace c || isQuote c.

Fixpoint allChars (p : ascii -> bool) (s : string) : bool :=
  match s with
  | EmptyString => true
  | String c r => p c && allChars p r
  end.

Definition notComma (c : ascii) : bool := negb (isComma c).

(** A computed [font-family] whose first family is quoted and starts with
    a space: the double quote, [ Open Sans], the double quote, then a
    generic family. *)
Definition paddedFamily : string :=
  String dquote (" Open Sans" ++ String dquote ", sans-serif").

End JsStr.

(** ** Values crossing the HTTP and the engine boundary *)

(** A parsed JSON value.  An object is the list of its own properties;
    [None] of [option json] stands for [undefined]. *)
Inductive json : Type :=
| JNull
| JBool (b : bool)
| JNum (x : JsNum.num)
| JStr (s : string)
| JArr (items : list json)
| JObj (fields : list (string * json)).

(** ToBoolean. *)
Definition truthy (v : option json) : bool :=
  match v with
  | None | Some JNull => false
  | Some (JBool b) => b
  | Some (JNum x) => JsNum.truthy x
  | Some (JStr s) => JsStr.truthy s
  | Some (JArr _) | Some (JObj _) => true
  end.

Fixpoint assoc (k : string) (fields : list (string * json)) : option json :=
  match fields with
  | [] => None
  | (k', v) :: rest => if String.eqb k k' then Some v else assoc k rest
  end.

(** [v.k] on a value that is neither [null] nor [undefined]: only objects
    carry the properties the handlers read. *)
Definition prop (v : json) (k : string) : option json :=
  match v with
  | JObj fields => assoc k fields
  | _ => None
  end.

(** [body || {}] followed by the read of one destructured property. *)
Definition bodyProp (body : option json) (k : string) : option json :=
  match body with
  | Some v => if truthy body then prop v k else None
  | None => None
  end.

(** A destructuring default applies to [undefined] only. *)
Definition orDefault (v : option json) (d : json) : json :=
  match v with Some x => x | None => d end.

(** [target?.value]. *)
Definition optProp (v : option json) (k : string) : option json :=
  match v with
  | None | Some JNull => None
  | Some x => prop x k
  end.

(** Thrown values are [Error] objects. *)
Record JsError : Type := mkError { err_name : string; err_message : string }.

(** [new Error(msg)]. *)
Definition Error (msg : string) : JsError := mkError "Error" msg.

(** [String(e?.message || e)]: the message when it is truthy, otherwise
    [Error.prototype.toString], which yields the name for an empty message. *)
Definition errorText (e : JsError) : string :=
  if JsStr.truthy (err_message e) then err_message e else err_name e.

(** Decimal rendering of an integer, as a template literal prints an
    integral number. *)
Definition decimal (z : Z) : string := NilZero.string_of_int (Z.to_int z).

Definition Buffer : Type := list ascii.

Definition base64Alphabet : string :=
  "ABCDEFGHIJKLMNOPQRSTUVWXYZabcdefghijklmnopqrstuvwxyz0123456789+/".

Definition sextet (n : N) : ascii :=
  match String.get (N.to_nat n) base64Alphabet with
  | Some c => c
  | None => "="%char
  end.

(** [buf.toString('base64')]. *)
Fixpoint base64 (buf : Buffer) : string :=
  let code := N_of_ascii in
  match buf with
  | [] => EmptyString
  | [a] =>
      String (sextet (N.shiftr (code a) 2))
        (String (sextet (N.shiftl (N.land (code a) 3) 4)) "==")
  | [a; b] =>
      String (sextet (N.shiftr (code a) 2))
        (String (sextet (N.lor (N.shiftl (N.land (code a) 3) 4)
                               (N.shiftr (code b) 4)))
           (String (sextet (N.shiftl (N.land (code b) 15) 2)) "="))
  | a :: b :: c :: rest =>
      String (sextet (N.shiftr (code a) 2))
        (String (sextet (N.lor (N.shiftl (N.land (code a) 3) 4)
                               (N.shiftr (code b) 4)))
           (String (sextet (N.lor (N.shiftl (N.land (code b) 15) 2)
                                  (N.shiftr (code c) 6)))
              (String (sextet (N.land (code c) 63)) (base64 rest))))
  end.

(** ** The browser engine as an external collaborator *)

Definition Browser : Type := nat.
Definition Context : Type := nat.
Definition Page : Type := nat.

Record LaunchOptions : Type :=
  { headless : bool; args : list string }.

Record ContextOptions : Type :=
  { viewport : Z * Z;
    userAgent : string;
    locale : string;
    deviceScaleFactor : option Z;
    hasTouch : option bool }.

(** The only init script: it makes [navigator.webdriver] read [false]. *)
Inductive InitScript : Type := HideWebdriver.

Inductive WaitUntil : Type := networkidle | domcontentloaded.

(** What the code reads of a Playwright response. *)
Record Response : Type := { ok : bool; status : Z }.

Record ScreenshotOptions : Type :=
  { so_fullPage : json; so_type : json; so_quality : json }.

(** What the two in-page scripts read of the document: the computed
    [font-family] of every element in document order, and the measurements
    of every image.  The four measurements are WebIDL integers. *)
Record Element : Type := { fontFamily : string }.

Record Img : Type :=
  { naturalWidth : Z; naturalHeight : Z;
    clientWidth : Z; clientHeight : Z;
    currentSrc : string; src : string }.

Record Document : Type := { elements : list Element; images : list Img }.

(** The calls the service makes, indexed by what they resolve to.
    [Evaluate] runs a script that is a pure function of the document: the
    engine hands over the document the script sees, the model applies the
    script. *)
Inductive EngineCall : Type -> Type :=
| Launch (o : LaunchOptions) : EngineCall Browser
| NewContext (b : Browser) (o : ContextOptions) : EngineCall Context
| AddInitScript (c : Context) (s : InitScript) : EngineCall unit
| SetExtraHTTPHeaders (c : Context) (hs : list (string * string)) : EngineCall unit
| NewPage (c : Context) : EngineCall Page
| BrowserClose (b : Browser) : EngineCall unit
| SetViewportSize (p : Page) (width height : json) : EngineCall unit
| Goto (p : Page) (url : json) (w : WaitUntil) (timeout : Z) : EngineCall (option Response)
| Title (p : Page) : EngineCall string
| Screenshot (p : Page) (o : ScreenshotOptions) : EngineCall Buffer
| Evaluate (p : Page) : EngineCall Document.

(** A call either resolves or rejects. *)
Definition Outcome (X : Type) : Type := (X + JsError)%type.

(** Asynchronous code over the engine: a tree of calls. *)
Inductive Prog (A : Type) : Type :=
| Ret (a : A)
| Throw (e : JsError)
| Call {X : Type} (c : EngineCall X) (k : Outcome X -> Prog A).

Arguments Ret {A} a.
Arguments Throw {A} e.
Arguments Call {A X} c k.

Fixpoint bind {A B : Type} (p : Prog A) (f : A -> Prog B) : Prog B :=
  match p with
  | Ret a => f a
  | Throw e => Throw e
  | Call c k => Call c (fun o => bind (k o) f)
  end.

Notation "x <- p ;; q" := (bind p (fun x => q))
  (at level 61, p at next level, right associativity).

(** [await call]: a rejected call throws. *)
Definition await {X : Type} (c : EngineCall X) : Prog X :=
  Call c (fun o => match o with inl x => Ret x | inr e => Throw e end).

(** [try { p } catch (e) { h e }]. *)
Fixpoint tryCatch {A : Type} (p : Prog A) (h : JsError -> Prog A) : Prog A :=
  match p with
  | Ret a => Ret a
  | Throw e => h e
  | Call c k => Call c (fun o => tryCatch (k o) h)
  end.

(** [try { p } finally { fin }]: [fin] runs on every completion of [p]; the
    completion of [p] stands unless [fin] itself throws. *)
Fixpoint tryFinally {A : Type} (p : Prog A) (fin : Prog unit) : Prog A :=
  match p with
  | Ret a => _ <- fin ;; Ret a
  | Throw e => _ <- fin ;; Throw e
  | Call c k => Call c (fun o => tryFinally (k o) fin)
  end.

(** How a program ends. *)
Inductive Completion (A : Type) : Type :=
| Returned (a : A)
| Thrown (e : JsError).

Arguments Returned {A} a.
Arguments Thrown {A} e.

(** One call and its outcome, as observed at the engine boundary. *)
Inductive Event : Type :=
| Ev {X : Type} (c : EngineCall X) (o : Outcome X).

Definition Trace : Type := list Event.

Section Run.

(** An engine: a state and a deterministic answer to every call. *)
Variable world : Type.
Variable respond : forall X : Type, EngineCall X -> world -> Outcome X * world.

Fixpoint run {A : Type} (p : Prog A) (w : world) : Completion A * Trace * world :=
  match p with
  | Ret a => (Returned a, [], w)
  | Throw e => (Thrown e, [], w)
  | Call c k =>
      let '(o, w1) := respond _ c w in
      let '(r, t, w2) := run (k o) w1 in
      (r, Ev c o :: t, w2)
  end.

End Run.

Arguments run {world} respond {A} p w.

(** ** Page inspector (the two in-page scripts) *)

Local Open Scope string_scope.
Local Open Scope list_scope.
Local Open Scope Z_scope.

(** [set.add(fam)] on an insertion-ordered [Set]. *)
Definition setAdd (x : string) (set : list string) : list string :=
  if existsb (String.eqb x) set then set else set ++ [x].

(** The font script (lines 56-64, 238-246, 413-421): the distinct truthy
    normalized first families, in order of first occurrence. *)
Definition fontFamilies (doc : Document) : list string :=
  fold_left
    (fun set el =>
       match JsStr.normalize (fontFamily el) with
       | Some fam => if JsStr.truthy fam then setAdd fam set else set
       | None => set
       end)
    (elements doc) [].

Definition THRESHOLD : JsNum.num := JsNum.lit_0_03.

(** [!nw || !nh || !cw || !ch] on integral measurements. *)
Definition unmeasured (img : Img) : bool :=
  (naturalWidth img =? 0) || (naturalHeight img =? 0)
  || (clientWidth img =? 0) || (clientHeight img =? 0).

Definition natAR (img : Img) : JsNum.num :=
  JsNum.div (JsNum.of_Z (naturalWidth img)) (JsNum.of_Z (naturalHeight img)).

Definition rendAR (img : Img) : JsNum.num :=
  JsNum.div (JsNum.of_Z (clientWidth img)) (JsNum.of_Z (clientHeight img)).

(** [Math.abs(rendAR - natAR) / natAR]. *)
Definition delta (img : Img) : JsNum.num :=
  JsNum.div (JsNum.abs (JsNum.sub (rendAR img) (natAR img))) (natAR img).

(** The test that pushes an image to [OUT], with the threshold as a
    parameter; the code fixes it to [THRESHOLD]. *)
Definition flaggedAt (threshold : JsNum.num) (img : Img) : bool :=
  negb (unmeasured img) && JsNum.gt (delta img) threshold.

(** The ranges of the WebIDL types of the four measurements:
    [naturalWidth] and [naturalHeight] are [unsigned long], [clientWidth]
    and [clientHeight] are [long]. *)
Definition idlTyped (img : Img) : Prop :=
  0 <= naturalWidth img < 2 ^ 32 /\ 0 <= naturalHeight img < 2 ^ 32
  /\ - 2 ^ 31 <= clientWidth img < 2 ^ 31 /\ - 2 ^ 31 <= clientHeight img < 2 ^ 31.

(** [img.currentSrc || img.src]. *)
Definition resolvedSrc (img : Img) : string :=
  if JsStr.truthy (currentSrc img) then currentSrc img else src img.

Record DistortedImage : Type :=
  { d_src : string;
    d_naturalAR : JsNum.num;
    d_renderAR : JsNum.num;
    d_deltaPct : JsNum.num }.

(** The record pushed for a flagged image (lines 76-81, 433-438). *)
Definition evidenceOf (img : Img) : DistortedImage :=
  {| d_src := resolvedSrc img;
     d_naturalAR := JsNum.Number_toFixed 3 (natAR img);
     d_renderAR := JsNum.Number_toFixed 3 (rendAR img);
     d_deltaPct := JsNum.Number_toFixed 1 (JsNum.mul (delta img) (JsNum.of_Z 100)) |}.

(** The image script (lines 67-85, 424-442): one record per flagged image,
    in the order of [document.images]. *)
Definition distortedAt (threshold : JsNum.num) (imgs : list Img) : list DistortedImage :=
  map evidenceOf (filter (flaggedAt threshold) imgs).

Definition distorted (doc : Document) : list DistortedImage :=
  distortedAt THRESHOLD (images doc).

(** ** Scorer *)

Definition maxFamilies : Z := 3.

Definition len {A : Type} (l : list A) : Z := Z.of_nat (List.length l).

(** Line 467 (and 108, 273).  Every intermediate value is an integer of
    magnitude below [2^53], on which binary64 arithmetic is exact, so the
    expression is computed on [Z]. *)
Definition score {D : Type} (fonts : list string) (dist : list D) : Z :=
  Z.max 50 (100 - len dist * 10 - Z.max 0 (len fonts - maxFamilies) * 5).

Record ByCategory : Type := { typography : Z; logos : Z }.

(** Lines 468-471 (and 109-112). *)
Definition byCategoryOf {D : Type} (fonts : list string) (dist : list D) : ByCategory :=
  {| typography := if len fonts >? maxFamilies then 70 else 95;
     logos := if len dist =? 0 then 95 else 65 |}.

Inductive Evidence : Type :=
| FontEvidence (families : list string) (total : Z) (recomendado : string)
| ImageEvidence (d : DistortedImage).

Record Finding : Type :=
  { id : string;
    title : string;
    severity : string;
    explanation : string;
    evidence : Evidence }.

Definition findingB1 (fonts : list string) : Finding :=
  {| id := "B1";
     title := "Demasiadas familias tipográficas";
     severity := "medium";
     explanation := "Usar demasiadas familias daña la coherencia de marca.";
     evidence := FontEvidence fonts (len fonts) ("≤ " ++ decimal maxFamilies)%string |}.

Definition findingA1 (d : DistortedImage) : Finding :=
  {| id := "A1";
     title := "Imagen posiblemente distorsionada";
     severity := "high";
     explanation :=
       "La proporción de la imagen en pantalla difiere de su proporción original.";
     evidence := ImageEvidence d |}.

(** Lines 446-464: the optional font finding is pushed first, then one image
    finding per element of [distorted]. *)
Definition findingsOf (fonts : list string) (dist : list DistortedImage) : list Finding :=
  (if len fonts >? maxFamilies then [findingB1 fonts] else [])
  ++ map findingA1 dist.

Record Meta : Type :=
  { m_url : json;
    m_status : Z;
    fontsDetected : list string;
    distortedImages : Z }.

Record AnalysisResult : Type :=
  { r_score : Z;
    byCategory : ByCategory;
    findings : list Finding;
    meta : Meta }.

(** The object returned by the analysis pass (lines 466-474). *)
Definition analysisResult (url : json) (resp : Response)
    (fonts : list string) (dist : list DistortedImage) : AnalysisResult :=
  {| r_score := score fonts dist;
     byCategory := byCategoryOf fonts dist;
     findings := findingsOf fonts dist;
     meta := {| m_url := url;
                m_status := status resp;
                fontsDetected := fonts;
                distortedImages := len dist |} |}.

(** ** HTTP surface *)

(** Why [express.json()] rejects a body: it is not JSON text of an object
    or array, it is over the limit of 4mb (lines 7, 132, 297), or it comes
    in a charset or content encoding the parser does not read. *)
Inductive BodyFailure : Type :=
| malformed
| too_large
| unsupported.

(** The status of the error [express.json()] raises. *)
Definition failureStatus (f : BodyFailure) : Z :=
  match f with
  | malformed => 400
  | too_large => 413
  | unsupported => 415
  end.

(** What the framework makes of a request, which is the work of Express
    and of the two library middlewares.  An OPTIONS request, whatever its
    path, is a preflight that [cors()] answers itself.  A request whose body
    [express.json()] rejects goes to Express's error handler.  Every other
    request is matched, by method and path, against the three registered
    routes. *)
Inductive Route : Type :=
| GET_health        (* GET /v1/health *)
| POST_screenshot   (* POST /v1/screenshot *)
| POST_analyze      (* POST /v1/analyze *)
| Unrouted          (* no route matches *)
| OPTIONS_any       (* OPTIONS, any path *)
| Unparsed (f : BodyFailure).

(** A request: [authorization] is [req.get('Authorization')], and [body] is
    [req.body] as [express.json()] leaves it, which is read only when the
    body was accepted. *)
Record Request : Type :=
  { route : Route;
    authorization : option string;
    body : option json }.

Record ScreenshotMeta : Type :=
  { sm_type : json; sm_quality : json; sm_fullPage : json;
    sm_width : option json; sm_height : option json; sm_status : Z }.

(** Response bodies; [R] is the shape of a successful analysis, which
    differs between revisions. *)
Inductive Body (R : Type) : Type :=
| ErrorBody (code message : string)
| HealthBody
| ScreenshotBody (title image_base64 : string) (meta : ScreenshotMeta)
| AnalysisBody (r : R)
| BlockedBody (code message screenshot_base64 : string)
| NotFoundBody
| NoBody
| ErrorPage.

Arguments ErrorBody {R} code message.
Arguments HealthBody {R}.
Arguments ScreenshotBody {R} title image_base64 meta.
Arguments AnalysisBody {R} r.
Arguments BlockedBody {R} code message screenshot_base64.
Arguments NotFoundBody {R}.
Arguments NoBody {R}.
Arguments ErrorPage {R}.

Record HttpResponse (R : Type) : Type :=
  { http_status : Z; http_body : Body R }.

Arguments http_status {R} h.
Arguments http_body {R} h.

(** [res.json(b)] and [res.status(s).json(b)]. *)
Definition json_ {R : Type} (b : Body R) : HttpResponse R :=
  {| http_status := 200; http_body := b |}.
Definition status_json {R : Type} (s : Z) (b : Body R) : HttpResponse R :=
  {| http_status := s; http_body := b |}.

Definition bad_request {R : Type} (message : string) : HttpResponse R :=
  status_json 400 (ErrorBody "bad_request" message).

(** [cors()] with its default options (lines 6, 131, 296), the first
    middleware of every revision: it ends an OPTIONS request with status
    204 and an empty body, and passes every other request on. *)
Definition cors {R : Type} (next : Request -> Prog (HttpResponse R))
    (req : Request) : Prog (HttpResponse R) :=
  match route req with
  | OPTIONS_any => Ret {| http_status := 204; http_body := NoBody |}
  | _ => next req
  end.

(** [express.json({ limit: '4mb' })] (lines 7, 132, 297), the second
    middleware: a body it rejects goes as an error past the rest of the stack
    to Express's error handler, which answers with the status of the error;
    otherwise [req.body] is set and the request passes on. *)
Definition express_json {R : Type} (next : Request -> Prog (HttpResponse R))
    (req : Request) : Prog (HttpResponse R) :=
  match route req with
  | Unparsed f => Ret {| http_status := failureStatus f; http_body := ErrorPage |}
  | _ => next req
  end.

(** The logging middleware (lines 133-136, 298-301) writes one line to the
    console and calls [next()]. *)
Definition logRequest {R : Type} (next : Request -> Prog (HttpResponse R))
    (req : Request) : Prog (HttpResponse R) :=
  next req.

Definition userAgentString : string :=
  "Mozilla/5.0 (Macintosh; Intel Mac OS X 13_5) AppleWebKit/537.36 (KHTML, like Gecko) Chrome/124.0.0.0 Safari/537.36".

Definition launchOptions : LaunchOptions :=
  {| headless := true;
     args := ["--no-sandbox"; "--disable-setuid-sandbox";
              "--disable-blink-features=AutomationControlled"] |}.

Definition num (z : Z) : json := JNum (JsNum.of_Z z).

(** ** The last revision (lines 291-502) *)

Module Rev3.

(** [withPage] (lines 306-341).  The handlers never pass the second
    argument, so [width] and [height] are the defaults 1366 and 768 at every
    call site. *)
Definition withPage {A : Type} (fn : Page -> Prog A) (width height : Z) : Prog A :=
  browser <- await (Launch launchOptions) ;;
  context <- await (NewContext browser
               {| viewport := (width, height);
                  userAgent := userAgentString;
                  locale := "es-CL";
                  deviceScaleFactor := Some 1;
                  hasTouch := Some false |}) ;;
  _ <- await (AddInitScript context HideWebdriver) ;;
  _ <- await (SetExtraHTTPHeaders context
               [("Accept-Language", "es-CL,es;q=0.9,en;q=0.8");
                ("Upgrade-Insecure-Requests", "1")]) ;;
  page <- await (NewPage context) ;;
  tryFinally (fn page) (await (BrowserClose browser)).

(** The statements of [withPage] before its [try] block (lines 307-335):
    the session, of which the function is handed the page and the [finally]
    block closes the browser. *)
Definition acquire (width height : Z) : Prog (Browser * Page) :=
  browser <- await (Launch launchOptions) ;;
  context <- await (NewContext browser
               {| viewport := (width, height);
                  userAgent := userAgentString;
                  locale := "es-CL";
                  deviceScaleFactor := Some 1;
                  hasTouch := Some false |}) ;;
  _ <- await (AddInitScript context HideWebdriver) ;;
  _ <- await (SetExtraHTTPHeaders context
               [("Accept-Language", "es-CL,es;q=0.9,en;q=0.8");
                ("Upgrade-Insecure-Requests", "1")]) ;;
  page <- await (NewPage context) ;;
  Ret (browser, page).

(** The message of the error thrown at line 356: [r2?.status()] printed in
    decimal, or the word for unknown when there is no response. *)
Definition loadFailure (r2 : option Response) : JsError :=
  Error ("No se pudo cargar la URL (status="
         ++ match r2 with Some r => decimal (status r) | None => "desconocido" end
         ++ ")")%string.

(** [safeGoto] (lines 346-359).  The first [try] block returns [r1] when it
    is a response with [ok()]; everything else, a throw included, falls
    through to the second attempt, which is not guarded. *)
Definition safeGoto (page : Page) (url : json) : Prog Response :=
  early <- tryCatch
             (r1 <- await (Goto page url networkidle 60000) ;;
              Ret (match r1 with
                   | Some r => if ok r then Some r else None
                   | None => None
                   end))
             (fun _ => Ret None) ;;
  match early with
  | Some r1 => Ret r1
  | None =>
      r2 <- await (Goto page url domcontentloaded 60000) ;;
      match r2 with
      | Some r => if ok r then Ret r else Throw (loadFailure r2)
      | None => Throw (loadFailure r2)
      end
  end.

(** [GET /v1/health] (lines 364-366). *)
Definition health (_ : Request) : Prog (HttpResponse AnalysisResult) :=
  Ret (json_ HealthBody).

(** The function passed to [withPage] by the screenshot handler
    (lines 384-394). *)
Definition screenshotPass (url fullPage type quality width height : json)
    (page : Page) : Prog (Body AnalysisResult) :=
  _ <- await (SetViewportSize page width height) ;;
  resp <- safeGoto page url ;;
  title <- await (Title page) ;;
  buf <- await (Screenshot page
           {| so_fullPage := fullPage; so_type := type; so_quality := quality |}) ;;
  Ret (ScreenshotBody title (base64 buf)
         {| sm_type := type; sm_quality := quality; sm_fullPage := fullPage;
            sm_width := Some width; sm_height := Some height;
            sm_status := status resp |}).

(** [POST /v1/screenshot] (lines 371-399). *)
Definition screenshot (req : Request) : Prog (HttpResponse AnalysisResult) :=
  let url := bodyProp (body req) "url" in
  let fullPage := orDefault (bodyProp (body req) "fullPage") (JBool false) in
  let type := orDefault (bodyProp (body req) "type") (JStr "jpeg") in
  let quality := orDefault (bodyProp (body req) "quality") (num 60) in
  let width := orDefault (bodyProp (body req) "width") (num 1280) in
  let height := orDefault (bodyProp (body req) "height") (num 1000) in
  match url with
  | Some u =>
      if truthy url then
        tryCatch
          (result <- withPage (screenshotPass u fullPage type quality width height)
                       1366 768 ;;
           Ret (json_ result))
          (fun e => Ret (status_json 500 (ErrorBody "screenshot_failed" (errorText e))))
      else Ret (bad_request "url requerida")
  | None => Ret (bad_request "url requerida")
  end.

(** The function passed to [withPage] by the analysis (lines 409-475). *)
Definition analyzePass (url : json) (page : Page) : Prog AnalysisResult :=
  resp <- safeGoto page url ;;
  fontsDoc <- await (Evaluate page) ;;
  imagesDoc <- await (Evaluate page) ;;
  Ret (analysisResult url resp (fontFamilies fontsDoc) (distorted imagesDoc)).

(** The function passed to [withPage] by the fallback (lines 482-486). *)
Definition fallbackPass (url : json) (page : Page) : Prog string :=
  _ <- safeGoto page url ;;
  buf <- await (Screenshot page
           {| so_fullPage := JBool false; so_type := JStr "jpeg"; so_quality := num 60 |}) ;;
  Ret (base64 buf).

Definition blockedMessage (e : JsError) : string :=
  ("La página bloqueó el análisis DOM (" ++ errorText e
   ++ "). Se adjunta mini-captura para auditoría visual.")%string.

(** [POST /v1/analyze] (lines 404-496). *)
Definition analyze (req : Request) : Prog (HttpResponse AnalysisResult) :=
  let target := bodyProp (body req) "target" in
  let value := optProp target "value" in
  match value with
  | Some url =>
      if truthy value then
        tryCatch
          (out <- withPage (analyzePass url) 1366 768 ;;
           Ret (json_ (AnalysisBody out)))
          (fun e =>
             tryCatch
               (fallback <- withPage (fallbackPass url) 1366 768 ;;
                Ret (status_json 502
                       (BlockedBody "analyze_blocked" (blockedMessage e) fallback)))
               (fun e2 =>
                  Ret (status_json 500 (ErrorBody "analyze_failed" (errorText e2)))))
      else Ret (bad_request "target.value requerido")
  | None => Ret (bad_request "target.value requerido")
  end.

(** The three routes (lines 364, 371, 404), then Express's own 404 for a
    request that matches none of them. *)
Definition routes (req : Request) : Prog (HttpResponse AnalysisResult) :=
  match route req with
  | GET_health => health req
  | POST_screenshot => screenshot req
  | POST_analyze => analyze req
  | _ => Ret (status_json 404 NotFoundBody)
  end.

(** The application, in the order its middlewares are mounted
    (lines 296-301): [cors()], [express.json()], the logging middleware,
    the routes. *)
Definition app (req : Request) : Prog (HttpResponse AnalysisResult) :=
  cors (express_json (logRequest routes)) req.

End Rev3.

(** ** The middle revision (lines 126-290), the one with the bearer gate *)

Module Rev2.

(** [process.env.API_KEY || null] (line 143). *)
Definition API_KEY (env : option string) : option string :=
  match env with
  | Some s => if JsStr.truthy s then Some s else None
  | None => None
  end.

Definition unauthorized {R : Type} : HttpResponse R :=
  status_json 401 (ErrorBody "unauthorized" "Missing/invalid bearer token").

(** The gate (lines 144-149), with [next] the rest of the stack. *)
Definition gate {R : Type} (apiKey : option string)
    (next : Request -> Prog (HttpResponse R)) (req : Request) : Prog (HttpResponse R) :=
  match apiKey with
  | None => next req
  | Some key =>
      let header :=
        match authorization req with
        | Some h => if JsStr.truthy h then h else ""
        | None => ""
        end in
      if String.eqb header ("Bearer " ++ key)%string then next req
      else Ret unauthorized
  end.

(** [withPage] (lines 154-181). *)
Definition withPage {A : Type} (fn : Page -> Prog A) (width height : Z) : Prog A :=
  browser <- await (Launch launchOptions) ;;
  context <- await (NewContext browser
               {| viewport := (width, height);
                  userAgent := userAgentString;
                  locale := "es-CL";
                  deviceScaleFactor := None;
                  hasTouch := None |}) ;;
  _ <- await (AddInitScript context HideWebdriver) ;;
  page <- await (NewPage context) ;;
  tryFinally (fn page) (await (BrowserClose browser)).

(** [safeGoto] (lines 186-194): as in the last revision, but the error
    carries no status. *)
Definition safeGoto (page : Page) (url : json) : Prog Response :=
  early <- tryCatch
             (r1 <- await (Goto page url networkidle 60000) ;;
              Ret (match r1 with
                   | Some r => if ok r then Some r else None
                   | None => None
                   end))
             (fun _ => Ret None) ;;
  match early with
  | Some r1 => Ret r1
  | None =>
      r2 <- await (Goto page url domcontentloaded 60000) ;;
      match r2 with
      | Some r => if ok r then Ret r else Throw (Error "No se pudo cargar la URL")
      | None => Throw (Error "No se pudo cargar la URL")
      end
  end.

(** The string [x.toFixed(digits)], kept as the number it prints. *)
Record Fixed : Type := toFixed { fixed_digits : Z; fixed_of : JsNum.num }.

Record Distorted2 : Type := { d2_src : string; d2_deltaPct : Fixed }.

Record Finding2 : Type :=
  { f2_id : string; f2_title : string; f2_severity : string;
    f2_evidence : option Distorted2 }.

Record Meta2 : Type :=
  { m2_url : json; m2_fontsDetected : list string; m2_distortedImages : Z }.

Record AnalysisResult2 : Type :=
  { r2_score : Z; r2_findings : list Finding2; r2_meta : Meta2 }.

(** The image script of this revision (lines 248-261). *)
Definition distorted2 (doc : Document) : list Distorted2 :=
  map (fun img =>
         {| d2_src := resolvedSrc img;
            d2_deltaPct := toFixed 1 (JsNum.mul (delta img) (JsNum.of_Z 100)) |})
      (filter (flaggedAt THRESHOLD) (images doc)).

Definition health (_ : Request) : Prog (HttpResponse AnalysisResult2) :=
  Ret (json_ HealthBody).

(** [POST /v1/screenshot] (lines 206-225). *)
Definition screenshot (req : Request) : Prog (HttpResponse AnalysisResult2) :=
  let url := bodyProp (body req) "url" in
  let fullPage := orDefault (bodyProp (body req) "fullPage") (JBool false) in
  let type := orDefault (bodyProp (body req) "type") (JStr "jpeg") in
  let quality := orDefault (bodyProp (body req) "quality") (num 60) in
  match url with
  | Some u =>
      if truthy url then
        tryCatch
          (result <- withPage
                       (fun page =>
                          resp <- safeGoto page u ;;
                          title <- await (Title page) ;;
                          buf <- await (Screenshot page
                                   {| so_fullPage := fullPage; so_type := type;
                                      so_quality := quality |}) ;;
                          Ret (ScreenshotBody title (base64 buf)
                                 {| sm_type := type; sm_quality := quality;
                                    sm_fullPage := fullPage;
                                    sm_width := None; sm_height := None;
                                    sm_status := status resp |}))
                       1366 768 ;;
           Ret (json_ result))
          (fun e => Ret (status_json 500 (ErrorBody "screenshot_failed" (errorText e))))
      else Ret (bad_request "url requerida")
  | None => Ret (bad_request "url requerida")
  end.

(** [POST /v1/analyze] (lines 230-282). *)
Definition analyze (req : Request) : Prog (HttpResponse AnalysisResult2) :=
  let target := bodyProp (body req) "target" in
  let value := optProp target "value" in
  match value with
  | Some url =>
      if truthy value then
        tryCatch
          (out <- withPage
                    (fun page =>
                       _ <- safeGoto page url ;;
                       fontsDoc <- await (Evaluate page) ;;
                       imagesDoc <- await (Evaluate page) ;;
                       let fonts := fontFamilies fontsDoc in
                       let dist := distorted2 imagesDoc in
                       Ret {| r2_score := score fonts dist;
                              r2_findings :=
                                (if len fonts >? maxFamilies
                                 then [{| f2_id := "B1";
                                          f2_title := "Demasiadas familias tipográficas";
                                          f2_severity := "medium";
                                          f2_evidence := None |}]
                                 else [])
                                ++ map (fun d =>
                                          {| f2_id := "A1";
                                             f2_title := "Imagen posiblemente distorsionada";
                                             f2_severity := "high";
                                             f2_evidence := Some d |}) dist;
                              r2_meta := {| m2_url := url;
                                            m2_fontsDetected := fonts;
                                            m2_distortedImages := len dist |} |})
                    1366 768 ;;
           Ret (json_ (AnalysisBody out)))
          (fun e => Ret (status_json 500 (ErrorBody "analyze_failed" (errorText e))))
      else Ret (bad_request "target.value requerido")
  | None => Ret (bad_request "target.value requerido")
  end.

(** The three routes (lines 199, 206, 230), then Express's own 404. *)
Definition routes (req : Request) : Prog (HttpResponse AnalysisResult2) :=
  match route req with
  | GET_health => health req
  | POST_screenshot => screenshot req
  | POST_analyze => analyze req
  | _ => Ret (status_json 404 NotFoundBody)
  end.

(** The application for a value of the environment variable (read once at
    start-up), in the order its middlewares are mounted (lines 131-149):
    [cors()], [express.json()], the logging middleware, the gate, the
    routes. *)
Definition app (env : option string) (req : Request) : Prog (HttpResponse AnalysisResult2) :=
  cors (express_json (logRequest (gate (API_KEY env) routes))) req.

End Rev2.

(** ** A scripted engine, for running the model on concrete inputs *)

Definition okResponse : Response := {| ok := true; status := 200 |}.

(** What a call resolves to when the script does not say. *)
Definition defaultAnswer {X : Type} (c : EngineCall X) : X :=
  match c in EngineCall X return X with
  | Launch _ => 1%nat
  | NewContext _ _ => 2%nat
  | AddInitScript _ _ => tt
  | SetExtraHTTPHeaders _ _ => tt
  | NewPage _ => 3%nat
  | BrowserClose _ => tt
  | SetViewportSize _ _ _ => tt
  | Goto _ _ _ _ => Some okResponse
  | Title _ => "Example Domain"
  | Screenshot _ _ => ["255"; "216"; "255"; "224"]%char
  | Evaluate _ => {| elements := []; images := [] |}
  end.

Inductive Step : Type :=
| Resolve
| Reject (e : JsError)
| Navigate (r : option Response)
| Render (d : Document)
| Capture (b : Buffer).

Definition answer {X : Type} (s : Step) (c : EngineCall X) : Outcome X :=
  match s with
  | Reject e => inr e
  | Navigate r =>
      match c in EngineCall X return Outcome X with
      | Goto _ _ _ _ => inl r
      | c' => inl (defaultAnswer c')
      end
  | Render d =>
      match c in EngineCall X return Outcome X with
      | Evaluate _ => inl d
      | c' => inl (defaultAnswer c')
      end
  | Capture b =>
      match c in EngineCall X return Outcome X with
      | Screenshot _ _ => inl b
      | c' => inl (defaultAnswer c')
      end
  | Resolve => inl (defaultAnswer c)
  end.

(** The engine that answers the n-th call as the n-th step says, and
    resolves every call past the end of the script. *)
Definition scripted (X : Type) (c : EngineCall X) (w : list Step) : Outcome X * list Step :=
  match w with
  | [] => (inl (defaultAnswer c), [])
  | s :: rest => (answer s c, rest)
  end.

Definition completion {A W : Type} (r : Completion A * Trace * W) : Completion A :=
  fst (fst r).
Definition trace {A W : Type} (r : Completion A * Trace * W) : Trace := snd (fst r).

(** ** Observations on traces *)

(** A session is acquired when [newPage] resolves: browser, context and
    page exist. *)
Definition isAcquire (ev : Event) : bool :=
  match ev with
  | @Ev X c o =>
      match c in EngineCall X return Outcome X -> bool with
      | NewPage _ => fun o => match o with inl _ => true | inr _ => false end
      | _ => fun _ => false
      end o
  end.

(** A session is released by a call to [browser.close()]. *)
Definition isRelease (ev : Event) : bool :=
  match ev with
  | @Ev _ (BrowserClose _) _ => true
  | _ => false
  end.

Definition isLaunch (ev : Event) : bool :=
  match ev with
  | @Ev _ (Launch _) _ => true
  | _ => false
  end.

Definition count (p : Event -> bool) (t : Trace) : nat := List.length (filter p t).

(** The calls a function handed a page makes: none of them opens or closes
    a browser. *)
Definition onPage {X : Type} (c : EngineCall X) : bool :=
  match c with
  | SetViewportSize _ _ _ | Goto _ _ _ _ | Title _ | Screenshot _ _ | Evaluate _ => true
  | _ => false
  end.

Definition evOnPage (ev : Event) : bool :=
  match ev with @Ev _ c _ => onPage c end.

Fixpoint pageOnly {A : Type} (p : Prog A) : Prop :=
  match p with
  | Ret _ | Throw _ => True
  | Call c k => onPage c = true /\ forall o, pageOnly (k o)
  end.

(** The response of a navigation attempt that counts as a success: the
    attempt resolved to a response whose [ok()] is true. *)
Definition loaded (o : Outcome (option Response)) : option Response :=
  match o with
  | inl (Some r) => if ok r then Some r else None
  | _ => None
  end.

Definition attempt1 (page : Page) (url : json) : EngineCall (option Response) :=
  Goto page url networkidle 60000.
Definition attempt2 (page : Page) (url : json) : EngineCall (option Response) :=
  Goto page url domcontentloaded 60000.

(** ** Reading a findings list *)

Definition isB1 (f : Finding) : bool := String.eqb (id f) "B1".
Definition isA1 (f : Finding) : bool := String.eqb (id f) "A1".

(** ** Names for the outcomes of the handlers *)

(** The options of the fallback screenshot (line 484). *)
Definition lowFidelity : ScreenshotOptions :=
  {| so_fullPage := JBool false; so_type := JStr "jpeg"; so_quality := num 60 |}.

(** The response of the analyze handler once the analysis pass threw [e],
    by the completion of the fallback pass (lines 487-494). *)
Definition blocked (e : JsError) (shot : Completion string) : HttpResponse AnalysisResult :=
  match shot with
  | Returned b64 =>
      status_json 502 (BlockedBody "analyze_blocked" (Rev3.blockedMessage e) b64)
  | Thrown e2 => status_json 500 (ErrorBody "analyze_failed" (errorText e2))
  end.

(** The response of the screenshot handler, by the completion of its
    session (lines 395-397). *)
Definition screenshotFailed (r : Completion (Body AnalysisResult)) : HttpResponse AnalysisResult :=
  match r with
  | Returned b => json_ b
  | Thrown e => status_json 500 (ErrorBody "screenshot_failed" (errorText e))
  end.

(** ** Concrete requests and engine scripts *)

Definition siteUrl : json := JStr "https://example.com".

Definition analyzeReq : Request :=
  {| route := POST_analyze;
     authorization := None;
     body := Some (JObj [("target", JObj [("type", JStr "url"); ("value", siteUrl)])]) |}.

Definition screenshotReq : Request :=
  {| route := POST_screenshot;
     authorization := None;
     body := Some (JObj [("url", siteUrl)]) |}.



Definition timeoutError : JsError :=
  mkError "TimeoutError" "page.goto: Timeout 60000ms exceeded.".

Definition dnsError : JsError :=
  mkError "Error" "page.goto: net::ERR_NAME_NOT_RESOLVED at https://example.com".

Definition forbidden : Response := {| ok := false; status := 403 |}.

(** The session is acquired, the first navigation attempt times out and
    the second one is answered 403; every later call resolves. *)
Definition blockedScript : list Step :=
  [Resolve; Resolve; Resolve; Resolve; Resolve;
   Reject timeoutError; Navigate (Some forbidden)].

(** Both navigation attempts are rejected by the engine. *)
Definition unreachableScript : list Step := [Reject dnsError; Reject dnsError].

(** The statement that every failure of the second attempt surfaces as the
    load failure carrying a status or the word for unknown. *)
Definition second_failure_is_load_failure : Prop :=
  forall (world : Type)
         (respond : forall X : Type, EngineCall X -> world -> Outcome X * world)
         (page : Page) (url : json) (w : world),
    let '(o1, w1) := respond _ (attempt1 page url) w in
    let '(o2, _) := respond _ (attempt2 page url) w1 in
    loaded o1 = None -> loaded o2 = None ->
    exists r2, completion (run respond (Rev3.safeGoto page url) w)
               = Thrown (Rev3.loadFailure r2).

(** A page with five distinct first families (one of them declared twice)
    and three images: one stretched to a square, one rendered at half size
    in proportion, one that has not loaded. *)
Definition stretchedLogo : Img :=
  {| naturalWidth := 200; naturalHeight := 100;
     clientWidth := 100; clientHeight := 100;
     currentSrc := "https://example.com/logo.png"; src := "/logo.png" |}.

Definition scaledHero : Img :=
  {| naturalWidth := 640; naturalHeight := 480;
     clientWidth := 320; clientHeight := 240;
     currentSrc := ""; src := "/hero.jpg" |}.

Definition unloadedGif : Img :=
  {| naturalWidth := 0; naturalHeight := 0;
     clientWidth := 24; clientHeight := 24;
     currentSrc := ""; src := "/lazy.gif" |}.

Definition auditDoc : Document :=
  {| elements :=
       [ {| fontFamily := "Inter, sans-serif" |};
         {| fontFamily := "'Roboto Slab', serif" |};
         {| fontFamily := "inter" |};
         {| fontFamily := "Georgia, serif" |};
         {| fontFamily := "Courier New, monospace" |};
         {| fontFamily := "Lato" |} ];
     images := [stretchedLogo; scaledHero; unloadedGif] |}.

(** The session is acquired, the first navigation attempt succeeds, and
    both scripts see [auditDoc]. *)
Definition auditScript : list Step :=
  [Resolve; Resolve; Resolve; Resolve; Resolve; Resolve; Render auditDoc; Render auditDoc].

Definition auditRun : Completion (HttpResponse AnalysisResult) * Trace * list Step :=
  run scripted (Rev3.app analyzeReq) auditScript.

Definition auditResponse : HttpResponse AnalysisResult :=
  match completion auditRun with
  | Returned resp => resp
  | Thrown _ => status_json 0 NotFoundBody
  end.

(** A start-up environment with the secret set. *)
Definition secretEnv : option string := Some "s3cret".

(** The requests that get as far as the gate of the middle revision: all
    but the OPTIONS requests, which [cors()] answers, and the requests whose
    body [express.json()] rejects. *)
Definition reachesGate (req : Request) : bool :=
  match route req with
  | OPTIONS_any | Unparsed _ => false
  | _ => true
  end.

(** A preflight, as a browser sends it before a cross-origin POST to
    [/v1/analyze]: an OPTIONS request, which carries no credentials. *)
Definition preflightReq : Request :=
  {| route := OPTIONS_any; authorization := None; body := None |}.

(** A POST to [/v1/analyze] whose body is not JSON, without the header. *)
Definition unparsedReq : Request :=
  {| route := Unparsed malformed; authorization := None; body := None |}.

(** The statement that, a secret being set, every request without the
    matching header is answered 401 [unauthorized]. *)
Definition every_request_is_gated : Prop :=
  forall (world : Type)
         (respond : forall X : Type, EngineCall X -> world -> Outcome X * world)
         (key : string) (req : Request) (w : world),
    key <> "" ->
    authorization req <> Some ("Bearer " ++ key)%string ->
    completion (run respond (Rev2.app (Some key) req) w) = Returned Rev2.unauthorized.

Definition notFound : Response := {| ok := false; status := 404 |}.

(** A site that answers 404 to every navigation: in each of the two
    sessions the first attempt times out and the second one is answered
    404. *)
Definition notFoundScript : list Step :=
  [Resolve; Resolve; Resolve; Resolve; Resolve;
   Reject timeoutError; Navigate (Some notFound); Resolve;
   Resolve; Resolve; Resolve; Resolve; Resolve;
   Reject timeoutError; Navigate (Some notFound)].

(** The browser launches and the creation of its context is rejected. *)
Definition noContextScript : list Step :=
  [Resolve; Reject (Error "browser.newContext: Target closed")].

(** ** The font script, one element at a time *)

(** The body of the loop of the font script (lines 416-419): the set after
    one more element. *)
Definition addFamily (set : list string) (el : Element) : list string :=
  match JsStr.normalize (fontFamily el) with
  | Some fam => if JsStr.truthy fam then setAdd fam set else set
  | None => set
  end.

(** An image displayed at its natural size, and a page that holds it next
    to an image that has not loaded. *)
Definition faithfulLogo : Img :=
  {| naturalWidth := 300; naturalHeight := 150;
     clientWidth := 300; clientHeight := 150;
     currentSrc := ""; src := "/brand.svg" |}.

Definition faithfulDoc : Document :=
  {| elements := [ {| fontFamily := "Inter" |} ];
     images := [faithfulLogo; unloadedGif] |}.

(** ** Invariants and bounds on the calls of a program *)

(** Every call the program can make satisfies [P]. *)
Fixpoint always {A : Type} (P : forall X : Type, EngineCall X -> Prop) (p : Prog A) : Prop :=
  match p with
  | Ret _ | Throw _ => True
  | Call c k => P _ c /\ forall o, always P (k o)
  end.

(** On every path the program makes at most [n] of the calls [sel] selects. *)
Fixpoint atMost {A : Type} (sel : forall X : Type, EngineCall X -> bool) (n : nat)
    (p : Prog A) : Prop :=
  match p with
  | Ret _ | Throw _ => True
  | Call c k =>
      if sel _ c
      then match n with
           | O => False
           | S n' => forall o, atMost sel n' (k o)
           end
      else forall o, atMost sel n (k o)
  end.

Definition evHolds (P : forall X : Type, EngineCall X -> Prop) (ev : Event) : Prop :=
  match ev with @Ev X c _ => P X c end.

Definition evSel (sel : forall X : Type, EngineCall X -> bool) (ev : Event) : bool :=
  match ev with @Ev X c _ => sel X c end.

Definition launchCall (X : Type) (c : EngineCall X) : bool :=
  match c with Launch _ => true | _ => false end.

Definition gotoCall (X : Type) (c : EngineCall X) : bool :=
  match c with Goto _ _ _ _ => true | _ => false end.

(** A navigation goes to [url] and gives up after 60 seconds; other calls
    are not constrained. *)
Definition navigatesTo (url : option json) (X : Type) (c : EngineCall X) : Prop :=
  match c with
  | Goto _ u _ timeout => Some u = url /\ timeout = 60000
  | _ => True
  end.

(** The URL a request asks for, by its route. *)
Definition requestedUrl (req : Request) : option json :=
  match route req with
  | POST_screenshot => bodyProp (body req) "url"
  | POST_analyze => optProp (bodyProp (body req) "target") "value"
  | _ => None
  end.

(** The number of browsers a route may launch. *)
Definition sessionBudget (r : Route) : nat :=
  match r with
  | POST_screenshot => 1
  | POST_analyze => 2
  | _ => 0
  end.


(** The same for the middle revision, which has no fallback session. *)
Definition sessionBudget2 (r : Route) : nat :=
  match r with
  | POST_screenshot | POST_analyze => 1
  | _ => 0
  end.
(** ** Postconditions over every path of a program *)

(** [Q] holds of the events and of the completion on every path of [p],
    the events coming after [hist]. *)
Fixpoint ensures {A : Type} (Q : Trace -> Completion A -> Prop) (hist : Trace)
    (p : Prog A) : Prop :=
  match p with
  | Ret a => Q hist (Returned a)
  | Throw e => Q hist (Thrown e)
  | Call c k => forall o, ensures Q (hist ++ [Ev c o]) (k o)
  end.

(** Reading a trace from left to right with one bit of state: whether the
    latest navigation attempt of the browser in use resolved to a response
    with [ok()].  The predicate holds when every call that reads the page
    (title, screenshot, in-page script) comes while that bit is set. *)
Fixpoint readsLoadedPages (navOk : bool) (t : Trace) : Prop :=
  match t with
  | [] => True
  | @Ev X c o :: t' =>
      match c in EngineCall X return Outcome X -> Prop with
      | Goto _ _ _ _ =>
          fun o => readsLoadedPages
                     (match loaded o with Some _ => true | None => false end) t'
      | Launch _ => fun _ => readsLoadedPages false t'
      | Title _ | Screenshot _ _ | Evaluate _ =>
          fun _ => navOk = true /\ readsLoadedPages navOk t'
      | _ => fun _ => readsLoadedPages navOk t'
      end o
  end.

(** Where the browser of a request stands. *)
Inductive SessionState : Type :=
| noBrowser                                (* none is in use *)
| launched (b : Browser)                   (* launched, without a context yet *)
| inContext (b : Browser) (c : Context)    (* being set up, without a page yet *)
| sessionOpen (b : Browser) (p : Page).    (* the page exists *)

(** Reading a trace from left to right with the state of the browser in
    use and the list of the browsers abandoned so far.  The predicate holds
    when a browser is launched only while none is in use; the context is
    asked of the browser launched last, the set-up calls and the page of its
    context, and every page call goes to that page; [browser.close()] is
    called on that browser, once its page exists, and ends its use; a
    browser whose context, set-up call or page is rejected is abandoned as
    it is, without a call to [browser.close()]; and at the end no browser is
    in use and the browsers abandoned are those of [final]. *)
Fixpoint oneBrowserAtATime (st : SessionState) (abandoned final : list Browser)
    (t : Trace) : Prop :=
  match t with
  | [] => st = noBrowser /\ abandoned = final
  | @Ev X c o :: t' =>
      match c in EngineCall X return Outcome X -> Prop with
      | Launch _ =>
          fun o =>
            st = noBrowser
            /\ oneBrowserAtATime
                 (match o with inl b => launched b | inr _ => noBrowser end)
                 abandoned final t'
      | NewContext b' _ =>
          fun o =>
            match st with
            | launched b =>
                b' = b
                /\ match o with
                   | inl ctx => oneBrowserAtATime (inContext b ctx) abandoned final t'
                   | inr _ => oneBrowserAtATime noBrowser (abandoned ++ [b]) final t'
                   end
            | _ => False
            end
      | AddInitScript ctx' _ | SetExtraHTTPHeaders ctx' _ =>
          fun o =>
            match st with
            | inContext b ctx =>
                ctx' = ctx
                /\ match o with
                   | inl _ => oneBrowserAtATime (inContext b ctx) abandoned final t'
                   | inr _ => oneBrowserAtATime noBrowser (abandoned ++ [b]) final t'
                   end
            | _ => False
            end
      | NewPage ctx' =>
          fun o =>
            match st with
            | inContext b ctx =>
                ctx' = ctx
                /\ match o with
                   | inl p => oneBrowserAtATime (sessionOpen b p) abandoned final t'
                   | inr _ => oneBrowserAtATime noBrowser (abandoned ++ [b]) final t'
                   end
            | _ => False
            end
      | BrowserClose b' =>
          fun _ =>
            match st with
            | sessionOpen b _ => b' = b /\ oneBrowserAtATime noBrowser abandoned final t'
            | _ => False
            end
      | SetViewportSize p' _ _ | Goto p' _ _ _ | Title p' | Screenshot p' _ | Evaluate p' =>
          fun _ =>
            match st with
            | sessionOpen b p => p' = p /\ oneBrowserAtATime (sessionOpen b p) abandoned final t'
            | _ => False
            end
      end o
  end.

(** A launch that resolved: a browser exists. *)
Definition isLaunched (ev : Event) : bool :=
  match ev with
  | @Ev _ (Launch _) (inl _) => true
  | _ => false
  end.

(** The events of a request keep the browsers in turn, and the browsers
    launched and never closed are the abandoned ones. *)
Definition browsersInTurn (t : Trace) : Prop :=
  exists leftOpen,
    oneBrowserAtATime noBrowser [] leftOpen t
    /\ count isLaunched t = (count isRelease t + List.length leftOpen)%nat.

(** The answers a route of the last revision gives: a status and the kind
    of body that goes with it. *)
Definition answerKind (r : Route) (resp : HttpResponse AnalysisResult) : bool :=
  match r, http_body resp with
  | GET_health, HealthBody => http_status resp =? 200
  | POST_screenshot, ScreenshotBody _ _ _ => http_status resp =? 200
  | POST_screenshot, ErrorBody code _ =>
      ((http_status resp =? 400) && String.eqb code "bad_request")
      || ((http_status resp =? 500) && String.eqb code "screenshot_failed")
  | POST_analyze, AnalysisBody _ => http_status resp =? 200
  | POST_analyze, BlockedBody code _ _ =>
      (http_status resp =? 502) && String.eqb code "analyze_blocked"
  | POST_analyze, ErrorBody code _ =>
      ((http_status resp =? 400) && String.eqb code "bad_request")
      || ((http_status resp =? 500) && String.eqb code "analyze_failed")
  | Unrouted, NotFoundBody => http_status resp =? 404
  | OPTIONS_any, NoBody => http_status resp =? 204
  | Unparsed f, ErrorPage => http_status resp =? failureStatus f
  | _, _ => false
  end.

(** The same for the middle revision, which has the gate and no fallback:
    the gate stands behind [cors()] and [express.json()], so that it answers
    neither an OPTIONS request nor a request whose body is rejected. *)
Definition answerKind2 (r : Route) (resp : HttpResponse Rev2.AnalysisResult2) : bool :=
  match r, http_body resp with
  | OPTIONS_any, NoBody => http_status resp =? 204
  | OPTIONS_any, _ => false
  | Unparsed f, ErrorPage => http_status resp =? failureStatus f
  | Unparsed _, _ => false
  | _, ErrorBody "unauthorized" _ => http_status resp =? 401
  | GET_health, HealthBody => http_status resp =? 200
  | POST_screenshot, ScreenshotBody _ _ _ => http_status resp =? 200
  | POST_screenshot, ErrorBody code _ =>
      ((http_status resp =? 400) && String.eqb code "bad_request")
      || ((http_status resp =? 500) && String.eqb code "screenshot_failed")
  | POST_analyze, AnalysisBody _ => http_status resp =? 200
  | POST_analyze, ErrorBody code _ =>
      ((http_status resp =? 400) && String.eqb code "bad_request")
      || ((http_status resp =? 500) && String.eqb code "analyze_failed")
  | Unrouted, NotFoundBody => http_status resp =? 404
  | _, _ => false
  end.

(** ** The shape of the successful answers of the last revision *)

(** The capture options of a screenshot request: the values of the body,
    or [false], [jpeg] and [60] for the keys it lacks (line 372-376). *)
Definition captureOptions (req : Request) : ScreenshotOptions :=
  {| so_fullPage := orDefault (bodyProp (body req) "fullPage") (JBool false);
     so_type := orDefault (bodyProp (body req) "type") (JStr "jpeg");
     so_quality := orDefault (bodyProp (body req) "quality") (num 60) |}.

(** The viewport of a screenshot request, 1280 by 1000 by default
    (lines 377-378). *)
Definition captureWidth (req : Request) : json :=
  orDefault (bodyProp (body req) "width") (num 1280).
Definition captureHeight (req : Request) : json :=
  orDefault (bodyProp (body req) "height") (num 1000).

(** What a 200 answer of the screenshot route says, against the events of
    its request: the request ends with a navigation that resolved to a
    response with [ok()], the title, the capture and the closing of the
    browser, on one page whose viewport was set to the requested size. *)
Definition screenshotShape (req : Request) (t : Trace)
    (resp : HttpResponse AnalysisResult) : Prop :=
  exists url page nav wait title buf browser closed pre,
    t = pre ++ [Ev (Goto page url wait 60000) (inl (Some nav));
                Ev (Title page) (inl title);
                Ev (Screenshot page (captureOptions req)) (inl buf);
                Ev (BrowserClose browser) closed]
    /\ In (Ev (SetViewportSize page (captureWidth req) (captureHeight req)) (inl tt)) pre
    /\ bodyProp (body req) "url" = Some url
    /\ ok nav = true
    /\ http_body resp =
       ScreenshotBody title (base64 buf)
         {| sm_type := so_type (captureOptions req);
            sm_quality := so_quality (captureOptions req);
            sm_fullPage := so_fullPage (captureOptions req);
            sm_width := Some (captureWidth req);
            sm_height := Some (captureHeight req);
            sm_status := status nav |}.

(** What a 200 answer of the analyze route says, against the events of its
    request. *)
Definition analysisShape (req : Request) (t : Trace)
    (resp : HttpResponse AnalysisResult) : Prop :=
  exists url page nav wait fontsDoc imagesDoc browser closed pre,
    t = pre ++ [Ev (Goto page url wait 60000) (inl (Some nav));
                Ev (Evaluate page) (inl fontsDoc);
                Ev (Evaluate page) (inl imagesDoc);
                Ev (BrowserClose browser) closed]
    /\ optProp (bodyProp (body req) "target") "value" = Some url
    /\ ok nav = true
    /\ http_body resp =
       AnalysisBody (analysisResult url nav (fontFamilies fontsDoc) (distorted imagesDoc)).

Definition answerShape (req : Request) (t : Trace)
    (resp : HttpResponse AnalysisResult) : Prop :=
  http_status resp = 200 ->
  match route req with
  | POST_screenshot => screenshotShape req t resp
  | POST_analyze => analysisShape req t resp
  | _ => True
  end.

(** The screenshot request against an engine that resolves every call. *)
Definition captureRun : Completion (HttpResponse AnalysisResult) * Trace * list Step :=
  run scripted (Rev3.app screenshotReq) [].

Definition captureResponse : HttpResponse AnalysisResult :=
  match completion captureRun with
  | Returned resp => resp
  | Thrown _ => status_json 0 NotFoundBody
  end.

(** ** The middle revision against the last one *)

(** The id, the title and the severity of a finding, in each revision. *)
Definition headline (f : Finding) : string * string * string :=
  (id f, title f, severity f).
Definition headline2 (f : Rev2.Finding2) : string * string * string :=
  (Rev2.f2_id f, Rev2.f2_title f, Rev2.f2_severity f).

(** The image a finding reports, in each revision: its source and its
    [deltaPct], which the middle revision gives as the text of [toFixed(1)]
    and the last one as the number that text reads as.  The font finding
    reports no image. *)
Definition reported (f : Finding) : option (string * JsNum.num) :=
  match evidence f with
  | ImageEvidence d => Some (d_src d, d_deltaPct d)
  | FontEvidence _ _ _ => None
  end.
Definition reported2 (f : Rev2.Finding2) : option (string * JsNum.num) :=
  match Rev2.f2_evidence f with
  | Some d =>
      Some (Rev2.d2_src d,
            JsNum.Number_toFixed (Rev2.fixed_digits (Rev2.d2_deltaPct d))
              (Rev2.fixed_of (Rev2.d2_deltaPct d)))
  | None => None
  end.

(** What a 200 answer of the analyze route of the middle revision says: it
    is built from the two documents the scripts saw after a navigation that
    resolved to a response with [ok()]; its score, its findings read by
    [headline2] and [reported2], and its [meta] are those of the result the
    last revision builds from the same documents. *)
Definition analysisShape2 (req : Request) (t : Trace)
    (resp : HttpResponse Rev2.AnalysisResult2) : Prop :=
  exists url page nav wait fontsDoc imagesDoc browser closed pre r,
    t = pre ++ [Ev (Goto page url wait 60000) (inl (Some nav));
                Ev (Evaluate page) (inl fontsDoc);
                Ev (Evaluate page) (inl imagesDoc);
                Ev (BrowserClose browser) closed]
    /\ optProp (bodyProp (body req) "target") "value" = Some url
    /\ ok nav = true
    /\ http_body resp = AnalysisBody r
    /\ let last := analysisResult url nav (fontFamilies fontsDoc) (distorted imagesDoc) in
       Rev2.r2_score r = r_score last
       /\ map headline2 (Rev2.r2_findings r) = map headline (findings last)
       /\ map reported2 (Rev2.r2_findings r) = map reported (findings last)
       /\ Rev2.m2_url (Rev2.r2_meta r) = m_url (meta last)
       /\ Rev2.m2_fontsDetected (Rev2.r2_meta r) = fontsDetected (meta last)
       /\ Rev2.m2_distortedImages (Rev2.r2_meta r) = distortedImages (meta last).

Definition answerShape2 (req : Request) (t : Trace)
    (resp : HttpResponse Rev2.AnalysisResult2) : Prop :=
  http_status resp = 200 ->
  match route req with
  | POST_analyze => analysisShape2 req t resp
  | _ => True
  end.

(** The analysis of the audited page by the middle revision, no secret
    being set: the session of that revision takes four calls. *)
Definition auditScript2 : list Step :=
  [Resolve; Resolve; Resolve; Resolve; Resolve; Render auditDoc; Render auditDoc].

Definition auditRun2 : Completion (HttpResponse Rev2.AnalysisResult2) * Trace * list Step :=
  run scripted (Rev2.app None analyzeReq) auditScript2.

Definition auditResponse2 : HttpResponse Rev2.AnalysisResult2 :=
  match completion auditRun2 with
  | Returned resp => resp
  | Thrown _ => status_json 0 NotFoundBody
  end.

(** ** Requests against an engine that cooperates *)

(** An outcome of a cooperating engine: the call resolves, and a navigation
    resolves to a response with [ok()]. *)
Definition cooperative (X : Type) (c : EngineCall X) (o : Outcome X) : Prop :=
  match o with
  | inl x =>
      match c in EngineCall X return X -> Prop with
      | Goto _ _ _ _ =>
          fun r => match r with
                   | Some resp => ok resp = true
                   | None => False
                   end
      | _ => fun _ => True
      end x
  | inr _ => False
  end.

(** [Q] holds on every path of [p] whose outcomes all satisfy [good]. *)
Fixpoint ensuresWhen {A : Type}
    (good : forall X : Type, EngineCall X -> Outcome X -> Prop)
    (Q : Trace -> Completion A -> Prop) (hist : Trace) (p : Prog A) : Prop :=
  match p with
  | Ret a => Q hist (Returned a)
  | Throw e => Q hist (Thrown e)
  | Call c k => forall o, good _ c o -> ensuresWhen good Q (hist ++ [Ev c o]) (k o)
  end.

(** The status a request is answered with when nothing fails: 204 for an
    OPTIONS request, the status of the error for a body that is rejected,
    400 without the required input, 404 when no route matches, 200
    otherwise. *)
Definition expectedStatus (req : Request) : Z :=
  match route req with
  | GET_health => 200
  | POST_screenshot => if truthy (bodyProp (body req) "url") then 200 else 400
  | POST_analyze =>
      if truthy (optProp (bodyProp (body req) "target") "value") then 200 else 400
  | Unrouted => 404
  | OPTIONS_any => 204
  | Unparsed f => failureStatus f
  end.

(** The engine that resolves every call to its default answer. *)
Definition resolving (X : Type) (c : EngineCall X) (w : unit) : Outcome X * unit :=
  (inl (defaultAnswer c), w).

(** * Properties *)

(** ** Running composed programs *)

Section RunLaws.

Variable world : Type.
Variable respond : forall X : Type, EngineCall X -> world -> Outcome X * world.

Local Abbreviation run := (run respond).

Lemma run_bind {A B : Type} (p : Prog A) (f : A -> Prog B) (w : world) :
  run (bind p f) w =
  let '(r, t, w1) := run p w in
  match r with
  | Returned a => let '(r2, t2, w2) := run (f a) w1 in (r2, t ++ t2, w2)
  | Thrown e => (Thrown e, t, w1)
  end.
Proof.
  revert w; induction p as [a | e | X c k IH]; intros w; simpl.
  - destruct (run (f a) w) as [[r2 t2] w2]; reflexivity.
  - reflexivity.
  - destruct (respond X c w) as [o w1].
    rewrite IH.
    destruct (run (k o) w1) as [[r t] w2].
    destruct r as [a | e]; [ | reflexivity ].
    destruct (run (f a) w2) as [[r2 t2] w3]; reflexivity.
Qed.

Lemma run_tryCatch {A : Type} (p : Prog A) (h : JsError -> Prog A) (w : world) :
  run (tryCatch p h) w =
  let '(r, t, w1) := run p w in
  match r with
  | Returned a => (Returned a, t, w1)
  | Thrown e => let '(r2, t2, w2) := run (h e) w1 in (r2, t ++ t2, w2)
  end.
Proof.
  revert w; induction p as [a | e | X c k IH]; intros w; simpl.
  - reflexivity.
  - destruct (run (h e) w) as [[r2 t2] w2]; reflexivity.
  - destruct (respond X c w) as [o w1].
    rewrite IH.
    destruct (run (k o) w1) as [[r t] w2].
    destruct r as [a | e]; [ reflexivity | ].
    destruct (run (h e) w2) as [[r2 t2] w3]; reflexivity.
Qed.

Lemma run_tryFinally {A : Type} (p : Prog A) (fin : Prog unit) (w : world) :
  run (tryFinally p fin) w =
  let '(r, t, w1) := run p w in
  let '(rf, tf, w2) := run fin w1 in
  (match rf with Returned _ => r | Thrown e => Thrown e end, t ++ tf, w2).
Proof.
  revert w; induction p as [a | e | X c k IH]; intros w; simpl.
  - rewrite run_bind.
    destruct (run fin w) as [[rf tf] w2]; destruct rf; simpl; rewrite ?app_nil_r; reflexivity.
  - rewrite run_bind.
    destruct (run fin w) as [[rf tf] w2]; destruct rf; simpl; rewrite ?app_nil_r; reflexivity.
  - destruct (respond X c w) as [o w1].
    rewrite IH.
    destruct (run (k o) w1) as [[r t] w2].
    destruct (run fin w2) as [[rf tf] w3]; reflexivity.
Qed.

Lemma run_await {X : Type} (c : EngineCall X) (w : world) :
  run (await c) w =
  let '(o, w1) := respond X c w in
  (match o with inl x => Returned x | inr e => Thrown e end, [Ev c o], w1).
Proof.
  unfold await; simpl.
  destruct (respond X c w) as [o w1]; destruct o; reflexivity.
Qed.

(** A program that only makes page calls leaves only page events. *)
Lemma pageOnly_trace {A : Type} (p : Prog A) (w : world) :
  pageOnly p -> forallb evOnPage (trace (run p w)) = true.
Proof.
  revert w; induction p as [a | e | X c k IH]; intros w Hp; simpl; try reflexivity.
  destruct Hp as [Hc Hk].
  destruct (respond X c w) as [o w1].
  specialize (IH o w1 (Hk o)).
  destruct (run (k o) w1) as [[r t] w2]; unfold trace in *; simpl in *.
  now rewrite Hc, IH.
Qed.

Lemma pageOnly_bind {A B : Type} (p : Prog A) (f : A -> Prog B) :
  pageOnly p -> (forall a, pageOnly (f a)) -> pageOnly (bind p f).
Proof.
  induction p as [a | e | X c k IH]; simpl; intros Hp Hf; auto.
  destruct Hp as [Hc Hk]; split; auto.
Qed.

Lemma pageOnly_tryCatch {A : Type} (p : Prog A) (h : JsError -> Prog A) :
  pageOnly p -> (forall e, pageOnly (h e)) -> pageOnly (tryCatch p h).
Proof.
  induction p as [a | e | X c k IH]; simpl; intros Hp Hh; auto.
  destruct Hp as [Hc Hk]; split; auto.
Qed.

Lemma pageOnly_await {X : Type} (c : EngineCall X) :
  onPage c = true -> pageOnly (await c).
Proof.
  intros Hc; simpl; split; [ exact Hc | intros [x | e]; exact I ].
Qed.

End RunLaws.

(** ** The navigator *)

Section Navigator.

Variable world : Type.
Variable respond : forall X : Type, EngineCall X -> world -> Outcome X * world.

Local Abbreviation run := (run respond).

(** The run of [safeGoto], whatever the engine answers. *)
Lemma run_safeGoto (page : Page) (url : json) (w : world) :
  run (Rev3.safeGoto page url) w =
  let '(o1, w1) := respond _ (attempt1 page url) w in
  match loaded o1 with
  | Some r1 => (Returned r1, [Ev (attempt1 page url) o1], w1)
  | None =>
      let '(o2, w2) := respond _ (attempt2 page url) w1 in
      (match o2 with
       | inr e => Thrown e
       | inl r2 =>
           match loaded o2 with
           | Some r => Returned r
           | None => Thrown (Rev3.loadFailure r2)
           end
       end,
       [Ev (attempt1 page url) o1; Ev (attempt2 page url) o2], w2)
  end.
Proof.
  unfold Rev3.safeGoto, attempt1, attempt2; simpl.
  destruct (respond _ (Goto page url networkidle 60000) w) as [o1 w1].
  destruct o1 as [[r1 | ] | e1]; simpl;
    [ destruct (ok r1); simpl; [ reflexivity | ] | | ];
    (destruct (respond _ (Goto page url domcontentloaded 60000) w1) as [o2 w2];
     destruct o2 as [[r2 | ] | e2]; simpl; try reflexivity;
     destruct (ok r2); reflexivity).
Qed.

End Navigator.

(** ** Sessions *)

Lemma count_app (p : Event -> bool) (t1 t2 : Trace) :
  count p (t1 ++ t2) = (count p t1 + count p t2)%nat.
Proof. unfold count; now rewrite filter_app, length_app. Qed.

Lemma count_none (p : Event -> bool) (t : Trace) :
  forallb evOnPage t = true ->
  (forall ev, evOnPage ev = true -> p ev = false) ->
  count p t = 0%nat.
Proof.
  intros Ht Hp; unfold count.
  induction t as [ | ev t IH]; simpl in *; [ reflexivity | ].
  apply andb_true_iff in Ht as [Hev Ht].
  now rewrite (Hp ev Hev), IH.
Qed.

Lemma onPage_not_acquire (ev : Event) : evOnPage ev = true -> isAcquire ev = false.
Proof. destruct ev as [X c o]; destruct c; simpl; congruence. Qed.

Lemma onPage_not_release (ev : Event) : evOnPage ev = true -> isRelease ev = false.
Proof. destruct ev as [X c o]; destruct c; simpl; congruence. Qed.

Ltac page_only :=
  repeat first
    [ exact I
    | apply pageOnly_bind
    | apply pageOnly_tryCatch
    | apply pageOnly_await; reflexivity
    | intro
    | match goal with
      | |- pageOnly (match ?x with _ => _ end) => destruct x
      end
    | progress simpl ].

Lemma pageOnly_safeGoto (page : Page) (url : json) : pageOnly (Rev3.safeGoto page url).
Proof. unfold Rev3.safeGoto; page_only. Qed.

Lemma pageOnly_screenshotPass (u f t q wd ht : json) (page : Page) :
  pageOnly (Rev3.screenshotPass u f t q wd ht page).
Proof. unfold Rev3.screenshotPass; page_only; apply pageOnly_safeGoto. Qed.

Lemma pageOnly_analyzePass (url : json) (page : Page) :
  pageOnly (Rev3.analyzePass url page).
Proof. unfold Rev3.analyzePass; page_only; apply pageOnly_safeGoto. Qed.

Lemma pageOnly_fallbackPass (url : json) (page : Page) :
  pageOnly (Rev3.fallbackPass url page).
Proof. unfold Rev3.fallbackPass; page_only; apply pageOnly_safeGoto. Qed.

Section Sessions.

Variable world : Type.
Variable respond : forall X : Type, EngineCall X -> world -> Outcome X * world.

Local Abbreviation run := (run respond).

(** [withPage] is the acquisition, then the function, then the close. *)
Lemma run_withPage {A : Type} (fn : Page -> Prog A) (width height : Z) (w : world) :
  run (Rev3.withPage fn width height) w =
  let '(r0, t0, w0) := run (Rev3.acquire width height) w in
  match r0 with
  | Thrown e => (Thrown e, t0, w0)
  | Returned (browser, page) =>
      let '(r, t1, w1) := run (fn page) w0 in
      let '(oc, w2) := respond _ (BrowserClose browser) w1 in
      (match oc with inl _ => r | inr e => Thrown e end,
       t0 ++ t1 ++ [Ev (BrowserClose browser) oc], w2)
  end.
Proof.
  unfold Rev3.withPage, Rev3.acquire; simpl.
  destruct (respond _ (Launch launchOptions) w) as [[browser | e] w1]; simpl;
    [ | reflexivity ].
  match goal with |- context [respond _ (NewContext browser ?o) w1] =>
    destruct (respond _ (NewContext browser o) w1) as [[context | e] w2] end; simpl;
    [ | reflexivity ].
  destruct (respond _ (AddInitScript context HideWebdriver) w2) as [[[] | e] w3]; simpl;
    [ | reflexivity ].
  match goal with |- context [respond _ (SetExtraHTTPHeaders context ?h) w3] =>
    destruct (respond _ (SetExtraHTTPHeaders context h) w3) as [[[] | e] w4] end; simpl;
    [ | reflexivity ].
  destruct (respond _ (NewPage context) w4) as [[page | e] w5]; simpl;
    [ | reflexivity ].
  rewrite run_tryFinally.
  destruct (run (fn page) w5) as [[r t1] w6].
  rewrite run_await.
  destruct (respond _ (BrowserClose browser) w6) as [[[] | e] w7]; reflexivity.
Qed.

(** The acquisition never closes a browser, and acquires a session exactly
    when it returns. *)
Lemma acquire_counts (width height : Z) (w : world) :
  let '(r0, t0, _) := run (Rev3.acquire width height) w in
  count isRelease t0 = 0%nat /\
  count isAcquire t0 = match r0 with Returned _ => 1%nat | Thrown _ => 0%nat end.
Proof.
  unfold Rev3.acquire; simpl.
  destruct (respond _ (Launch launchOptions) w) as [[browser | e] w1]; simpl;
    [ | now split ].
  match goal with |- context [respond _ (NewContext browser ?o) w1] =>
    destruct (respond _ (NewContext browser o) w1) as [[context | e] w2] end; simpl;
    [ | now split ].
  destruct (respond _ (AddInitScript context HideWebdriver) w2) as [[[] | e] w3]; simpl;
    [ | now split ].
  match goal with |- context [respond _ (SetExtraHTTPHeaders context ?h) w3] =>
    destruct (respond _ (SetExtraHTTPHeaders context h) w3) as [[[] | e] w4] end; simpl;
    [ | now split ].
  destruct (respond _ (NewPage context) w4) as [[page | e] w5]; simpl; now split.
Qed.

(** Over a function that only uses its page, the trace of [withPage] has as
    many acquired sessions as closed browsers. *)
Lemma withPage_paired {A : Type} (fn : Page -> Prog A) (width height : Z) (w : world) :
  (forall page, pageOnly (fn page)) ->
  count isAcquire (trace (run (Rev3.withPage fn width height) w)) =
  count isRelease (trace (run (Rev3.withPage fn width height) w)).
Proof.
  intros Hfn.
  rewrite run_withPage.
  pose proof (acquire_counts width height w) as Hacq.
  destruct (run (Rev3.acquire width height) w) as [[r0 t0] w0].
  destruct Hacq as [Hrel Hnew].
  destruct r0 as [[browser page] | e]; unfold trace; simpl.
  - pose proof (pageOnly_trace _ respond (fn page) w0 (Hfn page)) as Hpage.
    destruct (run (fn page) w0) as [[r t1] w1]; unfold trace in Hpage; simpl in Hpage.
    destruct (respond _ (BrowserClose browser) w1) as [oc w2]; simpl.
    rewrite !count_app, Hrel, Hnew.
    rewrite (count_none isAcquire t1 Hpage onPage_not_acquire).
    rewrite (count_none isRelease t1 Hpage onPage_not_release).
    reflexivity.
  - now rewrite Hrel, Hnew.
Qed.

End Sessions.

(** ** The handlers of the last revision *)

Section Handlers.

Variable world : Type.
Variable respond : forall X : Type, EngineCall X -> world -> Outcome X * world.

Local Abbreviation run := (run respond).

Lemma run_analyzePass (url : json) (page : Page) (w : world) :
  run (Rev3.analyzePass url page) w =
  let '(r, t, w1) := run (Rev3.safeGoto page url) w in
  match r with
  | Thrown e => (Thrown e, t, w1)
  | Returned resp =>
      let '(o1, w2) := respond _ (Evaluate page) w1 in
      match o1 with
      | inr e => (Thrown e, t ++ [Ev (Evaluate page) o1], w2)
      | inl fontsDoc =>
          let '(o2, w3) := respond _ (Evaluate page) w2 in
          (match o2 with
           | inr e => Thrown e
           | inl imagesDoc =>
               Returned (analysisResult url resp (fontFamilies fontsDoc)
                           (distorted imagesDoc))
           end,
           t ++ [Ev (Evaluate page) o1; Ev (Evaluate page) o2], w3)
      end
  end.
Proof.
  unfold Rev3.analyzePass.
  rewrite run_bind.
  destruct (run (Rev3.safeGoto page url) w) as [[r t] w1].
  destruct r as [resp | e]; [ | reflexivity ].
  simpl.
  destruct (respond _ (Evaluate page) w1) as [[fontsDoc | e] w2]; simpl;
    [ | reflexivity ].
  destruct (respond _ (Evaluate page) w2) as [[imagesDoc | e] w3]; reflexivity.
Qed.

Lemma run_fallbackPass (url : json) (page : Page) (w : world) :
  run (Rev3.fallbackPass url page) w =
  let '(r, t, w1) := run (Rev3.safeGoto page url) w in
  match r with
  | Thrown e => (Thrown e, t, w1)
  | Returned _ =>
      let '(o, w2) := respond _ (Screenshot page lowFidelity) w1 in
      (match o with inl buf => Returned (base64 buf) | inr e => Thrown e end,
       t ++ [Ev (Screenshot page lowFidelity) o], w2)
  end.
Proof.
  unfold Rev3.fallbackPass.
  rewrite run_bind.
  destruct (run (Rev3.safeGoto page url) w) as [[r t] w1].
  destruct r as [resp | e]; [ | reflexivity ].
  simpl. fold lowFidelity.
  destruct (respond _ (Screenshot page lowFidelity) w1) as [[buf | e] w2]; reflexivity.
Qed.

(** The analyze handler past its validation: the analysis pass in one
    session and, when that throws, the fallback pass in another one. *)
Lemma run_analyze (req : Request) (url : json) (w : world) :
  optProp (bodyProp (body req) "target") "value" = Some url ->
  truthy (Some url) = true ->
  run (Rev3.analyze req) w =
  let '(r1, t1, w1) := run (Rev3.withPage (Rev3.analyzePass url) 1366 768) w in
  match r1 with
  | Returned out => (Returned (json_ (AnalysisBody out)), t1, w1)
  | Thrown e =>
      let '(r2, t2, w2) := run (Rev3.withPage (Rev3.fallbackPass url) 1366 768) w1 in
      (Returned (blocked e r2), t1 ++ t2, w2)
  end.
Proof.
  intros Hvalue Htruthy.
  unfold Rev3.analyze.
  rewrite Hvalue, Htruthy.
  rewrite run_tryCatch, run_bind.
  destruct (run (Rev3.withPage (Rev3.analyzePass url) 1366 768) w) as [[r1 t1] w1].
  destruct r1 as [out | e].
  - simpl; now rewrite app_nil_r.
  - cbv beta iota; rewrite run_tryCatch, run_bind.
    destruct (run (Rev3.withPage (Rev3.fallbackPass url) 1366 768) w1) as [[r2 t2] w2].
    destruct r2 as [shot | e2]; simpl; now rewrite ?app_nil_r.
Qed.

Lemma run_analyze_invalid (req : Request) (w : world) :
  truthy (optProp (bodyProp (body req) "target") "value") = false ->
  run (Rev3.analyze req) w = (Returned (bad_request "target.value requerido"), [], w).
Proof.
  intros Hfalsy.
  unfold Rev3.analyze.
  destruct (optProp (bodyProp (body req) "target") "value") as [url | ];
    [ rewrite Hfalsy | ]; reflexivity.
Qed.

Lemma run_screenshot (req : Request) (url : json) (w : world) :
  bodyProp (body req) "url" = Some url ->
  truthy (Some url) = true ->
  run (Rev3.screenshot req) w =
  let '(r, t, w1) :=
    run (Rev3.withPage
           (Rev3.screenshotPass url
              (orDefault (bodyProp (body req) "fullPage") (JBool false))
              (orDefault (bodyProp (body req) "type") (JStr "jpeg"))
              (orDefault (bodyProp (body req) "quality") (num 60))
              (orDefault (bodyProp (body req) "width") (num 1280))
              (orDefault (bodyProp (body req) "height") (num 1000)))
           1366 768) w in
  (Returned (screenshotFailed r), t, w1).
Proof.
  intros Hurl Htruthy.
  unfold Rev3.screenshot.
  rewrite Hurl, Htruthy.
  rewrite run_tryCatch, run_bind.
  match goal with |- context [run (Rev3.withPage ?f 1366 768) w] =>
    destruct (run (Rev3.withPage f 1366 768) w) as [[r t] w1] end.
  destruct r as [b | e]; simpl; now rewrite app_nil_r.
Qed.


End Handlers.

(** ** Claims on the navigator, the sessions and the error paths *)

Section Claims.

Variable world : Type.
Variable respond : forall X : Type, EngineCall X -> world -> Outcome X * world.

Local Abbreviation run := (run respond).

(** C2, as amended.  [safeGoto] first calls [page.goto] waiting for network
    idleness with a timeout of 60000 ms.  When that attempt resolves to a
    response with [ok()], it is returned and nothing else is called.
    Otherwise (the attempt threw, resolved to no response, or to a response
    that is not ok) exactly one more call is made, waiting for
    [domcontentloaded] with the same timeout: a response with [ok()] is
    returned; no response or a response that is not ok raises the error
    whose message carries that response's status, or the word for unknown
    when there is none; and an error thrown by the second call propagates
    as it is.  The earlier revision behaves the same way, with an error
    message that carries no status. *)
Theorem safeGoto_two_tier (page : Page) (url : json) (w : world) :
  let '(o1, w1) := respond _ (attempt1 page url) w in
  let '(o2, w2) := respond _ (attempt2 page url) w1 in
  (match loaded o1 with
   | Some r1 =>
       run (Rev3.safeGoto page url) w = (Returned r1, [Ev (attempt1 page url) o1], w1)
   | None =>
       run (Rev3.safeGoto page url) w =
       (match o2 with
        | inr e => Thrown e
        | inl None => Thrown (Rev3.loadFailure None)
        | inl (Some r) => if ok r then Returned r else Thrown (Rev3.loadFailure (Some r))
        end,
        [Ev (attempt1 page url) o1; Ev (attempt2 page url) o2], w2)
   end)
  /\ (forall r, err_message (Rev3.loadFailure (Some r)) =
                ("No se pudo cargar la URL (status=" ++ decimal (status r) ++ ")")%string)
  /\ err_message (Rev3.loadFailure None) = "No se pudo cargar la URL (status=desconocido)"
  /\ (match loaded o1 with
      | Some r1 =>
          run (Rev2.safeGoto page url) w = (Returned r1, [Ev (attempt1 page url) o1], w1)
      | None =>
          run (Rev2.safeGoto page url) w =
          (match o2 with
           | inr e => Thrown e
           | inl r2 =>
               match loaded o2 with
               | Some r => Returned r
               | None => Thrown (Error "No se pudo cargar la URL")
               end
           end,
           [Ev (attempt1 page url) o1; Ev (attempt2 page url) o2], w2)
      end).
Proof.
  pose proof (run_safeGoto _ respond page url w) as H3.
  assert (H2 : run (Rev2.safeGoto page url) w =
               let '(o1, w1) := respond _ (attempt1 page url) w in
               match loaded o1 with
               | Some r1 => (Returned r1, [Ev (attempt1 page url) o1], w1)
               | None =>
                   let '(o2, w2) := respond _ (attempt2 page url) w1 in
                   (match o2 with
                    | inr e => Thrown e
                    | inl r2 =>
                        match loaded o2 with
                        | Some r => Returned r
                        | None => Thrown (Error "No se pudo cargar la URL")
                        end
                    end,
                    [Ev (attempt1 page url) o1; Ev (attempt2 page url) o2], w2)
               end).
  { unfold Rev2.safeGoto, attempt1, attempt2; simpl.
    destruct (respond _ (Goto page url networkidle 60000) w) as [o1 w1].
    destruct o1 as [[r1 | ] | e1]; simpl;
      [ destruct (ok r1); simpl; [ reflexivity | ] | | ];
      (destruct (respond _ (Goto page url domcontentloaded 60000) w1) as [o2 w2];
       destruct o2 as [[r2 | ] | e2]; simpl; try reflexivity;
       destruct (ok r2); reflexivity). }
  destruct (respond _ (attempt1 page url) w) as [o1 w1].
  destruct (respond _ (attempt2 page url) w1) as [o2 w2].
  repeat split; try reflexivity.
  - destruct (loaded o1); [ exact H3 | ].
    rewrite H3. destruct o2 as [[r | ] | e]; simpl; try reflexivity.
    destruct (ok r); reflexivity.
  - destruct (loaded o1); exact H2.
Qed.

End Claims.

(** C9, at a failing input.  [withPage] launches the browser and creates
    its context and its page before the [try] block (lines 307-335), so that
    the [finally] block covers the wrapped function only.  When the creation
    of the context is rejected, the browser that was launched is left
    running: the screenshot request is answered 500 after one launch and no
    call to [browser.close()], and the analyze request goes on to its
    fallback, with two browsers launched and one closed when it is
    answered. *)
Theorem launched_browser_left_open :
  run scripted (Rev3.app screenshotReq) noContextScript =
  (Returned {| http_status := 500;
               http_body := ErrorBody "screenshot_failed"
                              "browser.newContext: Target closed" |},
   [Ev (Launch launchOptions) (inl 1%nat);
    Ev (NewContext 1%nat
          {| viewport := (1366, 768);
             userAgent := userAgentString;
             locale := "es-CL";
             deviceScaleFactor := Some 1;
             hasTouch := Some false |})
       (inr (Error "browser.newContext: Target closed"))],
   [])
  /\ (let t := trace (run scripted (Rev3.app analyzeReq) noContextScript) in
      count isLaunched t = 2%nat /\ count isRelease t = 1%nat).
Proof. split; [ reflexivity | split; reflexivity ]. Qed.

Lemma base64_nonempty (buf : Buffer) : buf <> [] -> base64 buf <> "".
Proof.
  destruct buf as [ | a [ | b [ | c rest]]]; simpl; intros H; try discriminate.
  now contradiction H.
Qed.

Section ErrorPaths.

Variable world : Type.
Variable respond : forall X : Type, EngineCall X -> world -> Outcome X * world.

Local Abbreviation run := (run respond).

Lemma acquire_starts_with_launch (width height : Z) (w : world) :
  exists o t, trace (run (Rev3.acquire width height) w) = Ev (Launch launchOptions) o :: t.
Proof.
  unfold Rev3.acquire; simpl.
  destruct (respond _ (Launch launchOptions) w) as [o w1].
  match goal with |- context [run ?p w1] =>
    destruct (run p w1) as [[r t] w2] end.
  exists o, t; reflexivity.
Qed.

Lemma safeGoto_trace_has_attempt1 (page : Page) (url : json) (w : world) :
  exists o, In (Ev (attempt1 page url) o) (trace (run (Rev3.safeGoto page url) w)).
Proof.
  rewrite run_safeGoto.
  destruct (respond _ (attempt1 page url) w) as [o1 w1].
  exists o1.
  destruct (loaded o1); [ now left | ].
  destruct (respond _ (attempt2 page url) w1) as [o2 w2]; now left.
Qed.

(** What a fallback session that returns has done. *)
Lemma fallback_returned (url : json) (w : world) (b64 : string) (t : Trace) (w' : world) :
  run (Rev3.withPage (Rev3.fallbackPass url) 1366 768) w = (Returned b64, t, w') ->
  exists page buf,
    In (Ev (Screenshot page lowFidelity) (inl buf)) t /\
    b64 = base64 buf /\
    (exists o, In (Ev (attempt1 page url) o) t).
Proof.
  rewrite run_withPage.
  destruct (run (Rev3.acquire 1366 768) w) as [[r0 t0] w0].
  destruct r0 as [[browser page] | e]; [ | discriminate ].
  rewrite run_fallbackPass.
  pose proof (safeGoto_trace_has_attempt1 page url w0) as [og Hg].
  destruct (run (Rev3.safeGoto page url) w0) as [[r tg] w1].
  unfold trace in Hg; simpl in Hg.
  destruct r as [resp | e].
  - destruct (respond _ (Screenshot page lowFidelity) w1) as [[buf | e] w2];
      destruct (respond _ (BrowserClose browser) w2) as [[[] | e'] w3];
      intros H; inversion H; subst; clear H.
    exists page, buf; repeat split.
    + rewrite !in_app_iff; right; left; right; now left.
    + exists og; rewrite !in_app_iff; right; left; now left.
  - destruct (respond _ (BrowserClose browser) w1) as [[[] | e'] w3];
      intros H; inversion H.
Qed.

Lemma withPage_starts_with_launch {A : Type} (fn : Page -> Prog A) (w : world) :
  exists o t, trace (run (Rev3.withPage fn 1366 768) w) = Ev (Launch launchOptions) o :: t.
Proof.
  rewrite run_withPage.
  pose proof (acquire_starts_with_launch 1366 768 w) as [o [t Ht]].
  destruct (run (Rev3.acquire 1366 768) w) as [[r0 t0] w0].
  unfold trace in Ht; simpl in Ht; subst t0.
  destruct r0 as [[browser page] | e].
  - destruct (run (fn page) w0) as [[r t1] w1].
    destruct (respond _ (BrowserClose browser) w1) as [oc w2].
    eexists; eexists; reflexivity.
  - exists o, t; reflexivity.
Qed.


(** The fallback session, event by event: the session is acquired, the
    navigation runs on its page, the capture is asked only when the
    navigation returned, and the browser is closed in both cases. *)
Lemma run_fallback_session (url : json) (w : world) :
  run (Rev3.withPage (Rev3.fallbackPass url) 1366 768) w =
  let '(r0, ta, wa) := run (Rev3.acquire 1366 768) w in
  match r0 with
  | Thrown e0 => (Thrown e0, ta, wa)
  | Returned (browser, page) =>
      let '(rn, tn, wn) := run (Rev3.safeGoto page url) wa in
      match rn with
      | Thrown en =>
          let '(oc, wc) := respond _ (BrowserClose browser) wn in
          (Thrown (match oc with inl _ => en | inr ec => ec end),
           ta ++ tn ++ [Ev (BrowserClose browser) oc], wc)
      | Returned _ =>
          let '(os, ws) := respond _ (Screenshot page lowFidelity) wn in
          let '(oc, wc) := respond _ (BrowserClose browser) ws in
          (match oc with
           | inr ec => Thrown ec
           | inl _ =>
               match os with
               | inl buf => Returned (base64 buf)
               | inr es => Thrown es
               end
           end,
           ta ++ tn ++ [Ev (Screenshot page lowFidelity) os;
                        Ev (BrowserClose browser) oc], wc)
      end
  end.
Proof.
  rewrite run_withPage.
  destruct (run (Rev3.acquire 1366 768) w) as [[r0 ta] wa].
  destruct r0 as [[browser page] | e0]; [ | reflexivity ].
  rewrite run_fallbackPass.
  destruct (run (Rev3.safeGoto page url) wa) as [[rn tn] wn].
  destruct rn as [nav | en].
  - destruct (respond _ (Screenshot page lowFidelity) wn) as [os ws].
    destruct (respond _ (BrowserClose browser) ws) as [oc wc].
    rewrite <- app_assoc.
    destruct oc as [[] | ec], os as [buf | es]; reflexivity.
  - destruct (respond _ (BrowserClose browser) wn) as [oc wc].
    destruct oc as [[] | ec]; reflexivity.
Qed.

(** The events of a fallback session that returns, in their order: the
    acquisition, the navigation, which starts with the first attempt on the
    page of the session, the capture, and the closing of the browser. *)
Lemma fallback_order (url : json) (w : world) (b64 : string) (t : Trace) (w' : world) :
  run (Rev3.withPage (Rev3.fallbackPass url) 1366 768) w = (Returned b64, t, w') ->
  exists browser page buf ta tn,
    t = ta ++ tn ++ [Ev (Screenshot page lowFidelity) (inl buf);
                     Ev (BrowserClose browser) (inl tt)]
    /\ b64 = base64 buf
    /\ (exists o tn', tn = Ev (attempt1 page url) o :: tn')
    /\ (exists wa, run (Rev3.acquire 1366 768) w = (Returned (browser, page), ta, wa)).
Proof.
  rewrite run_fallback_session.
  destruct (run (Rev3.acquire 1366 768) w) as [[r0 ta] wa].
  destruct r0 as [[browser page] | e0]; [ | discriminate ].
  pose proof (run_safeGoto _ respond page url wa) as Hg.
  destruct (run (Rev3.safeGoto page url) wa) as [[rn tn] wn].
  assert (Htn : exists o tn', tn = Ev (attempt1 page url) o :: tn').
  { destruct (respond _ (attempt1 page url) wa) as [o1 wa1].
    destruct (loaded o1).
    - inversion Hg; subst. now exists o1, [].
    - destruct (respond _ (attempt2 page url) wa1) as [o2 wa2].
      inversion Hg; subst. now exists o1, [Ev (attempt2 page url) o2]. }
  destruct rn as [nav | en].
  - destruct (respond _ (Screenshot page lowFidelity) wn) as [[buf | es] ws];
      destruct (respond _ (BrowserClose browser) ws) as [[[] | ec] wc];
      intros H; inversion H; subst; clear H.
    exists browser, page, buf, ta, tn.
    repeat split; [ exact Htn | now exists wa ].
  - destruct (respond _ (BrowserClose browser) wn) as [[[] | ec] wc];
      intros H; inversion H.
Qed.

(** C3.  When the analysis pass of a validated analyze request throws [e],
    the handler runs the fallback pass in a session of its own, whose first
    event is a browser launch.  That session goes as follows: the
    acquisition; once it returned, the navigation to the same URL on the
    new page; once that returned, the low-fidelity capture; then, whether
    the navigation and the capture succeeded or not, the closing of the
    browser.  When the fallback returns, the response is 502
    [analyze_blocked]; its message embeds the text of [e]; its
    [screenshot_base64] is the base64 text of the buffer that the capture
    resolved to, and is not empty when that buffer is not; and the events
    of the session are those of the acquisition, then those of the
    navigation, which start with the first attempt on the page of the
    session, then the capture and the closing.  When the fallback throws
    [e2], the response is 500 [analyze_failed] with the text of [e2]. *)
Theorem analyze_fallback (req : Request) (url : json) (w : world)
    (e : JsError) (t1 : Trace) (w1 : world) :
  route req = POST_analyze ->
  optProp (bodyProp (body req) "target") "value" = Some url ->
  truthy (Some url) = true ->
  run (Rev3.withPage (Rev3.analyzePass url) 1366 768) w = (Thrown e, t1, w1) ->
  exists shot t2 w2 resp,
    run (Rev3.withPage (Rev3.fallbackPass url) 1366 768) w1 = (shot, t2, w2) /\
    run (Rev3.app req) w = (Returned resp, t1 ++ t2, w2) /\
    (exists o t, t2 = Ev (Launch launchOptions) o :: t) /\
    (shot, t2, w2) =
      (let '(r0, ta, wa) := run (Rev3.acquire 1366 768) w1 in
       match r0 with
       | Thrown e0 => (Thrown e0, ta, wa)
       | Returned (browser, page) =>
           let '(rn, tn, wn) := run (Rev3.safeGoto page url) wa in
           match rn with
           | Thrown en =>
               let '(oc, wc) := respond _ (BrowserClose browser) wn in
               (Thrown (match oc with inl _ => en | inr ec => ec end),
                ta ++ tn ++ [Ev (BrowserClose browser) oc], wc)
           | Returned _ =>
               let '(os, ws) := respond _ (Screenshot page lowFidelity) wn in
               let '(oc, wc) := respond _ (BrowserClose browser) ws in
               (match oc with
                | inr ec => Thrown ec
                | inl _ =>
                    match os with
                    | inl buf => Returned (base64 buf)
                    | inr es => Thrown es
                    end
                end,
                ta ++ tn ++ [Ev (Screenshot page lowFidelity) os;
                             Ev (BrowserClose browser) oc], wc)
           end
       end) /\
    match shot with
    | Returned b64 =>
        resp = {| http_status := 502;
                  http_body :=
                    BlockedBody "analyze_blocked"
                      ("La página bloqueó el análisis DOM (" ++ errorText e
                       ++ "). Se adjunta mini-captura para auditoría visual.")%string
                      b64 |}
        /\ exists page buf,
             In (Ev (Screenshot page lowFidelity) (inl buf)) t2
             /\ b64 = base64 buf
             /\ (buf <> [] -> b64 <> "")
             /\ (exists o, In (Ev (attempt1 page url) o) t2)
             /\ exists browser ta tn,
                  t2 = ta ++ tn ++ [Ev (Screenshot page lowFidelity) (inl buf);
                                    Ev (BrowserClose browser) (inl tt)]
                  /\ (exists o tn', tn = Ev (attempt1 page url) o :: tn')
                  /\ (exists wa,
                        run (Rev3.acquire 1366 768) w1
                        = (Returned (browser, page), ta, wa))
    | Thrown e2 =>
        resp = {| http_status := 500;
                  http_body := ErrorBody "analyze_failed" (errorText e2) |}
    end.
Proof.
  intros Hroute Hvalue Htruthy Hpass.
  pose proof (withPage_starts_with_launch (Rev3.fallbackPass url) w1) as Hlaunch.
  pose proof (run_fallback_session url w1) as Hexact.
  pose proof (fallback_order url w1) as Hord.
  unfold Rev3.app, cors, express_json, logRequest, Rev3.routes; rewrite Hroute.
  rewrite (run_analyze _ respond req url w Hvalue Htruthy), Hpass.
  destruct (run (Rev3.withPage (Rev3.fallbackPass url) 1366 768) w1) as [[shot t2] w2].
  exists shot, t2, w2, (blocked e shot).
  split; [ reflexivity | ].
  split; [ reflexivity | ].
  split; [ exact Hlaunch | ].
  split; [ exact Hexact | ].
  destruct shot as [b64 | e2]; [ | reflexivity ].
  split; [ reflexivity | ].
  destruct (Hord b64 t2 w2 eq_refl)
    as (browser & page & buf & ta & tn & Ht2 & Hb64 & (o & tn' & Htn) & Hacq).
  exists page, buf.
  split; [ rewrite Ht2, !in_app_iff; right; right; now left | ].
  split; [ exact Hb64 | ].
  split; [ subst b64; apply base64_nonempty | ].
  split; [ exists o; rewrite Ht2, Htn, !in_app_iff; right; left; now left | ].
  exists browser, ta, tn.
  split; [ exact Ht2 | ].
  split; [ now exists o, tn' | exact Hacq ].
Qed.

End ErrorPaths.

(** C2, the claim as stated fails: when the engine rejects both navigation
    attempts, [safeGoto] ends with the engine's own error, which is not the
    load failure for any status. *)
Lemma second_failure_is_load_failure_fails : ~ second_failure_is_load_failure.
Proof.
  intros H.
  specialize (H (list Step) scripted 3%nat siteUrl unreachableScript).
  simpl in H.
  destruct (H eq_refl eq_refl) as [r2 Hr2].
  destruct r2 as [r | ]; discriminate Hr2.
Qed.


(** C3, on the request whose analysis pass is answered 403 and whose
    fallback pass goes through: the answer is 502 [analyze_blocked] with the
    message of the load failure and the base64 text of the four bytes of
    the capture, after the events of the analysis session and the eight
    events of the fallback session. *)
Lemma analyze_fallback_witness :
  run scripted (Rev3.app analyzeReq) blockedScript =
  (Returned
     {| http_status := 502;
        http_body :=
          BlockedBody "analyze_blocked"
            "La página bloqueó el análisis DOM (No se pudo cargar la URL (status=403)). Se adjunta mini-captura para auditoría visual."
            "/9j/4A==" |},
   trace (run scripted (Rev3.withPage (Rev3.analyzePass siteUrl) 1366 768) blockedScript)
   ++ [Ev (Launch launchOptions) (inl 1%nat);
       Ev (NewContext 1%nat
             {| viewport := (1366, 768);
                userAgent := userAgentString;
                locale := "es-CL";
                deviceScaleFactor := Some 1;
                hasTouch := Some false |}) (inl 2%nat);
       Ev (AddInitScript 2%nat HideWebdriver) (inl tt);
       Ev (SetExtraHTTPHeaders 2%nat
             [("Accept-Language", "es-CL,es;q=0.9,en;q=0.8");
              ("Upgrade-Insecure-Requests", "1")]) (inl tt);
       Ev (NewPage 2%nat) (inl 3%nat);
       Ev (attempt1 3%nat siteUrl) (inl (Some okResponse));
       Ev (Screenshot 3%nat lowFidelity) (inl ["255"; "216"; "255"; "224"]%char);
       Ev (BrowserClose 1%nat) (inl tt)],
   []).
Proof.
  destruct (analyze_fallback (list Step) scripted analyzeReq siteUrl blockedScript
              (Rev3.loadFailure (Some forbidden))
              (trace (run scripted (Rev3.withPage (Rev3.analyzePass siteUrl) 1366 768)
                        blockedScript))
              [] eq_refl eq_refl eq_refl eq_refl)
    as (shot & t2 & w2 & resp & Hfb & Hrun & _ & _ & Hshot).
  vm_compute in Hfb.
  injection Hfb as <- <- <-.
  destruct Hshot as [-> _].
  exact Hrun.
Defined.

(** ** The scorer *)

Lemma filter_isA1_findings (dist : list DistortedImage) :
  filter isA1 (map findingA1 dist) = map findingA1 dist.
Proof. induction dist as [ | d dist IH]; simpl; [ reflexivity | now rewrite IH ]. Qed.

Lemma filter_isB1_findings (dist : list DistortedImage) :
  filter isB1 (map findingA1 dist) = [].
Proof. induction dist as [ | d dist IH]; simpl; [ reflexivity | exact IH ]. Qed.

Lemma findingsOf_A1 (fonts : list string) (dist : list DistortedImage) :
  filter isA1 (findingsOf fonts dist) = map findingA1 dist.
Proof.
  unfold findingsOf; rewrite filter_app, filter_isA1_findings.
  destruct (len fonts >? maxFamilies); reflexivity.
Qed.

Lemma findingsOf_B1 (fonts : list string) (dist : list DistortedImage) :
  filter isB1 (findingsOf fonts dist) =
  if len fonts >? maxFamilies then [findingB1 fonts] else [].
Proof.
  unfold findingsOf; rewrite filter_app, filter_isB1_findings.
  destruct (len fonts >? maxFamilies); reflexivity.
Qed.

Lemma nth_error_A1 (dist : list DistortedImage) (j : nat) (g : Finding) :
  nth_error (map findingA1 dist) j = Some g -> isB1 g = false.
Proof.
  intros H. apply nth_error_In, in_map_iff in H as [d [Hd _]]; now subst g.
Qed.

Lemma findingsOf_order (fonts : list string) (dist : list DistortedImage)
    (i j : nat) (f g : Finding) :
  nth_error (findingsOf fonts dist) i = Some f ->
  nth_error (findingsOf fonts dist) j = Some g ->
  isB1 f = true -> isA1 g = true -> (i < j)%nat.
Proof.
  unfold findingsOf.
  destruct (len fonts >? maxFamilies); simpl; intros Hi Hj Hf Hg.
  - destruct i as [ | i].
    + destruct j as [ | j]; [ | lia ].
      simpl in Hj; inversion Hj; subst g; discriminate Hg.
    + simpl in Hi. apply nth_error_A1 in Hi. congruence.
  - apply nth_error_A1 in Hi. congruence.
Qed.

Section AnalysisResponses.

Variable world : Type.
Variable respond : forall X : Type, EngineCall X -> world -> Outcome X * world.

Local Abbreviation run := (run respond).

(** What an analysis session that returns has done. *)
Lemma analysis_returned (url : json) (w : world) (out : AnalysisResult)
    (t : Trace) (w' : world) :
  run (Rev3.withPage (Rev3.analyzePass url) 1366 768) w = (Returned out, t, w') ->
  exists resp page fontsDoc imagesDoc t0 t2,
    out = analysisResult url resp (fontFamilies fontsDoc) (distorted imagesDoc) /\
    t = t0 ++ [Ev (Evaluate page) (inl fontsDoc); Ev (Evaluate page) (inl imagesDoc)] ++ t2.
Proof.
  rewrite run_withPage.
  destruct (run (Rev3.acquire 1366 768) w) as [[r0 t0] w0].
  destruct r0 as [[browser page] | e]; [ | discriminate ].
  rewrite run_analyzePass.
  destruct (run (Rev3.safeGoto page url) w0) as [[r tg] w1].
  destruct r as [resp | e].
  - destruct (respond _ (Evaluate page) w1) as [[fontsDoc | e] w2].
    + destruct (respond _ (Evaluate page) w2) as [[imagesDoc | e] w3];
        destruct (respond _ (BrowserClose browser) w3) as [[[] | e'] w4];
        intros H; inversion H; subst; clear H.
      exists resp, page, fontsDoc, imagesDoc, (t0 ++ tg), [Ev (BrowserClose browser) (inl tt)].
      split; [ reflexivity | ].
      now rewrite <- !app_assoc.
    + destruct (respond _ (BrowserClose browser) w2) as [[[] | e'] w4];
        intros H; inversion H.
  - destruct (respond _ (BrowserClose browser) w1) as [[[] | e'] w4];
      intros H; inversion H.
Qed.

(** A 200 answer of the analyze route carries the result built from the
    two documents the engine showed. *)
Lemma analyze_success (req : Request) (w : world)
    (resp : HttpResponse AnalysisResult) (t : Trace) (w' : world) :
  run (Rev3.analyze req) w = (Returned resp, t, w') ->
  http_status resp = 200 ->
  exists url nav page fontsDoc imagesDoc t0 t2,
    http_body resp =
      AnalysisBody (analysisResult url nav (fontFamilies fontsDoc) (distorted imagesDoc)) /\
    t = t0 ++ [Ev (Evaluate page) (inl fontsDoc); Ev (Evaluate page) (inl imagesDoc)] ++ t2.
Proof.
  destruct (truthy (optProp (bodyProp (body req) "target") "value")) eqn:Hv.
  - destruct (optProp (bodyProp (body req) "target") "value") as [url | ] eqn:Hsome;
      [ | discriminate ].
    rewrite (run_analyze _ respond req url w Hsome Hv).
    pose proof (analysis_returned url w) as Hret.
    destruct (run (Rev3.withPage (Rev3.analyzePass url) 1366 768) w) as [[r1 t1] w1].
    destruct r1 as [out | e].
    + intros H _; inversion H; subst; clear H.
      destruct (Hret out t w' eq_refl) as (nav & page & fd & idoc & t0 & t2 & Hout & Ht).
      exists url, nav, page, fd, idoc, t0, t2; split; [ now rewrite Hout | exact Ht ].
    + destruct (run (Rev3.withPage (Rev3.fallbackPass url) 1366 768) w1) as [[r2 t2] w2].
      intros H Hs; inversion H; subst; clear H.
      destruct r2; discriminate Hs.
  - rewrite (run_analyze_invalid _ respond req w Hv).
    intros H Hs; inversion H; subst; discriminate Hs.
Qed.

End AnalysisResponses.

Section ScorerClaims.

Variable world : Type.
Variable respond : forall X : Type, EngineCall X -> world -> Outcome X * world.

Local Abbreviation run := (run respond).

(** C1.  The score of an analysis result is
    [max(50, 100 - 10*distortedCount - 5*max(0, fontCount-3))]; it lies
    between 50 and 100; no distorted image and 2 families give 100; 2
    distorted images and 5 families give 70.  The score of every 200 answer
    of the analyze route is that expression of the fonts and of the number
    of distorted images the answer reports. *)
Theorem score_formula_and_range :
  (forall (url : json) (nav : Response) (fonts : list string) (dist : list DistortedImage),
     let r := analysisResult url nav fonts dist in
     r_score r = Z.max 50 (100 - 10 * len dist - 5 * Z.max 0 (len fonts - 3))
     /\ 50 <= r_score r <= 100
     /\ (len dist = 0 -> len fonts = 2 -> r_score r = 100)
     /\ (len dist = 2 -> len fonts = 5 -> r_score r = 70))
  /\ (forall (req : Request) (w : world) (resp : HttpResponse AnalysisResult)
             (t : Trace) (w' : world),
        run (Rev3.analyze req) w = (Returned resp, t, w') ->
        http_status resp = 200 ->
        exists r,
          http_body resp = AnalysisBody r
          /\ r_score r = Z.max 50 (100 - 10 * distortedImages (meta r)
                                   - 5 * Z.max 0 (len (fontsDetected (meta r)) - 3))
          /\ 50 <= r_score r <= 100).
Proof.
  assert (Hpure : forall (fonts : list string) (dist : list DistortedImage),
             score fonts dist = Z.max 50 (100 - 10 * len dist - 5 * Z.max 0 (len fonts - 3))
             /\ 50 <= score fonts dist <= 100).
  { intros fonts dist; unfold score, maxFamilies, len.
    pose proof (Nat2Z.is_nonneg (List.length dist)).
    pose proof (Nat2Z.is_nonneg (List.length fonts)).
    lia. }
  split.
  - intros url nav fonts dist; cbv zeta; unfold analysisResult; cbn [r_score].
    destruct (Hpure fonts dist) as [Hf Hr].
    repeat split; intros; lia.
  - intros req w resp t w' Hrun Hstatus.
    destruct (analyze_success _ respond req w resp t w' Hrun Hstatus)
      as (url & nav & page & fd & idoc & t0 & t2 & Hbody & _).
    eexists; split; [ exact Hbody | ].
    unfold analysisResult; cbn [r_score meta distortedImages fontsDetected].
    destruct (Hpure (fontFamilies fd) (distorted idoc)) as [Hf Hr].
    split; [ exact Hf | exact Hr ].
Qed.

(** C7.  The category scores are two-valued tiers: typography is 70 when
    there are more than 3 font families and 95 otherwise; logos is 65 when
    at least one distorted image was found and 95 otherwise.  They are not a
    function of the numeric score: two results with the same score can
    differ in both tiers. *)
Theorem category_tiers :
  (forall (url : json) (nav : Response) (fonts : list string) (dist : list DistortedImage),
     let r := analysisResult url nav fonts dist in
     (len fonts > 3 -> typography (byCategory r) = 70)
     /\ (len fonts <= 3 -> typography (byCategory r) = 95)
     /\ (len dist >= 1 -> logos (byCategory r) = 65)
     /\ (len dist = 0 -> logos (byCategory r) = 95))
  /\ (forall (url : json) (nav : Response) (d : DistortedImage),
        let r1 := analysisResult url nav ["a"; "b"; "c"; "d"; "e"; "f"; "g"] [] in
        let r2 := analysisResult url nav ["a"] [d; d] in
        r_score r1 = r_score r2
        /\ typography (byCategory r1) <> typography (byCategory r2)
        /\ logos (byCategory r1) <> logos (byCategory r2)).
Proof.
  split.
  - intros url nav fonts dist; cbv zeta.
    unfold analysisResult, byCategoryOf, maxFamilies; cbn [byCategory typography logos].
    rewrite Z.gtb_ltb.
    destruct (Z.ltb_spec 3 (len fonts)); destruct (Z.eqb_spec (len dist) 0);
      repeat split; intros; lia.
  - intros url nav d; simpl; repeat split; discriminate.
Qed.

(** C10.  In every 200 answer of the analyze route, the findings hold at
    most one [B1] finding, and it stands before every [A1] finding; the
    [A1] findings carry, in order, the records of the images of the
    inspected document that the image script flags; [meta.distortedImages]
    is the number of [A1] findings and [meta.fontsDetected] is the list the
    font script extracted. *)
Theorem findings_shape (req : Request) (w : world)
    (resp : HttpResponse AnalysisResult) (t : Trace) (w' : world) :
  route req = POST_analyze ->
  run (Rev3.app req) w = (Returned resp, t, w') ->
  http_status resp = 200 ->
  exists r page fontsDoc imagesDoc t0 t2,
    http_body resp = AnalysisBody r
    /\ t = t0 ++ [Ev (Evaluate page) (inl fontsDoc); Ev (Evaluate page) (inl imagesDoc)] ++ t2
    /\ (List.length (filter isB1 (findings r)) <= 1)%nat
    /\ (forall i j f g,
          nth_error (findings r) i = Some f -> nth_error (findings r) j = Some g ->
          isB1 f = true -> isA1 g = true -> (i < j)%nat)
    /\ map evidence (filter isA1 (findings r))
       = map (fun img => ImageEvidence (evidenceOf img))
             (filter (flaggedAt THRESHOLD) (images imagesDoc))
    /\ distortedImages (meta r) = len (filter isA1 (findings r))
    /\ fontsDetected (meta r) = fontFamilies fontsDoc.
Proof.
  intros Hroute Hrun Hstatus.
  unfold Rev3.app, cors, express_json, logRequest, Rev3.routes in Hrun;
    rewrite Hroute in Hrun.
  destruct (analyze_success _ respond req w resp t w' Hrun Hstatus)
    as (url & nav & page & fd & idoc & t0 & t2 & Hbody & Ht).
  exists (analysisResult url nav (fontFamilies fd) (distorted idoc)), page, fd, idoc, t0, t2.
  simpl.
  split; [ exact Hbody | ].
  split; [ exact Ht | ].
  split; [ rewrite findingsOf_B1; destruct (len (fontFamilies fd) >? maxFamilies); simpl; lia | ].
  split; [ intros i j f g; apply findingsOf_order | ].
  rewrite findingsOf_A1.
  repeat split.
  - unfold distorted, distortedAt; rewrite !map_map; reflexivity.
  - unfold len; now rewrite !length_map.
Qed.

End ScorerClaims.

(** ** The bearer gate of the middle revision *)

Section Gate.

Variable world : Type.
Variable respond : forall X : Type, EngineCall X -> world -> Outcome X * world.

Local Abbreviation run := (run respond).

Lemma bearer_nonempty (key : string) : ("Bearer " ++ key)%string <> "".
Proof. discriminate. Qed.

(** C4, as amended.  With [API_KEY] set to a non-empty secret, a request
    that reaches the gate, to any route, whose [Authorization] header is
    absent or differs from [Bearer <secret>] is answered 401 [unauthorized]
    without a call to the engine; a request with the matching header is
    handled as by the stack without the gate.  With [API_KEY] unset (or set
    to the empty string, which [|| null] reads as unset) every request is
    handled as by the stack without the gate.  The two requests that do not
    reach the gate are answered before it, whatever the secret and the
    header: an OPTIONS request 204 by [cors()], and a request whose body is
    rejected with the status of the error of [express.json()]. *)
Theorem bearer_gate (env : option string) (req : Request) (w : world) :
  (forall key,
     env = Some key -> key <> "" ->
     reachesGate req = true ->
     authorization req <> Some ("Bearer " ++ key)%string ->
     run (Rev2.app env req) w =
     (Returned {| http_status := 401;
                  http_body := ErrorBody "unauthorized" "Missing/invalid bearer token" |},
      [], w))
  /\ (forall key,
        env = Some key -> key <> "" ->
        authorization req = Some ("Bearer " ++ key)%string ->
        run (Rev2.app env req) w
        = run (cors (express_json (logRequest Rev2.routes)) req) w)
  /\ (env = None \/ env = Some "" ->
      run (Rev2.app env req) w
      = run (cors (express_json (logRequest Rev2.routes)) req) w)
  /\ (route req = OPTIONS_any ->
      run (Rev2.app env req) w =
      (Returned {| http_status := 204; http_body := NoBody |}, [], w))
  /\ (forall f,
        route req = Unparsed f ->
        run (Rev2.app env req) w =
        (Returned {| http_status := failureStatus f; http_body := ErrorPage |}, [], w)).
Proof.
  unfold Rev2.app, cors, express_json, logRequest, Rev2.gate, Rev2.API_KEY, reachesGate.
  repeat split.
  - intros key Henv Hkey Hreach Hauth; subst env.
    destruct key as [ | c key]; [ now contradiction Hkey | ].
    cbn [JsStr.truthy].
    destruct (route req); try discriminate Hreach;
      (destruct (authorization req) as [h | ];
       [ destruct h as [ | c' h]; cbn [JsStr.truthy];
         [ reflexivity
         | destruct (String.eqb_spec (String c' h) ("Bearer " ++ String c key)%string)
             as [E | E];
           [ rewrite E in Hauth; now contradiction Hauth | reflexivity ] ]
       | reflexivity ]).
  - intros key Henv Hkey Hauth; subst env.
    destruct key as [ | c key]; [ now contradiction Hkey | ].
    cbn [JsStr.truthy].
    rewrite Hauth. cbn [JsStr.truthy append].
    rewrite String.eqb_refl.
    destruct (route req); reflexivity.
  - intros [Henv | Henv]; subst env; destruct (route req); reflexivity.
  - intros ->; reflexivity.
  - intros f ->; reflexivity.
Qed.

End Gate.

(** C4, on a request without the header while the secret is set. *)
Lemma bearer_gate_witness :
  run scripted (Rev2.app secretEnv analyzeReq) [] =
  (Returned {| http_status := 401;
               http_body := ErrorBody "unauthorized" "Missing/invalid bearer token" |},
   [], []).
Proof.
  apply (proj1 (bearer_gate (list Step) scripted secretEnv analyzeReq []) "s3cret");
    [ reflexivity | discriminate | reflexivity | discriminate ].
Defined.

(** C4, the claim as stated fails: with the secret set, a preflight without
    the header is answered 204 by [cors()], which stands before the gate,
    and so is not answered 401.  (A request whose body [express.json()]
    rejects, such as [unparsedReq], is answered 400 in the same way.) *)
Lemma every_request_is_gated_fails : ~ every_request_is_gated.
Proof.
  intros H.
  specialize (H (list Step) scripted "s3cret"%string preflightReq []).
  simpl in H.
  assert (Hno : Returned (A := HttpResponse Rev2.AnalysisResult2)
                  {| http_status := 204; http_body := NoBody |}
                = Returned Rev2.unauthorized).
  { apply H; discriminate. }
  discriminate Hno.
Qed.

(** C1, on the two inputs the specification names. *)
Lemma score_formula_and_range_witness :
  r_score (analysisResult siteUrl okResponse ["inter"; "georgia"] []) = 100
  /\ r_score (analysisResult siteUrl okResponse
                ["inter"; "georgia"; "lato"; "roboto"; "arial"]
                (distorted auditDoc ++ distorted auditDoc)) = 70.
Proof.
  split.
  - apply (proj1 (score_formula_and_range (list Step) scripted)
             siteUrl okResponse ["inter"; "georgia"] []); reflexivity.
  - apply (proj1 (score_formula_and_range (list Step) scripted)
             siteUrl okResponse ["inter"; "georgia"; "lato"; "roboto"; "arial"]
             (distorted auditDoc ++ distorted auditDoc)); reflexivity.
Defined.

(** C7, on the audited page: five families and one distorted image. *)
Lemma category_tiers_witness :
  typography (byCategory (analysisResult siteUrl okResponse
                            (fontFamilies auditDoc) (distorted auditDoc))) = 70
  /\ logos (byCategory (analysisResult siteUrl okResponse
                          (fontFamilies auditDoc) (distorted auditDoc))) = 65.
Proof.
  split.
  - apply (proj1 category_tiers siteUrl okResponse (fontFamilies auditDoc)
             (distorted auditDoc)); vm_compute; reflexivity.
  - apply (proj1 category_tiers siteUrl okResponse (fontFamilies auditDoc)
             (distorted auditDoc)); vm_compute; discriminate.
Defined.

(** C10, on the audited page. *)
Lemma findings_shape_witness :
  exists r page fontsDoc imagesDoc t0 t2,
    http_body auditResponse = AnalysisBody r
    /\ trace auditRun
       = t0 ++ [Ev (Evaluate page) (inl fontsDoc); Ev (Evaluate page) (inl imagesDoc)] ++ t2
    /\ (List.length (filter isB1 (findings r)) <= 1)%nat
    /\ (forall i j f g,
          nth_error (findings r) i = Some f -> nth_error (findings r) j = Some g ->
          isB1 f = true -> isA1 g = true -> (i < j)%nat)
    /\ map evidence (filter isA1 (findings r))
       = map (fun img => ImageEvidence (evidenceOf img))
             (filter (flaggedAt THRESHOLD) (images imagesDoc))
    /\ distortedImages (meta r) = len (filter isA1 (findings r))
    /\ fontsDetected (meta r) = fontFamilies fontsDoc.
Proof.
  apply (findings_shape (list Step) scripted analyzeReq auditScript auditResponse
           (trace auditRun) (snd auditRun)); reflexivity.
Defined.

(** ** Binary64 facts *)


Ltac cmp_cases :=
  repeat match goal with
    | H : context [Pos.compare_cont Eq ?a ?b] |- _ =>
        change (Pos.compare_cont Eq a b) with (Pos.compare a b) in H
    | |- context [Pos.compare_cont Eq ?a ?b] =>
        change (Pos.compare_cont Eq a b) with (Pos.compare a b)
    end;
  repeat match goal with
    | H : context [Z.compare ?a ?b] |- _ => destruct (Z.compare_spec a b); simpl in H
    | |- context [Z.compare ?a ?b] => destruct (Z.compare_spec a b); simpl
    | H : context [Pos.compare ?a ?b] |- _ => destruct (Pos.compare_spec a b); simpl in H
    | |- context [Pos.compare ?a ?b] => destruct (Pos.compare_spec a b); simpl
    end;
  try discriminate; try reflexivity; try lia.

Lemma SF_le_lt_trans (a b c : spec_float) :
  SFleb a b = true -> SFltb b c = true -> SFltb a c = true.
Proof.
  unfold SFleb, SFltb, SFcompare.
  destruct a as [sa | sa | | sa ma ea], b as [sb | sb | | sb mb eb],
           c as [sc | sc | | sc mc ec];
    try destruct sa; try destruct sb; try destruct sc; simpl;
    try discriminate; try reflexivity; intros Hab Hbc; cmp_cases.
Qed.

Lemma SF_le_le_not_lt (a b c : spec_float) :
  SFleb c a = true -> SFleb a b = true -> SFltb b c = false.
Proof.
  unfold SFleb, SFltb, SFcompare.
  destruct a as [sa | sa | | sa ma ea], b as [sb | sb | | sb mb eb],
           c as [sc | sc | | sc mc ec];
    try destruct sa; try destruct sb; try destruct sc; simpl;
    try discriminate; try reflexivity; intros Hab Hbc; cmp_cases.
Qed.



Lemma digits2_size (p : positive) : digits2_pos p = Pos.size p.
Proof. induction p; simpl; congruence. Qed.

Lemma digits_bounds (p : positive) :
  2 ^ (Zpos (digits2_pos p) - 1) <= Zpos p < 2 ^ Zpos (digits2_pos p).
Proof.
  rewrite digits2_size.
  pose proof (Pos.size_gt p) as Hgt.
  pose proof (Pos.size_le p) as Hle.
  apply Pos2Z.pos_lt_pos in Hgt. apply Pos2Z.pos_le_pos in Hle.
  rewrite Pos2Z.inj_pow in Hgt, Hle.
  assert (E : 2 ^ Zpos (Pos.size p) = 2 * 2 ^ (Zpos (Pos.size p) - 1)).
  { rewrite <- Z.pow_succ_r by lia. f_equal; lia. }
  assert (E2 : Zpos p~0 = 2 * Zpos p) by reflexivity.
  lia.
Qed.

Lemma digits_of_range (p : positive) (k : Z) :
  2 ^ (k - 1) <= Zpos p < 2 ^ k -> 0 < k -> Zpos (digits2_pos p) = k.
Proof.
  intros [Hlo Hhi] Hk.
  destruct (digits_bounds p) as [Dlo Dhi].
  assert (H1 : k - 1 < Zpos (digits2_pos p)).
  { apply (Z.pow_lt_mono_r_iff 2); lia. }
  assert (H2 : Zpos (digits2_pos p) - 1 < k).
  { apply (Z.pow_lt_mono_r_iff 2); lia. }
  lia.
Qed.

Lemma fexp_normal (x : Z) : -1021 <= x -> fexp JsNum.prec JsNum.emax x = x - 53.
Proof. unfold fexp, emin, JsNum.prec, JsNum.emax; lia. Qed.

(** shifting a mantissa of 53 or 54 bits to 53 bits *)
Lemma shr_fexp_normal (m e : Z) (l : location) :
  2 ^ 52 <= m < 2 ^ 54 -> -1074 <= e ->
  exists mrs e',
    shr_fexp JsNum.prec JsNum.emax m e l = (mrs, e')
    /\ 2 ^ 52 <= shr_m mrs < 2 ^ 53 /\ e <= e' <= e + 1.
Proof.
  intros Hm He.
  destruct m as [ | p | p]; try lia.
  unfold shr_fexp. cbn [Zdigits2].
  destruct (Z_lt_ge_dec (Zpos p) (2 ^ 53)) as [Hlt | Hge].
  - rewrite (digits_of_range p 53) by (simpl; lia).
    rewrite fexp_normal by lia.
    replace (53 + e - 53 - e) with 0 by lia.
    simpl. eexists; eexists; split; [ reflexivity | ].
    destruct l as [ | []]; simpl; lia.
  - rewrite (digits_of_range p 54) by (simpl; lia).
    rewrite fexp_normal by lia.
    replace (54 + e - 53 - e) with 1 by lia.
    unfold shr; cbn [iter_pos].
    eexists; eexists; split; [ reflexivity | ].
    split; [ | lia ].
    assert (Hhalf : shr_m (shr_1 (shr_record_of_loc (Zpos p) l)) = Zpos p / 2).
    { destruct l as [ | []]; destruct p as [p | p | ];
        cbn [shr_m shr_1 shr_record_of_loc];
        first [ reflexivity
              | apply Z.div_unique with (r := 1); lia
              | apply Z.div_unique with (r := 0); lia ]. }
    rewrite Hhalf.
    split.
    + apply Z.div_le_lower_bound; [ lia | ]. change (2 ^ 52) with (2^52) . lia.
    + apply Z.div_lt_upper_bound; [ lia | ]. lia.
Qed.

Lemma round_nearest_even_bounds (m : Z) (l : location) :
  m <= round_nearest_even m l <= m + 1.
Proof. destruct l as [ | []]; simpl; try lia. destruct (Z.even m); lia. Qed.

Lemma binary_round_aux_finite (s : bool) (m e : Z) (l : location) :
  2 ^ 52 <= m < 2 ^ 54 -> -1074 <= e <= 900 ->
  exists m' e', binary_round_aux JsNum.prec JsNum.emax s m e l = S754_finite s m' e'.
Proof.
  intros Hm He.
  unfold binary_round_aux.
  destruct (shr_fexp_normal m e l Hm) as (mrs & e1 & H1 & Hm1 & He1); [ lia | ].
  rewrite H1.
  pose proof (round_nearest_even_bounds (shr_m mrs) (loc_of_shr_record mrs)) as Hr.
  destruct (shr_fexp_normal (round_nearest_even (shr_m mrs) (loc_of_shr_record mrs))
              e1 loc_Exact) as (mrs2 & e2 & H2 & Hm2 & He2).
  { change (2 ^ 54) with (2 * 2 ^ 53). lia. }
  { lia. }
  rewrite H2.
  destruct (shr_m mrs2) as [ | p | p].
  - change (2 ^ 52) with 4503599627370496 in Hm2; lia.
  - replace (e2 <=? JsNum.emax - JsNum.prec) with true by (symmetry; apply Z.leb_le; unfold JsNum.emax, JsNum.prec; lia).
    now exists p, e2.
  - lia.
Qed.

Lemma binary_round_aux_canonical (s : bool) (m : positive) (e : Z) :
  Zpos (digits2_pos m) = 53 -> -1074 <= e <= 971 ->
  binary_round_aux JsNum.prec JsNum.emax s (Zpos m) e loc_Exact = S754_finite s m e.
Proof.
  intros Hd He.
  unfold binary_round_aux, shr_fexp; cbn [Zdigits2].
  rewrite Hd, fexp_normal by lia.
  replace (53 + e - 53 - e) with 0 by lia.
  cbn [shr shr_record_of_loc shr_m loc_of_shr_record round_nearest_even Zdigits2].
  rewrite Hd, fexp_normal by lia.
  replace (53 + e - 53 - e) with 0 by lia.
  cbn [shr shr_record_of_loc shr_m].
  replace (e <=? JsNum.emax - JsNum.prec) with true by (symmetry; apply Z.leb_le; unfold JsNum.emax, JsNum.prec; lia).
  reflexivity.
Qed.

Lemma digits_iter_xO (p k : positive) :
  digits2_pos (Pos.iter xO p k) = (digits2_pos p + k)%positive.
Proof.
  induction k as [ | k IH] using Pos.peano_ind.
  - simpl. now rewrite Pos.add_1_r.
  - rewrite Pos.iter_succ; simpl. rewrite IH. now rewrite Pos.add_succ_r.
Qed.

Lemma binary_round_small (s : bool) (p : positive) :
  Zpos p < 2 ^ 53 ->
  exists m e, binary_round JsNum.prec JsNum.emax s p 0 = S754_finite s m e
              /\ Zpos (digits2_pos m) = 53 /\ -52 <= e <= 0.
Proof.
  intros Hp.
  pose proof (digits_bounds p) as [Dlo Dhi].
  assert (Hd : Zpos (digits2_pos p) <= 53).
  { assert (Zpos (digits2_pos p) - 1 < 53); [ | lia ].
    apply (Z.pow_lt_mono_r_iff 2); lia. }
  unfold binary_round, shl_align.
  rewrite Z.add_0_r, fexp_normal by lia.
  rewrite Z.sub_0_r.
  destruct (Zpos (digits2_pos p) - 53) as [ | k | k] eqn:Hk; try lia.
  - rewrite binary_round_aux_canonical by lia.
    exists p, 0; repeat split; lia.
  - assert (Hdig : Zpos (digits2_pos (Pos.iter xO p k)) = 53).
    { rewrite digits_iter_xO, Pos2Z.inj_add. lia. }
    rewrite binary_round_aux_canonical by lia.
    exists (Pos.iter xO p k), (Z.neg k); repeat split; lia.
Qed.

Lemma of_Z_normal (z : Z) :
  z <> 0 -> - 2 ^ 53 < z < 2 ^ 53 ->
  exists m e, JsNum.of_Z z = S754_finite (z <? 0) m e
              /\ Zpos (digits2_pos m) = 53 /\ -52 <= e <= 0.
Proof.
  intros Hz Hr. unfold JsNum.of_Z, binary_normalize.
  destruct z as [ | p | p]; [ now contradiction Hz | | ].
  - apply binary_round_small; lia.
  - apply binary_round_small. change (Z.neg p) with (- Zpos p) in Hr. lia.
Qed.

Lemma div_eucl_div (a b : Z) : Z.div_eucl a b = (a / b, a mod b).
Proof. unfold Z.div, Z.modulo. now destruct (Z.div_eucl a b). Qed.

Lemma SFdiv_normal (s1 s2 : bool) (m1 m2 : positive) (e1 e2 : Z) :
  Zpos (digits2_pos m1) = 53 -> Zpos (digits2_pos m2) = 53 ->
  -60 <= e1 - e2 <= 60 ->
  exists m e,
    SFdiv JsNum.prec JsNum.emax (S754_finite s1 m1 e1) (S754_finite s2 m2 e2)
    = S754_finite (xorb s1 s2) m e.
Proof.
  intros Hd1 Hd2 He.
  pose proof (digits_bounds m1) as B1. pose proof (digits_bounds m2) as B2.
  rewrite Hd1 in B1. rewrite Hd2 in B2.
  change (53 - 1) with 52 in B1, B2.
  unfold SFdiv, SFdiv_core_binary; cbn [Zdigits2].
  rewrite Hd1, Hd2, fexp_normal by lia.
  replace (Z.min (53 + e1 - (53 + e2) - 53) (e1 - e2)) with (e1 - e2 - 53) by lia.
  replace (e1 - e2 - (e1 - e2 - 53)) with 53 by lia.
  rewrite Z.shiftl_mul_pow2 by lia.
  rewrite div_eucl_div.
  apply binary_round_aux_finite; [ | lia ].
  split.
  - apply Z.div_le_lower_bound; [ lia | ].
    change (2 ^ 53) with (2 ^ 53) in *.
    nia.
  - apply Z.div_lt_upper_bound; [ lia | ].
    change (2 ^ 54) with (2 * 2 ^ 53).
    nia.
Qed.

Lemma shr_1_nonneg (mrs : shr_record) : 0 <= shr_m mrs -> 0 <= shr_m (shr_1 mrs).
Proof.
  destruct mrs as [m r s]; destruct m as [ | [p | p | ] | p]; simpl; lia.
Qed.

Lemma iter_shr_1_nonneg (p : positive) :
  forall mrs, 0 <= shr_m mrs -> 0 <= shr_m (iter_pos shr_1 p mrs).
Proof.
  induction p as [p IH | p IH | ]; simpl; intros mrs H.
  - apply IH, IH, shr_1_nonneg, H.
  - apply IH, IH, H.
  - apply shr_1_nonneg, H.
Qed.

Lemma shr_fexp_nonneg (m e : Z) (l : location) :
  0 <= m -> 0 <= shr_m (fst (shr_fexp JsNum.prec JsNum.emax m e l)).
Proof.
  intros Hm. unfold shr_fexp, shr.
  assert (H0 : 0 <= shr_m (shr_record_of_loc m l)) by (destruct l as [ | []]; exact Hm).
  destruct (fexp JsNum.prec JsNum.emax (Zdigits2 m + e) - e); simpl; auto using iter_shr_1_nonneg.
Qed.

Lemma binary_round_aux_signed (s : bool) (m e : Z) (l : location) :
  0 <= m -> JsNum.signed s (binary_round_aux JsNum.prec JsNum.emax s m e l).
Proof.
  intros Hm. unfold binary_round_aux.
  pose proof (shr_fexp_nonneg m e l Hm) as H1.
  destruct (shr_fexp JsNum.prec JsNum.emax m e l) as [mrs e1]; simpl in H1.
  pose proof (round_nearest_even_bounds (shr_m mrs) (loc_of_shr_record mrs)) as Hr.
  pose proof (shr_fexp_nonneg (round_nearest_even (shr_m mrs) (loc_of_shr_record mrs))
                e1 loc_Exact) as H2.
  destruct (shr_fexp JsNum.prec JsNum.emax (round_nearest_even (shr_m mrs) (loc_of_shr_record mrs))
              e1 loc_Exact) as [mrs2 e2]; simpl in H2.
  specialize (H2 ltac:(lia)).
  destruct (shr_m mrs2) as [ | p | p]; [ reflexivity | | lia ].
  destruct (e2 <=? JsNum.emax - JsNum.prec); reflexivity.
Qed.

Lemma binary_normalize_signed (z e : Z) :
  exists s, JsNum.signed s (binary_normalize JsNum.prec JsNum.emax z e false).
Proof.
  destruct z as [ | p | p]; simpl.
  - now exists false.
  - exists false. unfold binary_round.
    destruct (shl_align p e _) as [mz ez]. apply binary_round_aux_signed; lia.
  - exists true. unfold binary_round.
    destruct (shl_align p e _) as [mz ez]. apply binary_round_aux_signed; lia.
Qed.

Lemma SFsub_finite_signed (s1 s2 : bool) (m1 m2 : positive) (e1 e2 : Z) :
  exists s, JsNum.signed s (SFsub JsNum.prec JsNum.emax (S754_finite s1 m1 e1) (S754_finite s2 m2 e2)).
Proof. unfold SFsub. apply binary_normalize_signed. Qed.

Lemma SFabs_signed (s : bool) (x : spec_float) : JsNum.signed s x -> JsNum.signed false (SFabs x).
Proof. destruct x; simpl; auto. Qed.

Lemma SFdiv_signed_finite (x : spec_float) (m : positive) (e : Z) :
  JsNum.signed false x -> JsNum.signed false (SFdiv JsNum.prec JsNum.emax x (S754_finite false m e)).
Proof.
  destruct x as [s | s | | s mx ex]; simpl; intros Hs; try (now subst s); try contradiction.
  subst s.
  unfold SFdiv_core_binary.
  match goal with |- context [Z.div_eucl ?a ?b] =>
    rewrite (div_eucl_div a b);
    assert (Hq : 0 <= a / b) end.
  { apply Z.div_pos; [ | lia ].
    destruct (ex - e - _) as [ | k | k]; try lia.
    apply Z.shiftl_nonneg; lia. }
  apply binary_round_aux_signed, Hq.
Qed.

Lemma below_zero_below_signed (t x : spec_float) :
  SFltb t (S754_zero false) = true -> JsNum.signed false x -> SFltb t x = true.
Proof.
  unfold SFltb, SFcompare.
  destruct t as [st | st | | st mt et], x as [sx | sx | | sx mx ex];
    simpl; intros Ht Hx; try discriminate; try contradiction; subst;
    try destruct st; try discriminate; reflexivity.
Qed.

(** ** Image distortion *)

Lemma pow_2_53_bounds (z : Z) :
  - 2 ^ 31 <= z < 2 ^ 32 -> - 2 ^ 53 < z < 2 ^ 53.
Proof.
  change (2 ^ 31) with 2147483648; change (2 ^ 32) with 4294967296;
    change (2 ^ 53) with 9007199254740992; lia.
Qed.

(** The ratio of two non-zero WebIDL integers is a finite non-zero number
    whose sign is the product of their signs. *)
Lemma ratio_finite (a b : Z) :
  a <> 0 -> b <> 0 -> - 2 ^ 31 <= a < 2 ^ 32 -> - 2 ^ 31 <= b < 2 ^ 32 ->
  exists m e,
    JsNum.div (JsNum.of_Z a) (JsNum.of_Z b) = S754_finite (xorb (a <? 0) (b <? 0)) m e.
Proof.
  intros Ha Hb Ra Rb.
  destruct (of_Z_normal a Ha (pow_2_53_bounds a Ra)) as (ma & ea & Ea & Da & Xa).
  destruct (of_Z_normal b Hb (pow_2_53_bounds b Rb)) as (mb & eb & Eb & Db & Xb).
  unfold JsNum.div; rewrite Ea, Eb.
  apply SFdiv_normal; [ exact Da | exact Db | lia ].
Qed.

Lemma unmeasured_false (img : Img) :
  unmeasured img = false ->
  naturalWidth img <> 0 /\ naturalHeight img <> 0
  /\ clientWidth img <> 0 /\ clientHeight img <> 0.
Proof.
  unfold unmeasured; intros H.
  repeat (apply orb_false_iff in H; destruct H as [H ?]).
  repeat split; apply Z.eqb_neq; assumption.
Qed.

(** On a measured image the relative delta is a number, and it is not
    negative. *)
Lemma delta_signed (img : Img) :
  idlTyped img -> unmeasured img = false -> JsNum.signed false (delta img).
Proof.
  intros (Hnw & Hnh & Hcw & Hch) Hm.
  apply unmeasured_false in Hm as (Nnw & Nnh & Ncw & Nch).
  assert (P31 : 0 < 2 ^ 31) by reflexivity.
  assert (P32 : 2 ^ 31 < 2 ^ 32) by reflexivity.
  destruct (ratio_finite (naturalWidth img) (naturalHeight img)) as (mn & en & En);
    try assumption; try lia.
  destruct (ratio_finite (clientWidth img) (clientHeight img)) as (mr & er & Er);
    try assumption; try lia.
  replace (naturalWidth img <? 0) with false in En by (symmetry; apply Z.ltb_ge; lia).
  replace (naturalHeight img <? 0) with false in En by (symmetry; apply Z.ltb_ge; lia).
  unfold delta, natAR, rendAR, JsNum.abs, JsNum.sub.
  rewrite En, Er.
  destruct (SFsub_finite_signed (xorb (clientWidth img <? 0) (clientHeight img <? 0)) false
              mr mn er en) as [s Hs].
  apply SFdiv_signed_finite.
  apply (SFabs_signed s), Hs.
Qed.

(** C6.  Flagging is monotone in the threshold: every record reported at a
    threshold is reported at every threshold below it.  With a threshold
    below zero every image whose four measurements are non-zero integers of
    their WebIDL types is flagged.  With a threshold of one or more no image
    whose relative delta is at most one is flagged.  The code's threshold is
    the binary64 value nearest to 3/100. *)
Theorem distortion_threshold_monotone :
  (forall (t1 t2 : JsNum.num) (img : Img),
     JsNum.le t1 t2 = true -> flaggedAt t2 img = true -> flaggedAt t1 img = true)
  /\ (forall (t1 t2 : JsNum.num) (imgs : list Img),
        JsNum.le t1 t2 = true -> incl (distortedAt t2 imgs) (distortedAt t1 imgs))
  /\ (forall (t : JsNum.num) (img : Img),
        JsNum.lt t JsNum.zero = true -> idlTyped img -> unmeasured img = false ->
        flaggedAt t img = true)
  /\ (forall (t : JsNum.num) (img : Img),
        JsNum.le JsNum.one t = true -> JsNum.le (delta img) JsNum.one = true ->
        flaggedAt t img = false)
  /\ THRESHOLD = JsNum.div (JsNum.of_Z 3) (JsNum.of_Z 100).
Proof.
  assert (Hmono : forall (t1 t2 : JsNum.num) (img : Img),
             JsNum.le t1 t2 = true -> flaggedAt t2 img = true -> flaggedAt t1 img = true).
  { unfold flaggedAt, JsNum.gt, JsNum.le; intros t1 t2 img Hle Hf.
    apply andb_true_iff in Hf as [Hm Hd].
    rewrite Hm, andb_true_l.
    exact (SF_le_lt_trans t1 t2 (delta img) Hle Hd). }
  repeat split.
  - exact Hmono.
  - intros t1 t2 imgs Hle d Hd.
    unfold distortedAt in *.
    apply in_map_iff in Hd as (img & Hev & Hin).
    apply filter_In in Hin as [Hin Hf].
    apply in_map_iff; exists img; split; [ exact Hev | ].
    apply filter_In; split; [ exact Hin | exact (Hmono t1 t2 img Hle Hf) ].
  - intros t img Hneg Htyped Hm.
    unfold flaggedAt; rewrite Hm; cbn [negb andb].
    apply below_zero_below_signed; [ exact Hneg | exact (delta_signed img Htyped Hm) ].
  - intros t img Hone Hd.
    unfold flaggedAt, JsNum.gt.
    rewrite (SF_le_le_not_lt JsNum.one t (delta img) Hd Hone).
    apply andb_false_r.
Qed.

(** C6, on the audited page.  What is reported at one is reported at 3%;
    the image rendered in proportion is flagged below zero and at no
    threshold from 3% up; the stretched image, whose delta is one half, is
    not flagged at one. *)
Lemma distortion_threshold_monotone_witness :
  incl (distortedAt JsNum.one (images auditDoc)) (distortedAt THRESHOLD (images auditDoc))
  /\ (flaggedAt JsNum.one stretchedLogo = true -> flaggedAt THRESHOLD stretchedLogo = true)
  /\ flaggedAt (JsNum.of_Z (-1)) scaledHero = true
  /\ flaggedAt JsNum.one stretchedLogo = false
  /\ map (flaggedAt THRESHOLD) (images auditDoc) = [true; false; false].
Proof.
  split; [ | split; [ | split; [ | split ] ] ].
  - apply (proj1 (proj2 distortion_threshold_monotone) THRESHOLD JsNum.one (images auditDoc)).
    vm_compute; reflexivity.
  - apply (proj1 distortion_threshold_monotone THRESHOLD JsNum.one stretchedLogo).
    vm_compute; reflexivity.
  - apply (proj1 (proj2 (proj2 distortion_threshold_monotone)) (JsNum.of_Z (-1)) scaledHero).
    + vm_compute; reflexivity.
    + unfold idlTyped; vm_compute; intuition discriminate.
    + vm_compute; reflexivity.
  - apply (proj1 (proj2 (proj2 (proj2 distortion_threshold_monotone))) JsNum.one stretchedLogo);
      vm_compute; reflexivity.
  - vm_compute; reflexivity.
Defined.

(** ** Font-family normalization *)

Module JsStrFacts.

Import JsStr.

Lemma lowerChar_idempotent (c : ascii) : lowerChar (lowerChar c) = lowerChar c.
Proof. destruct c as [[] [] [] [] [] [] [] []]; reflexivity. Qed.

Lemma lowerChar_notComma (c : ascii) : notComma (lowerChar c) = notComma c.
Proof. destruct c as [[] [] [] [] [] [] [] []]; reflexivity. Qed.

Lemma toLowerCase_idempotent (s : string) : toLowerCase (toLowerCase s) = toLowerCase s.
Proof.
  induction s as [ | c r IH]; simpl; [ reflexivity | ].
  now rewrite lowerChar_idempotent, IH.
Qed.

Lemma toLowerCase_notComma (s : string) :
  allChars notComma (toLowerCase s) = allChars notComma s.
Proof.
  induction s as [ | c r IH]; simpl; [ reflexivity | ].
  now rewrite lowerChar_notComma, IH.
Qed.

Lemma firstToken_notComma (s : string) : allChars notComma (firstToken s) = true.
Proof.
  induction s as [ | c r IH]; simpl; [ reflexivity | ].
  destruct (isComma c) eqn:E; simpl; [ reflexivity | ].
  rewrite IH, andb_true_r. unfold notComma; now rewrite E.
Qed.

Lemma firstToken_fixed (s : string) : allChars notComma s = true -> firstToken s = s.
Proof.
  induction s as [ | c r IH]; simpl; [ reflexivity | ].
  intros H; apply andb_true_iff in H as [Hc Hr].
  unfold notComma in Hc; apply negb_true_iff in Hc.
  now rewrite Hc, IH.
Qed.

Section Dropping.

Variable p : ascii -> bool.
Variable q : ascii -> bool.

Lemma dropFirstWhile_all (s : string) :
  allChars q s = true -> allChars q (dropFirstWhile p s) = true.
Proof.
  induction s as [ | c r IH]; simpl; [ reflexivity | ].
  intros H; destruct (p c); [ | exact H ].
  apply andb_true_iff in H as [_ Hr]; auto.
Qed.

Lemma dropLastWhile_all (s : string) :
  allChars q s = true -> allChars q (dropLastWhile p s) = true.
Proof.
  induction s as [ | c r IH]; simpl; [ reflexivity | ].
  intros H; apply andb_true_iff in H as [Hc Hr].
  specialize (IH Hr).
  destruct (dropLastWhile p r) as [ | c' r'].
  - destruct (p c); simpl; [ reflexivity | now rewrite Hc ].
  - change (allChars q (String c (String c' r'))) with (q c && allChars q (String c' r')).
    now rewrite Hc, IH.
Qed.

Lemma dropFirstIf_all (s : string) :
  allChars q s = true -> allChars q (dropFirstIf p s) = true.
Proof.
  destruct s as [ | c r]; simpl; [ reflexivity | ].
  intros H; destruct (p c); [ | exact H ].
  now apply andb_true_iff in H as [_ Hr].
Qed.

Lemma dropLastIf_all (s : string) :
  allChars q s = true -> allChars q (dropLastIf p s) = true.
Proof.
  induction s as [ | c r IH]; [ reflexivity | ].
  intros H; simpl in H; apply andb_true_iff in H as [Hc Hr].
  specialize (IH Hr).
  destruct r as [ | c' r'].
  - simpl; destruct (p c); simpl; [ reflexivity | now rewrite Hc ].
  - change (dropLastIf p (String c (String c' r')))
      with (String c (dropLastIf p (String c' r'))).
    change (q c && allChars q (dropLastIf p (String c' r')) = true).
    now rewrite Hc, IH.
Qed.

Lemma dropFirstWhile_fixed (s : string) : firstIs p s = false -> dropFirstWhile p s = s.
Proof. destruct s as [ | c r]; simpl; [ reflexivity | intros H; now rewrite H ]. Qed.

Lemma dropFirstIf_fixed (s : string) : firstIs p s = false -> dropFirstIf p s = s.
Proof. destruct s as [ | c r]; simpl; [ reflexivity | intros H; now rewrite H ]. Qed.

Lemma dropLastWhile_fixed (s : string) : lastIs p s = false -> dropLastWhile p s = s.
Proof.
  induction s as [ | c r IH]; [ reflexivity | ].
  destruct r as [ | c' r'].
  - simpl; intros H; now rewrite H.
  - intros H. change (lastIs p (String c (String c' r'))) with (lastIs p (String c' r')) in H.
    specialize (IH H).
    change (dropLastWhile p (String c (String c' r')))
      with (match dropLastWhile p (String c' r') with
            | EmptyString => if p c then EmptyString else String c EmptyString
            | r0 => String c r0
            end).
    now rewrite IH.
Qed.

Lemma dropLastIf_fixed (s : string) : lastIs p s = false -> dropLastIf p s = s.
Proof.
  induction s as [ | c r IH]; [ reflexivity | ].
  destruct r as [ | c' r'].
  - simpl; intros H; now rewrite H.
  - intros H. change (lastIs p (String c (String c' r'))) with (lastIs p (String c' r')) in H.
    change (dropLastIf p (String c (String c' r')))
      with (String c (dropLastIf p (String c' r'))).
    now rewrite (IH H).
Qed.

End Dropping.

Section Lengths.

Variable p : ascii -> bool.

Lemma dropFirstWhile_length (s : string) :
  (String.length (dropFirstWhile p s) <= String.length s)%nat.
Proof.
  induction s as [ | c r IH]; simpl; [ lia | ].
  destruct (p c); simpl; lia.
Qed.

Lemma dropFirstWhile_shorter (s : string) :
  firstIs p s = true -> (String.length (dropFirstWhile p s) < String.length s)%nat.
Proof.
  destruct s as [ | c r]; simpl; [ discriminate | ].
  intros H; rewrite H. pose proof (dropFirstWhile_length r). lia.
Qed.

Lemma dropLastWhile_length (s : string) :
  (String.length (dropLastWhile p s) <= String.length s)%nat.
Proof.
  induction s as [ | c r IH]; simpl; [ lia | ].
  destruct (dropLastWhile p r) as [ | c' r']; [ destruct (p c) | ]; simpl in *; lia.
Qed.

Lemma dropLastWhile_shorter (s : string) :
  lastIs p s = true -> (String.length (dropLastWhile p s) < String.length s)%nat.
Proof.
  induction s as [ | c r IH]; [ discriminate | ].
  destruct r as [ | c' r'].
  - simpl; intros H; rewrite H; simpl; lia.
  - intros H. change (lastIs p (String c (String c' r'))) with (lastIs p (String c' r')) in H.
    specialize (IH H).
    change (dropLastWhile p (String c (String c' r')))
      with (match dropLastWhile p (String c' r') with
            | EmptyString => if p c then EmptyString else String c EmptyString
            | r0 => String c r0
            end).
    destruct (dropLastWhile p (String c' r')) as [ | c2 r2]; [ destruct (p c) | ];
      simpl in *; lia.
Qed.

Lemma dropFirstIf_length (s : string) :
  (String.length (dropFirstIf p s) <= String.length s)%nat.
Proof. destruct s as [ | c r]; simpl; [ lia | destruct (p c); simpl; lia ]. Qed.

Lemma dropFirstIf_shorter (s : string) :
  firstIs p s = true -> (String.length (dropFirstIf p s) < String.length s)%nat.
Proof. destruct s as [ | c r]; simpl; [ discriminate | intros H; rewrite H; lia ]. Qed.

Lemma dropLastIf_length (s : string) :
  (String.length (dropLastIf p s) <= String.length s)%nat.
Proof.
  induction s as [ | c r IH]; [ simpl; lia | ].
  destruct r as [ | c' r'].
  - simpl; destruct (p c); simpl; lia.
  - change (dropLastIf p (String c (String c' r')))
      with (String c (dropLastIf p (String c' r'))).
    simpl in *; lia.
Qed.

Lemma dropLastIf_shorter (s : string) :
  lastIs p s = true -> (String.length (dropLastIf p s) < String.length s)%nat.
Proof.
  induction s as [ | c r IH]; [ discriminate | ].
  destruct r as [ | c' r'].
  - simpl; intros H; rewrite H; simpl; lia.
  - intros H. change (lastIs p (String c (String c' r'))) with (lastIs p (String c' r')) in H.
    specialize (IH H).
    change (dropLastIf p (String c (String c' r')))
      with (String c (dropLastIf p (String c' r'))).
    simpl in *; lia.
Qed.

End Lengths.

Lemma toLowerCase_length (s : string) : String.length (toLowerCase s) = String.length s.
Proof. induction s as [ | c r IH]; simpl; congruence. Qed.

Lemma firstIs_edge_iff (s : string) :
  firstIs edge s = false <-> firstIs isSpace s = false /\ firstIs isQuote s = false.
Proof. destruct s as [ | c r]; simpl; [ tauto | apply orb_false_iff ]. Qed.

Lemma lastIs_edge_iff (s : string) :
  lastIs edge s = false <-> lastIs isSpace s = false /\ lastIs isQuote s = false.
Proof.
  induction s as [ | c r IH]; [ simpl; tauto | ].
  destruct r as [ | c' r'].
  - simpl; apply orb_false_iff.
  - exact IH.
Qed.

(** A normalized name has no comma and is in lower case. *)
Lemma normalize_shape (s n : string) :
  normalize s = Some n -> allChars notComma n = true /\ toLowerCase n = n.
Proof.
  unfold normalize; destruct (truthy s); [ | discriminate ].
  intros H; inversion H; subst n; clear H.
  split; [ | apply toLowerCase_idempotent ].
  rewrite toLowerCase_notComma.
  unfold stripQuotes, trim.
  apply dropLastIf_all, dropFirstIf_all, dropLastWhile_all, dropFirstWhile_all,
    firstToken_notComma.
Qed.

(** Conversely, a normalized name on which [normalize] is the identity is
    not empty and has no whitespace or quote at either end. *)
Lemma normalize_fixed_is_clean (s n : string) :
  normalize s = Some n ->
  normalize n = Some n ->
  n <> EmptyString /\ firstIs edge n = false /\ lastIs edge n = false.
Proof.
  intros Hn Hfix.
  destruct (normalize_shape s n Hn) as [Hcomma Hlower].
  unfold normalize in Hfix.
  destruct n as [ | c r]; [ discriminate | ].
  cbn [truthy] in Hfix.
  rewrite (firstToken_fixed _ Hcomma) in Hfix.
  set (n := String c r) in *.
  injection Hfix as Hfix.
  assert (Hlen : String.length (stripQuotes (trim n)) = String.length n).
  { rewrite <- (toLowerCase_length (stripQuotes (trim n))). now rewrite Hfix. }
  unfold stripQuotes, trim in Hlen.
  pose proof (dropFirstWhile_length isSpace n) as L1.
  pose proof (dropLastWhile_length isSpace (dropFirstWhile isSpace n)) as L2.
  pose proof (dropFirstIf_length isQuote (dropLastWhile isSpace (dropFirstWhile isSpace n))) as L3.
  pose proof (dropLastIf_length isQuote
                (dropFirstIf isQuote (dropLastWhile isSpace (dropFirstWhile isSpace n)))) as L4.
  assert (Fs : firstIs isSpace n = false).
  { destruct (firstIs isSpace n) eqn:E; [ | reflexivity ].
    pose proof (dropFirstWhile_shorter isSpace n E). lia. }
  rewrite (dropFirstWhile_fixed isSpace n Fs) in *.
  assert (Ls : lastIs isSpace n = false).
  { destruct (lastIs isSpace n) eqn:E; [ | reflexivity ].
    pose proof (dropLastWhile_shorter isSpace n E). lia. }
  rewrite (dropLastWhile_fixed isSpace n Ls) in *.
  assert (Fq : firstIs isQuote n = false).
  { destruct (firstIs isQuote n) eqn:E; [ | reflexivity ].
    pose proof (dropFirstIf_shorter isQuote n E). lia. }
  rewrite (dropFirstIf_fixed isQuote n Fq) in *.
  assert (Lq : lastIs isQuote n = false).
  { destruct (lastIs isQuote n) eqn:E; [ | reflexivity ].
    pose proof (dropLastIf_shorter isQuote n E). lia. }
  split; [ discriminate | ].
  split; [ now apply firstIs_edge_iff | now apply lastIs_edge_iff ].
Qed.

(** A normalized name that is not empty and has no whitespace or quote
    at either end is left unchanged by [normalize]. *)
Lemma normalize_clean_is_fixed (s n : string) :
  normalize s = Some n ->
  n <> EmptyString ->
  firstIs edge n = false ->
  lastIs edge n = false ->
  normalize n = Some n.
Proof.
  intros Hn Hne Hfirst Hlast.
  destruct (normalize_shape s n Hn) as [Hcomma Hlower].
  apply firstIs_edge_iff in Hfirst as [Fs Fq].
  apply lastIs_edge_iff in Hlast as [Ls Lq].
  unfold normalize.
  destruct n as [ | c r]; [ now contradiction Hne | ].
  cbn [truthy].
  rewrite (firstToken_fixed _ Hcomma).
  unfold trim, stripQuotes.
  rewrite (dropFirstWhile_fixed isSpace _ Fs), (dropLastWhile_fixed isSpace _ Ls).
  rewrite (dropFirstIf_fixed isQuote _ Fq), (dropLastIf_fixed isQuote _ Lq).
  now rewrite Hlower.
Qed.

(** C5, as amended.  Normalizing a normalized name returns it unchanged
    exactly when the name is not empty and neither begins nor ends with
    whitespace or a quote character. *)
Theorem normalize_idempotent_on_clean_names (s n : string) :
  normalize s = Some n ->
  (normalize n = Some n
   <-> n <> EmptyString /\ firstIs edge n = false /\ lastIs edge n = false).
Proof.
  intros Hn; split.
  - apply (normalize_fixed_is_clean s n Hn).
  - intros (Hne & Hfirst & Hlast).
    exact (normalize_clean_is_fixed s n Hn Hne Hfirst Hlast).
Qed.

End JsStrFacts.

(** C5, the claim as stated fails: a quoted family that starts with a
    space normalizes to a name with a leading space, which normalizes to
    another name. *)
Lemma normalize_not_idempotent :
  JsStr.normalize JsStr.paddedFamily = Some " open sans"
  /\ JsStr.normalize " open sans" = Some "open sans"
  /\ JsStr.normalize " open sans" <> Some " open sans".
Proof. repeat split; discriminate. Qed.

(** C5, as amended, on a quoted family. *)
Lemma normalize_idempotent_on_clean_names_witness :
  JsStr.normalize "roboto slab" = Some "roboto slab".
Proof.
  apply (proj2 (JsStrFacts.normalize_idempotent_on_clean_names
                  "'Roboto Slab', serif" "roboto slab" eq_refl)).
  repeat split; discriminate.
Defined.

(** ** Remarks on the edges of the claims *)

(** When the site answers 404 in the fallback session too, the fallback
    pass throws and the analyze route answers 500 [analyze_failed]. *)
Example persistent_404_is_analyze_failed :
  completion (run scripted (Rev3.app analyzeReq) notFoundScript)
  = Returned {| http_status := 500;
                http_body :=
                  ErrorBody "analyze_failed" "No se pudo cargar la URL (status=404)" |}.
Proof. reflexivity. Qed.

(** The statements of [withPage] that build the session stand before its
    [try] block: a browser whose context cannot be created is launched, no
    session is acquired, and nothing closes that browser. *)
Example browser_without_session_is_not_closed :
  let t := trace (run scripted (Rev3.withPage (Rev3.fallbackPass siteUrl) 1366 768)
                    noContextScript) in
  count isLaunch t = 1%nat /\ count isAcquire t = 0%nat /\ count isRelease t = 0%nat.
Proof. repeat split. Qed.

(** On the analyze request whose first session gets no context, the
    browsers are kept in turn with the first one abandoned, and with no
    other list of abandoned browsers. *)
Example abandoned_browser_is_listed :
  let t := trace (run scripted (Rev3.app analyzeReq) noContextScript) in
  oneBrowserAtATime noBrowser [] [1%nat] t
  /\ ~ oneBrowserAtATime noBrowser [] [] t.
Proof.
  split.
  - vm_compute. repeat split.
  - vm_compute. intros H.
    repeat match goal with H : _ /\ _ |- _ => destruct H end.
    discriminate.
Qed.

(** With the secret set, a request whose body is not JSON is answered 400
    by the framework without the header being looked at. *)
Example unparsed_body_is_not_gated :
  run scripted (Rev2.app secretEnv unparsedReq) []
  = (Returned {| http_status := 400; http_body := ErrorPage |}, [], []).
Proof. reflexivity. Qed.

(** With the secret set, the request that carries it reaches the routes. *)
Example bearer_accepted :
  completion (run scripted
                (Rev2.app secretEnv
                   {| route := GET_health;
                      authorization := Some "Bearer s3cret";
                      body := None |}) [])
  = Returned {| http_status := 200; http_body := HealthBody |}.
Proof. reflexivity. Qed.

(** * Further properties of the code *)

(** ** The font script *)

Lemma fontFamilies_fold (doc : Document) :
  fontFamilies doc = fold_left addFamily (elements doc) [].
Proof. reflexivity. Qed.

Lemma existsb_eqb_In (x : string) (set : list string) :
  existsb (String.eqb x) set = true <-> In x set.
Proof.
  rewrite existsb_exists; split.
  - intros [y [Hy E]]. apply String.eqb_eq in E; now subst y.
  - intros H; exists x; split; [ exact H | apply String.eqb_refl ].
Qed.

Lemma setAdd_In (x y : string) (set : list string) :
  In y (setAdd x set) <-> In y set \/ y = x.
Proof.
  unfold setAdd.
  destruct (existsb (String.eqb x) set) eqn:E.
  - apply existsb_eqb_In in E. split; [ now left | intros [H | H]; [ exact H | now subst y ] ].
  - rewrite in_app_iff; simpl. intuition.
Qed.

Lemma setAdd_NoDup (x : string) (set : list string) : NoDup set -> NoDup (setAdd x set).
Proof.
  intros Hnd; unfold setAdd.
  destruct (existsb (String.eqb x) set) eqn:E; [ exact Hnd | ].
  assert (Hx : ~ In x set).
  { intros Hin. apply existsb_eqb_In in Hin. congruence. }
  clear E. induction Hnd as [ | y l Hy Hl IH]; simpl.
  - constructor; [ intros [] | constructor ].
  - constructor.
    + rewrite in_app_iff; simpl. intros [H | [H | []]]; [ now apply Hy | subst y; apply Hx; now left ].
    + apply IH. intros H; apply Hx; now right.
Qed.

Lemma setAdd_extends (x : string) (set : list string) :
  exists ext, setAdd x set = set ++ ext /\ (List.length ext <= 1)%nat.
Proof.
  unfold setAdd. destruct (existsb (String.eqb x) set).
  - exists []; split; [ now rewrite app_nil_r | simpl; lia ].
  - exists [x]; split; [ reflexivity | simpl; lia ].
Qed.

Lemma addFamily_extends (set : list string) (el : Element) :
  exists ext, addFamily set el = set ++ ext /\ (List.length ext <= 1)%nat.
Proof.
  unfold addFamily.
  destruct (JsStr.normalize (fontFamily el)) as [fam | ];
    [ destruct (JsStr.truthy fam) | ];
    try apply setAdd_extends;
    (exists []; split; [ now rewrite app_nil_r | simpl; lia ]).
Qed.

Lemma fold_addFamily_extends (els : list Element) (set : list string) :
  exists ext, fold_left addFamily els set = set ++ ext
              /\ (List.length ext <= List.length els)%nat.
Proof.
  revert set; induction els as [ | el els IH]; intros set; simpl.
  - exists []; split; [ now rewrite app_nil_r | simpl; lia ].
  - destruct (addFamily_extends set el) as (e1 & E1 & L1).
    destruct (IH (addFamily set el)) as (e2 & E2 & L2).
    exists (e1 ++ e2); split.
    + now rewrite E2, E1, app_assoc.
    + rewrite length_app; lia.
Qed.

Lemma fold_addFamily_NoDup (els : list Element) (set : list string) :
  NoDup set -> NoDup (fold_left addFamily els set).
Proof.
  revert set; induction els as [ | el els IH]; intros set Hnd; simpl; [ exact Hnd | ].
  apply IH. unfold addFamily.
  destruct (JsStr.normalize (fontFamily el)) as [fam | ]; [ | exact Hnd ].
  destruct (JsStr.truthy fam); [ now apply setAdd_NoDup | exact Hnd ].
Qed.

Lemma truthy_nonempty (s : string) : JsStr.truthy s = true <-> s <> "".
Proof. destruct s; simpl; split; intros H; try discriminate; try reflexivity; now contradiction H. Qed.

Lemma fold_addFamily_In (els : list Element) (set : list string) (n : string) :
  In n (fold_left addFamily els set) <->
  In n set \/ (n <> "" /\ exists el, In el els /\ JsStr.normalize (fontFamily el) = Some n).
Proof.
  revert set; induction els as [ | el els IH]; intros set; simpl.
  - split; [ now left | intros [H | [_ [el [[] _]]]]; exact H ].
  - rewrite IH. unfold addFamily.
    destruct (JsStr.normalize (fontFamily el)) as [fam | ] eqn:En.
    + destruct (JsStr.truthy fam) eqn:Et.
      * rewrite setAdd_In. apply truthy_nonempty in Et.
        split.
        -- intros [[H | H] | (Hn & el' & Hin & Hel)].
           ++ now left.
           ++ subst n. right; split; [ exact Et | ]. exists el; split; [ now left | exact En ].
           ++ right; split; [ exact Hn | ]. exists el'; split; [ now right | exact Hel ].
        -- intros [H | (Hn & el' & [Heq | Hin] & Hel)].
           ++ left; now left.
           ++ subst el'. rewrite En in Hel; inversion Hel; subst. left; now right.
           ++ right; split; [ exact Hn | ]. now exists el'.
      * split.
        -- intros [H | (Hn & el' & Hin & Hel)]; [ now left | ].
           right; split; [ exact Hn | ]. exists el'; split; [ now right | exact Hel ].
        -- intros [H | (Hn & el' & [Heq | Hin] & Hel)]; [ now left | | ].
           ++ subst el'. rewrite En in Hel; inversion Hel; subst.
              apply truthy_nonempty in Hn. congruence.
           ++ right; split; [ exact Hn | ]. now exists el'.
    + split.
      * intros [H | (Hn & el' & Hin & Hel)]; [ now left | ].
        right; split; [ exact Hn | ]. exists el'; split; [ now right | exact Hel ].
      * intros [H | (Hn & el' & [Heq | Hin] & Hel)]; [ now left | | ].
        -- subst el'. congruence.
        -- right; split; [ exact Hn | ]. now exists el'.
Qed.

(** X1.  The families the font script returns are exactly the non-empty
    normalized first families of the elements of the document, each listed
    once; every one of them is in lower case and holds no comma. *)
Theorem fontFamilies_distinct_normalized (doc : Document) :
  NoDup (fontFamilies doc)
  /\ (forall n,
        In n (fontFamilies doc) <->
        n <> "" /\ exists el, In el (elements doc)
                              /\ JsStr.normalize (fontFamily el) = Some n)
  /\ (forall n,
        In n (fontFamilies doc) ->
        JsStr.toLowerCase n = n /\ JsStr.allChars JsStr.notComma n = true).
Proof.
  rewrite fontFamilies_fold.
  split; [ apply fold_addFamily_NoDup; constructor | ].
  assert (Hin : forall n,
             In n (fold_left addFamily (elements doc) []) <->
             n <> "" /\ exists el, In el (elements doc)
                                   /\ JsStr.normalize (fontFamily el) = Some n).
  { intros n. rewrite fold_addFamily_In. simpl. tauto. }
  split; [ exact Hin | ].
  intros n H. apply Hin in H as (_ & el & _ & Hel).
  destruct (JsStrFacts.normalize_shape _ _ Hel) as [Hc Hl]. now split.
Qed.

(** X2.  The font script lists families in order of first occurrence: the
    list for a document is a prefix of the list for the same document with
    more elements appended, and it never has more entries than the document
    has elements. *)
Theorem fontFamilies_first_occurrence_order (els more : list Element) (imgs : list Img) :
  (exists ext,
     fontFamilies {| elements := els ++ more; images := imgs |}
     = fontFamilies {| elements := els; images := imgs |} ++ ext)
  /\ len (fontFamilies {| elements := els; images := imgs |}) <= len els.
Proof.
  rewrite !fontFamilies_fold; simpl.
  split.
  - rewrite fold_left_app.
    destruct (fold_addFamily_extends more (fold_left addFamily els [])) as (ext & E & _).
    now exists ext.
  - destruct (fold_addFamily_extends els []) as (ext & E & L).
    rewrite E; simpl; unfold len. lia.
Qed.

(** ** Normalization of one computed value *)

Module NormalizeFacts.

Import JsStr.

Lemma lowerChar_isComma (c : ascii) : isComma (lowerChar c) = isComma c.
Proof. destruct c as [[] [] [] [] [] [] [] []]; reflexivity. Qed.

Lemma lowerChar_isSpace (c : ascii) : isSpace (lowerChar c) = isSpace c.
Proof. destruct c as [[] [] [] [] [] [] [] []]; reflexivity. Qed.

Lemma lowerChar_isQuote (c : ascii) : isQuote (lowerChar c) = isQuote c.
Proof. destruct c as [[] [] [] [] [] [] [] []]; reflexivity. Qed.

Lemma firstToken_lower (s : string) :
  firstToken (toLowerCase s) = toLowerCase (firstToken s).
Proof.
  induction s as [ | c r IH]; simpl; [ reflexivity | ].
  rewrite lowerChar_isComma. destruct (isComma c); simpl; [ reflexivity | now rewrite IH ].
Qed.

Section Commute.

Variable p : ascii -> bool.
Hypothesis p_lower : forall c, p (lowerChar c) = p c.

Lemma dropFirstWhile_lower (s : string) :
  dropFirstWhile p (toLowerCase s) = toLowerCase (dropFirstWhile p s).
Proof.
  induction s as [ | c r IH]; simpl; [ reflexivity | ].
  rewrite p_lower. destruct (p c); [ exact IH | reflexivity ].
Qed.

Lemma dropLastWhile_lower (s : string) :
  dropLastWhile p (toLowerCase s) = toLowerCase (dropLastWhile p s).
Proof.
  induction s as [ | c r IH]; simpl; [ reflexivity | ].
  rewrite IH, p_lower.
  destruct (dropLastWhile p r) as [ | c' r']; simpl; [ destruct (p c) | ]; reflexivity.
Qed.

Lemma dropFirstIf_lower (s : string) :
  dropFirstIf p (toLowerCase s) = toLowerCase (dropFirstIf p s).
Proof.
  destruct s as [ | c r]; simpl; [ reflexivity | ].
  rewrite p_lower. destruct (p c); reflexivity.
Qed.

Lemma dropLastIf_lower (s : string) :
  dropLastIf p (toLowerCase s) = toLowerCase (dropLastIf p s).
Proof.
  induction s as [ | c r IH]; [ reflexivity | ].
  destruct r as [ | c' r'].
  - simpl. rewrite p_lower. destruct (p c); reflexivity.
  - change (toLowerCase (String c (String c' r')))
      with (String (lowerChar c) (toLowerCase (String c' r'))).
    change (dropLastIf p (String c (String c' r')))
      with (String c (dropLastIf p (String c' r'))).
    change (toLowerCase (String c' r')) with (String (lowerChar c') (toLowerCase r')) at 1.
    change (dropLastIf p (String (lowerChar c) (String (lowerChar c') (toLowerCase r'))))
      with (String (lowerChar c) (dropLastIf p (String (lowerChar c') (toLowerCase r')))).
    change (String (lowerChar c') (toLowerCase r')) with (toLowerCase (String c' r')).
    now rewrite IH.
Qed.

End Commute.

Lemma firstToken_before_comma (a b : string) :
  allChars notComma a = true -> firstToken (a ++ String "," b) = a.
Proof.
  induction a as [ | c r IH]; simpl; [ reflexivity | ].
  intros H; apply andb_true_iff in H as [Hc Hr].
  unfold notComma in Hc; apply negb_true_iff in Hc.
  now rewrite Hc, IH.
Qed.

Lemma truthy_append_comma (a b : string) : truthy (a ++ String "," b) = true.
Proof. destruct a; reflexivity. Qed.

(** X3.  [normalize] answers [null] on the empty string only; it reads
    nothing past the first comma, so the fallback families of a computed
    value do not matter; and it does not depend on the case of its input,
    so spellings that differ in case are one family. *)
Theorem normalize_first_family_caseless :
  (forall s, normalize s = None <-> s = "")
  /\ (forall a b,
        allChars notComma a = true ->
        normalize (a ++ String "," b) = Some (toLowerCase (stripQuotes (trim a))))
  /\ (forall s, normalize (toLowerCase s) = normalize s).
Proof.
  repeat split.
  - destruct s; simpl; [ reflexivity | discriminate ].
  - intros ->; reflexivity.
  - intros a b Ha. unfold normalize.
    now rewrite truthy_append_comma, (firstToken_before_comma a b Ha).
  - intros s. unfold normalize.
    destruct s as [ | c r]; [ reflexivity | ].
    cbn [toLowerCase truthy].
    change (String (lowerChar c) (toLowerCase r)) with (toLowerCase (String c r)).
    f_equal. unfold stripQuotes, trim.
    rewrite firstToken_lower.
    rewrite (dropFirstWhile_lower isSpace lowerChar_isSpace).
    rewrite (dropLastWhile_lower isSpace lowerChar_isSpace).
    rewrite (dropFirstIf_lower isQuote lowerChar_isQuote).
    rewrite (dropLastIf_lower isQuote lowerChar_isQuote).
    apply JsStrFacts.toLowerCase_idempotent.
Qed.

End NormalizeFacts.

(** X3, on a computed value with two fallback families. *)
Lemma normalize_first_family_caseless_witness :
  JsStr.normalize "Helvetica Neue, Arial, sans-serif" = Some "helvetica neue".
Proof.
  apply (proj1 (proj2 NormalizeFacts.normalize_first_family_caseless)
           "Helvetica Neue" " Arial, sans-serif").
  reflexivity.
Defined.

(** ** The scorer, as a function of the two counts *)

Lemma findingsOf_nil (fonts : list string) (dist : list DistortedImage) :
  findingsOf fonts dist = [] <-> len fonts <= 3 /\ dist = [].
Proof.
  unfold findingsOf, maxFamilies.
  rewrite Z.gtb_ltb.
  destruct (Z.ltb_spec 3 (len fonts)); destruct dist as [ | d dist]; simpl;
    split; try discriminate; try (intros [? ?]; try discriminate; lia);
    intros _; split; try reflexivity; lia.
Qed.

Lemma len_nonneg {A : Type} (l : list A) : 0 <= len l.
Proof. unfold len; lia. Qed.

Lemma len_zero {A : Type} (l : list A) : len l = 0 <-> l = [].
Proof.
  unfold len; destruct l as [ | a l]; simpl; split; intros H;
    try reflexivity; try discriminate; lia.
Qed.

(** X4.  The score never goes up when a page has more font families or
    more distorted images.  It is 100 exactly when the findings list is
    empty, which is exactly when both category scores are 95; it sits on its
    floor of 50 exactly when the penalties add up to 50 or more. *)
Theorem score_antitone_and_extremes :
  (forall (f1 f2 : list string) (d1 d2 : list DistortedImage),
     len f1 <= len f2 -> len d1 <= len d2 -> score f2 d2 <= score f1 d1)
  /\ (forall (url : json) (nav : Response) (fonts : list string) (dist : list DistortedImage),
        let r := analysisResult url nav fonts dist in
        (r_score r = 100 <-> findings r = [])
        /\ (r_score r = 100 <->
            typography (byCategory r) = 95 /\ logos (byCategory r) = 95)
        /\ (r_score r = 50 <->
            50 <= 10 * len dist + 5 * Z.max 0 (len fonts - 3))).
Proof.
  split.
  - intros f1 f2 d1 d2 Hf Hd. unfold score, maxFamilies. lia.
  - intros url nav fonts dist; cbv zeta.
    unfold analysisResult; cbn [r_score findings byCategory].
    pose proof (len_nonneg fonts) as Hf. pose proof (len_nonneg dist) as Hd.
    rewrite findingsOf_nil, <- (len_zero dist).
    unfold byCategoryOf, score, maxFamilies; cbn [typography logos].
    rewrite Z.gtb_ltb.
    destruct (Z.ltb_spec 3 (len fonts)); destruct (Z.eqb_spec (len dist) 0);
      repeat split; intros; try lia;
      repeat match goal with H : _ /\ _ |- _ => destruct H end; try lia; try discriminate.
Qed.

(** X4, on two pages of the same fonts, the second with one more
    distorted image. *)
Lemma score_antitone_and_extremes_witness :
  score (fontFamilies auditDoc) (distorted auditDoc ++ distorted auditDoc)
  <= score (fontFamilies auditDoc) (distorted auditDoc).
Proof.
  apply (proj1 score_antitone_and_extremes); vm_compute; discriminate.
Defined.

(** ** Images that are never reported *)

Lemma SFsub_diag (s : bool) (m : positive) (e : Z) :
  SFsub JsNum.prec JsNum.emax (S754_finite s m e) (S754_finite s m e) = S754_zero false.
Proof. unfold SFsub. now rewrite Z.sub_diag. Qed.

Lemma not_above_zero (t : JsNum.num) :
  JsNum.le JsNum.zero t = true -> JsNum.gt JsNum.zero t = false.
Proof.
  intros H. unfold JsNum.gt.
  exact (SF_le_le_not_lt JsNum.zero t JsNum.zero eq_refl H).
Qed.

Lemma natural_size_delta (img : Img) :
  idlTyped img -> unmeasured img = false ->
  clientWidth img = naturalWidth img -> clientHeight img = naturalHeight img ->
  delta img = JsNum.zero.
Proof.
  intros (Hnw & Hnh & _ & _) Hm Hw Hh.
  apply unmeasured_false in Hm as (Nnw & Nnh & _ & _).
  assert (P31 : 0 < 2 ^ 31) by reflexivity.
  destruct (ratio_finite (naturalWidth img) (naturalHeight img)) as (mn & en & En);
    try assumption; try lia.
  replace (naturalWidth img <? 0) with false in En by (symmetry; apply Z.ltb_ge; lia).
  replace (naturalHeight img <? 0) with false in En by (symmetry; apply Z.ltb_ge; lia).
  unfold delta, rendAR, natAR. rewrite Hw, Hh, En.
  unfold JsNum.sub. rewrite SFsub_diag. reflexivity.
Qed.

(** X5.  An image that has not loaded or has no layout box (one of the
    four measurements is zero) is not reported at any threshold, and an
    image displayed at exactly its natural size is not reported at any
    threshold that is not negative.  A page whose measured images are all
    displayed at their natural size thus has no distorted image. *)
Theorem natural_size_images_not_reported :
  (forall (t : JsNum.num) (img : Img), unmeasured img = true -> flaggedAt t img = false)
  /\ (forall (t : JsNum.num) (img : Img),
        JsNum.le JsNum.zero t = true ->
        idlTyped img -> unmeasured img = false ->
        clientWidth img = naturalWidth img -> clientHeight img = naturalHeight img ->
        flaggedAt t img = false)
  /\ (forall doc : Document,
        (forall img, In img (images doc) ->
           unmeasured img = true
           \/ (idlTyped img /\ clientWidth img = naturalWidth img
               /\ clientHeight img = naturalHeight img)) ->
        distorted doc = []).
Proof.
  assert (H1 : forall (t : JsNum.num) (img : Img),
             unmeasured img = true -> flaggedAt t img = false).
  { intros t img Hu. unfold flaggedAt. now rewrite Hu. }
  assert (H2 : forall (t : JsNum.num) (img : Img),
             JsNum.le JsNum.zero t = true ->
             idlTyped img -> unmeasured img = false ->
             clientWidth img = naturalWidth img -> clientHeight img = naturalHeight img ->
             flaggedAt t img = false).
  { intros t img Ht Hty Hm Hw Hh. unfold flaggedAt.
    rewrite (natural_size_delta img Hty Hm Hw Hh), (not_above_zero t Ht).
    apply andb_false_r. }
  split; [ exact H1 | split; [ exact H2 | ] ].
  intros doc Hall. unfold distorted, distortedAt.
  induction (images doc) as [ | img imgs IH]; [ reflexivity | ].
  cbn [filter].
  assert (Hf : flaggedAt THRESHOLD img = false).
  { destruct (Hall img (or_introl eq_refl)) as [Hu | (Hty & Hw & Hh)].
    - now apply H1.
    - destruct (unmeasured img) eqn:Hm; [ now apply H1 | ].
      apply H2; try assumption. reflexivity. }
  rewrite Hf. apply IH. intros i Hi. apply Hall. now right.
Qed.

(** X5, on a page with a faithful logo and an image that has not loaded. *)
Lemma natural_size_images_not_reported_witness : distorted faithfulDoc = [].
Proof.
  apply (proj2 (proj2 natural_size_images_not_reported) faithfulDoc).
  intros img [<- | [<- | []]].
  - right. unfold idlTyped; vm_compute; intuition discriminate.
  - left; reflexivity.
Defined.

(** X1, on the audited page. *)
Lemma fontFamilies_distinct_normalized_witness :
  JsStr.toLowerCase "roboto slab" = "roboto slab"
  /\ JsStr.allChars JsStr.notComma "roboto slab" = true.
Proof.
  apply (proj2 (proj2 (fontFamilies_distinct_normalized auditDoc)) "roboto slab").
  vm_compute; tauto.
Defined.

(** ** Invariants and bounds on the calls of a program *)

Lemma atMost_mono {A : Type} (sel : forall X : Type, EngineCall X -> bool)
    (p : Prog A) :
  forall n m, (n <= m)%nat -> atMost sel n p -> atMost sel m p.
Proof.
  induction p as [a | e | X c k IH]; simpl; auto.
  intros n m Hnm. destruct (sel X c).
  - destruct n as [ | n']; [ intros [] | ].
    destruct m as [ | m']; [ lia | ].
    intros H o. apply (IH o n' m'); [ lia | apply H ].
  - intros H o. apply (IH o n m Hnm), H.
Qed.

Lemma atMost_bind {A B : Type} (sel : forall X : Type, EngineCall X -> bool)
    (p : Prog A) (f : A -> Prog B) (m : nat) :
  (forall a, atMost sel m (f a)) ->
  forall n, atMost sel n p -> atMost sel (n + m) (bind p f).
Proof.
  intros Hf. induction p as [a | e | X c k IH]; simpl; intros n Hp.
  - apply (atMost_mono sel (f a) m); [ lia | apply Hf ].
  - exact I.
  - destruct (sel X c).
    + destruct n as [ | n']; [ destruct Hp | ].
      intros o. apply (IH o n'), Hp.
    + intros o. apply (IH o n), Hp.
Qed.

Lemma atMost_tryCatch {A : Type} (sel : forall X : Type, EngineCall X -> bool)
    (p : Prog A) (h : JsError -> Prog A) (m : nat) :
  (forall e, atMost sel m (h e)) ->
  forall n, atMost sel n p -> atMost sel (n + m) (tryCatch p h).
Proof.
  intros Hh. induction p as [a | e | X c k IH]; simpl; intros n Hp.
  - exact I.
  - apply (atMost_mono sel (h e) m); [ lia | apply Hh ].
  - destruct (sel X c).
    + destruct n as [ | n']; [ destruct Hp | ].
      intros o. apply (IH o n'), Hp.
    + intros o. apply (IH o n), Hp.
Qed.

Lemma atMost_tryFinally {A : Type} (sel : forall X : Type, EngineCall X -> bool)
    (p : Prog A) (fin : Prog unit) (m : nat) :
  atMost sel m fin ->
  forall n, atMost sel n p -> atMost sel (n + m) (tryFinally p fin).
Proof.
  intros Hfin. induction p as [a | e | X c k IH]; simpl; intros n Hp.
  - apply (atMost_mono sel _ (m + 0)); [ lia | ].
    apply atMost_bind; [ intros; exact I | exact Hfin ].
  - apply (atMost_mono sel _ (m + 0)); [ lia | ].
    apply atMost_bind; [ intros; exact I | exact Hfin ].
  - destruct (sel X c).
    + destruct n as [ | n']; [ destruct Hp | ].
      intros o. apply (IH o n'), Hp.
    + intros o. apply (IH o n), Hp.
Qed.

Lemma atMost_await {X : Type} (sel : forall X : Type, EngineCall X -> bool)
    (c : EngineCall X) :
  atMost sel (if sel X c then 1 else 0) (await c).
Proof. simpl. destruct (sel X c); intros [x | e]; exact I. Qed.

Lemma always_bind {A B : Type} (P : forall X : Type, EngineCall X -> Prop)
    (p : Prog A) (f : A -> Prog B) :
  always P p -> (forall a, always P (f a)) -> always P (bind p f).
Proof.
  induction p as [a | e | X c k IH]; simpl; intros Hp Hf; auto.
  destruct Hp as [Hc Hk]; split; auto.
Qed.

Lemma always_tryCatch {A : Type} (P : forall X : Type, EngineCall X -> Prop)
    (p : Prog A) (h : JsError -> Prog A) :
  always P p -> (forall e, always P (h e)) -> always P (tryCatch p h).
Proof.
  induction p as [a | e | X c k IH]; simpl; intros Hp Hh; auto.
  destruct Hp as [Hc Hk]; split; auto.
Qed.

Lemma always_tryFinally {A : Type} (P : forall X : Type, EngineCall X -> Prop)
    (p : Prog A) (fin : Prog unit) :
  always P p -> always P fin -> always P (tryFinally p fin).
Proof.
  induction p as [a | e | X c k IH]; simpl; intros Hp Hfin.
  - apply always_bind; [ exact Hfin | intros; exact I ].
  - apply always_bind; [ exact Hfin | intros; exact I ].
  - destruct Hp as [Hc Hk]; split; auto.
Qed.

Lemma always_await {X : Type} (P : forall X : Type, EngineCall X -> Prop)
    (c : EngineCall X) :
  P X c -> always P (await c).
Proof. intros Hc; simpl; split; [ exact Hc | intros [x | e]; exact I ]. Qed.

Section CallsOfRuns.

Variable world : Type.
Variable respond : forall X : Type, EngineCall X -> world -> Outcome X * world.

Local Abbreviation run := (run respond).

Lemma atMost_trace {A : Type} (sel : forall X : Type, EngineCall X -> bool)
    (p : Prog A) :
  forall n w, atMost sel n p -> (count (evSel sel) (trace (run p w)) <= n)%nat.
Proof.
  induction p as [a | e | X c k IH]; simpl; intros n w Hp; try (unfold count; simpl; lia).
  destruct (respond X c w) as [o w1].
  specialize (IH o).
  destruct (sel X c) eqn:Hsel.
  - destruct n as [ | n']; [ destruct Hp | ].
    specialize (IH n' w1 (Hp o)).
    destruct (run (k o) w1) as [[r t] w2]; unfold trace, count in *; simpl in *.
    rewrite Hsel; simpl; lia.
  - specialize (IH n w1 (Hp o)).
    destruct (run (k o) w1) as [[r t] w2]; unfold trace, count in *; simpl in *.
    rewrite Hsel; exact IH.
Qed.

Lemma always_trace {A : Type} (P : forall X : Type, EngineCall X -> Prop)
    (p : Prog A) :
  forall w, always P p -> Forall (evHolds P) (trace (run p w)).
Proof.
  induction p as [a | e | X c k IH]; simpl; intros w Hp; try constructor.
  destruct Hp as [Hc Hk].
  destruct (respond X c w) as [o w1].
  specialize (IH o w1 (Hk o)).
  destruct (run (k o) w1) as [[r t] w2]; unfold trace in *; simpl in *.
  constructor; [ exact Hc | exact IH ].
Qed.

End CallsOfRuns.

(** ** What a request may ask of the engine *)

Ltac explore :=
  repeat first
    [ exact I
    | reflexivity
    | intro
    | split
    | match goal with
      | |- context [match ?x with _ => _ end] => destruct x
      end
    | progress cbn [always atMost bind tryCatch tryFinally await
                    navigatesTo gotoCall launchCall] ].

Ltac unfold_rev3 :=
  unfold Rev3.app, cors, express_json, logRequest, Rev3.routes, Rev3.health,
    Rev3.screenshot, Rev3.analyze, Rev3.withPage, Rev3.screenshotPass,
    Rev3.analyzePass, Rev3.fallbackPass, Rev3.safeGoto.

Ltac unfold_rev2 :=
  unfold Rev2.app, cors, express_json, logRequest, Rev2.gate, Rev2.routes,
    Rev2.health, Rev2.screenshot, Rev2.analyze, Rev2.withPage, Rev2.safeGoto.

Lemma app_launches (req : Request) :
  atMost launchCall (sessionBudget (route req)) (Rev3.app req).
Proof.
  unfold sessionBudget. unfold_rev3.
  destruct (route req); explore.
Qed.

Lemma app_gotos (req : Request) :
  atMost gotoCall (2 * sessionBudget (route req)) (Rev3.app req).
Proof.
  unfold sessionBudget. unfold_rev3.
  destruct (route req); explore.
Qed.

Lemma app_navigates_to_request (req : Request) :
  always (navigatesTo (requestedUrl req)) (Rev3.app req).
Proof.
  unfold requestedUrl. unfold_rev3.
  destruct (route req); explore.
Qed.

(** ** Postconditions of the applications *)

Section Ensures.

Variable world : Type.
Variable respond : forall X : Type, EngineCall X -> world -> Outcome X * world.

Local Abbreviation run := (run respond).

Lemma ensures_run {A : Type} (Q : Trace -> Completion A -> Prop) (p : Prog A) :
  forall hist w,
    ensures Q hist p -> Q (hist ++ trace (run p w)) (completion (run p w)).
Proof.
  induction p as [a | e | X c k IH]; simpl; intros hist w Hp.
  - unfold trace, completion; simpl; now rewrite app_nil_r.
  - unfold trace, completion; simpl; now rewrite app_nil_r.
  - destruct (respond X c w) as [o w1].
    specialize (IH o (hist ++ [Ev c o]) w1 (Hp o)).
    destruct (run (k o) w1) as [[r t] w2]; unfold trace, completion in *; simpl in *.
    now rewrite <- app_assoc in IH.
Qed.

End Ensures.

(** Walks every path of a program whose calls are all written out. *)
Ltac walk leaf :=
  repeat first
    [ progress cbn [ensures bind tryCatch tryFinally await app]
    | intro
    | match goal with
      | |- ensures _ _ ?p =>
          match p with
          | context [match ?x with _ => _ end] =>
              lazymatch x with
              | context [match _ with _ => _ end] => fail
              | _ => destruct x eqn:?
              end
          end
      end ];
  leaf.

Lemma cons_split_tail {A : Type} (x : A) (l pre tl : list A) :
  l = pre ++ tl -> x :: l = (x :: pre) ++ tl.
Proof. intros ->; reflexivity. Qed.

Ltac split_tail :=
  first [ exact (eq_refl : _ = [] ++ _) | apply cons_split_tail; split_tail ].

Ltac use_ok :=
  repeat match goal with
    | H : ok _ = _ |- _ => rewrite !H
    end.

Ltac loaded_leaf :=
  cbn [readsLoadedPages loaded]; use_ok;
  cbn [readsLoadedPages loaded];
  repeat split; reflexivity.

Ltac turn_leaf :=
  unfold browsersInTurn; eexists; split;
  [ cbn [oneBrowserAtATime app]; repeat split; reflexivity
  | reflexivity ].

Ltac in_list := solve [ repeat first [ left; reflexivity | right ] ].

(** The middle revision builds its result from lists of the same lengths
    as the last one. *)
Lemma distorted2_len (doc : Document) :
  len (Rev2.distorted2 doc) = len (distorted doc).
Proof.
  unfold len, Rev2.distorted2, distorted, distortedAt.
  now rewrite !length_map.
Qed.

Lemma rev2_agrees (url : json) (nav : Response) (fontsDoc imagesDoc : Document) :
  let fonts := fontFamilies fontsDoc in
  let dist := Rev2.distorted2 imagesDoc in
  let r :=
    {| Rev2.r2_score := score fonts dist;
       Rev2.r2_findings :=
         (if len fonts >? maxFamilies
          then [{| Rev2.f2_id := "B1";
                   Rev2.f2_title := "Demasiadas familias tipográficas";
                   Rev2.f2_severity := "medium";
                   Rev2.f2_evidence := None |}]
          else [])
         ++ map (fun d =>
                   {| Rev2.f2_id := "A1";
                      Rev2.f2_title := "Imagen posiblemente distorsionada";
                      Rev2.f2_severity := "high";
                      Rev2.f2_evidence := Some d |}) dist;
       Rev2.r2_meta := {| Rev2.m2_url := url;
                          Rev2.m2_fontsDetected := fonts;
                          Rev2.m2_distortedImages := len dist |} |} in
  let last := analysisResult url nav fonts (distorted imagesDoc) in
  Rev2.r2_score r = r_score last
  /\ map headline2 (Rev2.r2_findings r) = map headline (findings last)
  /\ map reported2 (Rev2.r2_findings r) = map reported (findings last)
  /\ Rev2.m2_url (Rev2.r2_meta r) = m_url (meta last)
  /\ Rev2.m2_fontsDetected (Rev2.r2_meta r) = fontsDetected (meta last)
  /\ Rev2.m2_distortedImages (Rev2.r2_meta r) = distortedImages (meta last).
Proof.
  cbv zeta.
  cbn [Rev2.r2_score Rev2.r2_findings Rev2.r2_meta Rev2.m2_url Rev2.m2_fontsDetected
       Rev2.m2_distortedImages analysisResult r_score findings meta m_url
       fontsDetected distortedImages].
  pose proof (distorted2_len imagesDoc) as Hlen.
  repeat split.
  - unfold score; now rewrite Hlen.
  - unfold findingsOf. rewrite !map_app.
    f_equal.
    + now destruct (len (fontFamilies fontsDoc) >? maxFamilies).
    + unfold Rev2.distorted2, distorted, distortedAt.
      rewrite !map_map.
      induction (filter (flaggedAt THRESHOLD) (images imagesDoc)) as [ | img l IH];
        [ reflexivity | cbn [map]; now rewrite IH ].
  - unfold findingsOf. rewrite !map_app.
    f_equal.
    + now destruct (len (fontFamilies fontsDoc) >? maxFamilies).
    + unfold Rev2.distorted2, distorted, distortedAt.
      rewrite !map_map.
      induction (filter (flaggedAt THRESHOLD) (images imagesDoc)) as [ | img l IH];
        [ reflexivity | ].
      cbn [map]; rewrite IH.
      cbn [reported reported2 evidence findingA1 evidenceOf d_src d_deltaPct
           Rev2.f2_evidence Rev2.d2_src Rev2.d2_deltaPct Rev2.fixed_digits
           Rev2.fixed_of].
      reflexivity.
  - exact Hlen.
Qed.

Ltac shape_leaf :=
  cbn [http_status http_body status_json json_ bad_request Rev2.unauthorized];
  let Hs := fresh "Hs" in
  intros Hs;
  first
    [ discriminate Hs
    | exact I
    | repeat match goal with u : unit |- _ => destruct u end;
      do 9 eexists;
      split; [ split_tail | ];
      repeat split; first [ eassumption | reflexivity | in_list ]
    | do 10 eexists;
      split; [ split_tail | ];
      split; [ reflexivity | ];
      split; [ eassumption | ];
      split; [ reflexivity | ];
      exact (rev2_agrees _ _ _ _) ].

Ltac answer_leaf :=
  cbn [app];
  split;
  [ eexists; split; [ reflexivity | split; [ reflexivity | shape_leaf ] ]
  | split; [ loaded_leaf | turn_leaf ] ].

(** Every path of a request of the last revision ends with an answer of
    the kind of its route, a 200 answer has the shape above, and the events
    of the path read only loaded pages and keep the browsers in turn. *)
Lemma rev3_postconditions (req : Request) :
  ensures
    (fun t c =>
       (exists resp, c = Returned resp
                     /\ answerKind (route req) resp = true
                     /\ answerShape req t resp)
       /\ readsLoadedPages false t
       /\ browsersInTurn t)
    [] (Rev3.app req).
Proof.
  unfold answerShape, screenshotShape, analysisShape, captureOptions,
    captureWidth, captureHeight.
  unfold_rev3.
  destruct (route req) as [ | | | | | f]; try destruct f; walk answer_leaf.
Qed.

(** The same for the middle revision, behind its gate. *)
Lemma rev2_postconditions (env : option string) (req : Request) :
  ensures
    (fun t c =>
       (exists resp, c = Returned resp
                     /\ answerKind2 (route req) resp = true
                     /\ answerShape2 req t resp)
       /\ readsLoadedPages false t
       /\ browsersInTurn t)
    [] (Rev2.app env req).
Proof.
  unfold answerShape2, analysisShape2.
  unfold_rev2.
  destruct (route req) as [ | | | | | f]; try destruct f; walk answer_leaf.
Qed.

Lemma rev2_launches (env : option string) (req : Request) :
  atMost launchCall (sessionBudget2 (route req)) (Rev2.app env req).
Proof.
  unfold sessionBudget2. unfold_rev2.
  destruct (route req); explore.
Qed.

Lemma rev2_gotos (env : option string) (req : Request) :
  atMost gotoCall (2 * sessionBudget2 (route req)) (Rev2.app env req).
Proof.
  unfold sessionBudget2. unfold_rev2.
  destruct (route req); explore.
Qed.

Lemma rev2_navigates_to_request (env : option string) (req : Request) :
  always (navigatesTo (requestedUrl req)) (Rev2.app env req).
Proof.
  unfold requestedUrl. unfold_rev2.
  destruct (route req); explore.
Qed.

(** ** Requests against an arbitrary engine *)

Section Requests.

Variable world : Type.
Variable respond : forall X : Type, EngineCall X -> world -> Outcome X * world.

Local Abbreviation run := (run respond).

Lemma rev3_run (req : Request) (w : world) :
  (exists resp, completion (run (Rev3.app req) w) = Returned resp
                /\ answerKind (route req) resp = true
                /\ answerShape req (trace (run (Rev3.app req) w)) resp)
  /\ readsLoadedPages false (trace (run (Rev3.app req) w))
  /\ browsersInTurn (trace (run (Rev3.app req) w)).
Proof.
  exact (ensures_run world respond _ (Rev3.app req) [] w (rev3_postconditions req)).
Qed.

Lemma rev2_run (env : option string) (req : Request) (w : world) :
  (exists resp, completion (run (Rev2.app env req) w) = Returned resp
                /\ answerKind2 (route req) resp = true
                /\ answerShape2 req (trace (run (Rev2.app env req) w)) resp)
  /\ readsLoadedPages false (trace (run (Rev2.app env req) w))
  /\ browsersInTurn (trace (run (Rev2.app env req) w)).
Proof.
  exact (ensures_run world respond _ (Rev2.app env req) [] w (rev2_postconditions env req)).
Qed.

(** X6.  Whatever the engine answers, a request of the last revision
    launches at most one browser on the screenshot route, at most two on
    the analyze route (the analysis and its fallback) and none on the other
    routes, and it navigates at most twice per browser it may launch. *)
Theorem request_engine_budget (req : Request) (w : world) :
  (count (evSel launchCall) (trace (run (Rev3.app req) w))
   <= sessionBudget (route req))%nat
  /\ (count (evSel gotoCall) (trace (run (Rev3.app req) w))
      <= 2 * sessionBudget (route req))%nat.
Proof.
  split; apply atMost_trace; [ apply app_launches | apply app_gotos ].
Qed.

(** X7.  Every navigation of a request of the last revision goes to the
    URL of its body ([url] on the screenshot route, [target.value] on the
    analyze route), unchanged, with a timeout of 60000 ms; the fallback
    session navigates to the same URL as the analysis. *)
Theorem navigation_goes_to_requested_url (req : Request) (w : world) :
  Forall (evHolds (navigatesTo (requestedUrl req))) (trace (run (Rev3.app req) w)).
Proof.
  apply always_trace, app_navigates_to_request.
Qed.

(** X8.  Whatever the engine answers, the last revision completes with an
    answer and never with an exception, and the answer is of a kind that
    goes with what the framework makes of the request: 204 without a body
    for an OPTIONS request, which [cors()] answers; the status of the error
    of [express.json()] (400, 413 or 415) for a request whose body is
    rejected; on the three routes, 200 with the health, screenshot or
    analysis body, 400 [bad_request], 500 [screenshot_failed] or
    [analyze_failed], and 502 [analyze_blocked]; and Express's 404 for any
    other request. *)
Theorem request_is_answered (req : Request) (w : world) :
  exists resp,
    completion (run (Rev3.app req) w) = Returned resp
    /\ answerKind (route req) resp = true.
Proof.
  destruct (rev3_run req w) as [[resp [Hc [Hk _]]] _].
  exists resp; split; assumption.
Qed.

(** X9.  A 200 answer of the screenshot route: the request ends with a
    navigation to [url] that resolved to a response with [ok()], then the
    title, the capture with the requested options, and the closing of the
    browser, all on the page whose viewport was set to the requested size;
    the answer carries that title, the base64 of that capture, the options
    and the status of that response. *)
Theorem screenshot_answer_shape (req : Request) (w : world)
    (resp : HttpResponse AnalysisResult) :
  route req = POST_screenshot ->
  completion (run (Rev3.app req) w) = Returned resp ->
  http_status resp = 200 ->
  screenshotShape req (trace (run (Rev3.app req) w)) resp.
Proof.
  intros Hr Hc Hs.
  destruct (rev3_run req w) as [[resp' [Hc' [_ Hshape]]] _].
  rewrite Hc in Hc'; injection Hc' as <-.
  unfold answerShape in Hshape; rewrite Hr in Hshape.
  exact (Hshape Hs).
Qed.

(** X10.  A 200 answer of the analyze route comes from the first session:
    the request ends with a navigation to [target.value] that resolved to a
    response with [ok()], the two scripts on the same page, and the closing
    of the browser; the result is built from the two documents the scripts
    saw, with [meta.url] the requested URL and [meta.status] the status of
    that response. *)
Theorem analysis_answer_shape (req : Request) (w : world)
    (resp : HttpResponse AnalysisResult) :
  route req = POST_analyze ->
  completion (run (Rev3.app req) w) = Returned resp ->
  http_status resp = 200 ->
  analysisShape req (trace (run (Rev3.app req) w)) resp.
Proof.
  intros Hr Hc Hs.
  destruct (rev3_run req w) as [[resp' [Hc' [_ Hshape]]] _].
  rewrite Hc in Hc'; injection Hc' as <-.
  unfold answerShape in Hshape; rewrite Hr in Hshape.
  exact (Hshape Hs).
Qed.

(** X11.  In every request of the last revision, the title, the capture
    and the in-page scripts are only asked of a page whose latest
    navigation attempt, in the same browser, resolved to a response with
    [ok()]: nothing is read from a page that failed to load. *)
Theorem pages_read_only_when_loaded (req : Request) (w : world) :
  readsLoadedPages false (trace (run (Rev3.app req) w)).
Proof.
  exact (proj1 (proj2 (rev3_run req w))).
Qed.

(** X12.  In every request of the last revision the browsers are used one
    at a time: a browser is launched only when none is in use, that is, when
    the one launched before has been closed or abandoned; the context, the
    set-up calls and the page are asked of the browser launched last, and
    every page call goes to its page; [browser.close()] is called on that
    browser once its page exists, after the last call on the page.  A
    browser whose context, set-up call or page is rejected is abandoned
    without a call to [browser.close()]: the browsers launched and not
    closed when the request is answered are exactly these. *)
Theorem browsers_used_in_turn (req : Request) (w : world) :
  exists leftOpen,
    oneBrowserAtATime noBrowser [] leftOpen (trace (run (Rev3.app req) w))
    /\ count isLaunched (trace (run (Rev3.app req) w))
       = (count isRelease (trace (run (Rev3.app req) w)) + List.length leftOpen)%nat.
Proof.
  exact (proj2 (proj2 (rev3_run req w))).
Qed.

(** X13.  Whatever the engine answers and whatever the secret, the middle
    revision completes with an answer and never with an exception, and the
    answer is of a kind that goes with what the framework makes of the
    request: 204 without a body for an OPTIONS request and the status of the
    error of [express.json()] for a request whose body is rejected, neither
    of which the gate sees; for every other request, 401 [unauthorized] or
    the answers the last revision gives, 502 [analyze_blocked] apart. *)
Theorem middle_revision_is_answered (env : option string) (req : Request) (w : world) :
  exists resp,
    completion (run (Rev2.app env req) w) = Returned resp
    /\ answerKind2 (route req) resp = true.
Proof.
  destruct (rev2_run env req w) as [[resp [Hc [Hk _]]] _].
  exists resp; split; assumption.
Qed.

(** X14.  A request of the middle revision launches at most one browser
    and navigates at most twice, always to the URL of its body with a
    timeout of 60000 ms; it reads only pages that loaded; and it keeps the
    browser in turn: [browser.close()] is called once the page exists, after
    the last call on the page, while a browser whose context, init script
    or page is rejected is abandoned without a call to [browser.close()],
    and is then the one browser launched and not closed. *)
Theorem middle_revision_engine_use (env : option string) (req : Request) (w : world) :
  (count (evSel launchCall) (trace (run (Rev2.app env req) w))
   <= sessionBudget2 (route req))%nat
  /\ (count (evSel gotoCall) (trace (run (Rev2.app env req) w))
      <= 2 * sessionBudget2 (route req))%nat
  /\ Forall (evHolds (navigatesTo (requestedUrl req))) (trace (run (Rev2.app env req) w))
  /\ readsLoadedPages false (trace (run (Rev2.app env req) w))
  /\ exists leftOpen,
       oneBrowserAtATime noBrowser [] leftOpen (trace (run (Rev2.app env req) w))
       /\ count isLaunched (trace (run (Rev2.app env req) w))
          = (count isRelease (trace (run (Rev2.app env req) w))
             + List.length leftOpen)%nat.
Proof.
  split; [ apply atMost_trace, rev2_launches | ].
  split; [ apply atMost_trace, rev2_gotos | ].
  split; [ apply always_trace, rev2_navigates_to_request | ].
  exact (proj2 (rev2_run env req w)).
Qed.

(** X15.  A 200 answer of the analyze route of the middle revision is
    built from the two documents its scripts saw after a navigation that
    resolved to a response with [ok()].  Its score, the id, title and
    severity of its findings in order, the image each finding reports (its
    source and its [deltaPct] read as a number; none for the font finding),
    [meta.url], [meta.fontsDetected] and [meta.distortedImages] are those
    of the result the last revision builds from the same documents. *)
Theorem middle_revision_analysis_agrees (env : option string) (req : Request)
    (w : world) (resp : HttpResponse Rev2.AnalysisResult2) :
  route req = POST_analyze ->
  completion (run (Rev2.app env req) w) = Returned resp ->
  http_status resp = 200 ->
  analysisShape2 req (trace (run (Rev2.app env req) w)) resp.
Proof.
  intros Hr Hc Hs.
  destruct (rev2_run env req w) as [[resp' [Hc' [_ Hshape]]] _].
  rewrite Hc in Hc'; injection Hc' as <-.
  unfold answerShape2 in Hshape; rewrite Hr in Hshape.
  exact (Hshape Hs).
Qed.

End Requests.

(** X9, on the screenshot request against an engine that resolves every
    call. *)
Lemma screenshot_answer_shape_witness :
  screenshotShape screenshotReq (trace captureRun) captureResponse.
Proof.
  apply (screenshot_answer_shape (list Step) scripted screenshotReq [] captureResponse);
    reflexivity.
Defined.

(** X10, on the audited page. *)
Lemma analysis_answer_shape_witness :
  analysisShape analyzeReq (trace auditRun) auditResponse.
Proof.
  apply (analysis_answer_shape (list Step) scripted analyzeReq auditScript auditResponse);
    reflexivity.
Defined.

(** X15, on the audited page. *)
Lemma middle_revision_analysis_agrees_witness :
  analysisShape2 analyzeReq (trace auditRun2) auditResponse2.
Proof.
  apply (middle_revision_analysis_agrees (list Step) scripted None analyzeReq
           auditScript2 auditResponse2); reflexivity.
Defined.

(** ** Requests against a cooperating engine *)

Section Cooperation.

Variable world : Type.
Variable respond : forall X : Type, EngineCall X -> world -> Outcome X * world.
Variable good : forall X : Type, EngineCall X -> Outcome X -> Prop.
Hypothesis respond_good : forall X (c : EngineCall X) w, good X c (fst (respond X c w)).

Local Abbreviation run := (run respond).

Lemma ensuresWhen_run {A : Type} (Q : Trace -> Completion A -> Prop) (p : Prog A) :
  forall hist w,
    ensuresWhen good Q hist p -> Q (hist ++ trace (run p w)) (completion (run p w)).
Proof.
  induction p as [a | e | X c k IH]; simpl; intros hist w Hp.
  - unfold trace, completion; simpl; now rewrite app_nil_r.
  - unfold trace, completion; simpl; now rewrite app_nil_r.
  - pose proof (respond_good X c w) as Hg.
    destruct (respond X c w) as [o w1]; cbn [fst] in Hg.
    specialize (IH o (hist ++ [Ev c o]) w1 (Hp o Hg)).
    destruct (run (k o) w1) as [[r t] w2]; unfold trace, completion in *; simpl in *.
    now rewrite <- app_assoc in IH.
Qed.

End Cooperation.

(** Walks the paths of a program that a cooperating engine allows. *)
Ltac walk_cooperative leaf :=
  repeat first
    [ match goal with
      | H : False |- _ => destruct H
      | H : false = true |- _ => discriminate H
      end
    | progress cbn [ensuresWhen bind tryCatch tryFinally await app]
    | intro
    | match goal with
      | H : cooperative _ _ _ |- _ => progress cbn [cooperative] in H
      end
    | match goal with
      | |- ensuresWhen _ _ _ ?p =>
          match p with
          | context [match ?x with _ => _ end] =>
              lazymatch x with
              | context [match _ with _ => _ end] => fail
              | _ => destruct x eqn:?
              end
          end
      end ];
  leaf.

Lemma rev3_cooperative (req : Request) :
  ensuresWhen cooperative
    (fun t c =>
       (exists resp, c = Returned resp /\ http_status resp = expectedStatus req)
       /\ count isLaunch t = count isRelease t)
    [] (Rev3.app req).
Proof.
  unfold expectedStatus.
  unfold_rev3.
  destruct (route req) as [ | | | | | f]; try destruct f;
    walk_cooperative ltac:(split; [ eexists; split; reflexivity | reflexivity ]).
Qed.

Section CooperatingEngine.

Variable world : Type.
Variable respond : forall X : Type, EngineCall X -> world -> Outcome X * world.
Hypothesis respond_cooperative :
  forall X (c : EngineCall X) w, cooperative X c (fst (respond X c w)).

Local Abbreviation run := (run respond).

(** X16.  Against an engine that resolves every call and answers every
    navigation with an [ok()] response, the last revision fails nowhere of
    its own: the health route answers 200, a screenshot or analyze request
    that carries its input answers 200 and one without it 400; an OPTIONS
    request is answered 204 by [cors()], a request whose body is rejected
    gets the status of the error of [express.json()], and a request that no
    route matches 404; and every browser launched has been closed. *)
Theorem cooperative_engine_succeeds (req : Request) (w : world) :
  (exists resp,
     completion (run (Rev3.app req) w) = Returned resp
     /\ http_status resp = expectedStatus req)
  /\ count isLaunch (trace (run (Rev3.app req) w))
     = count isRelease (trace (run (Rev3.app req) w)).
Proof.
  exact (ensuresWhen_run world respond cooperative respond_cooperative _
           (Rev3.app req) [] w (rev3_cooperative req)).
Qed.

End CooperatingEngine.

Lemma resolving_cooperative (X : Type) (c : EngineCall X) (w : unit) :
  cooperative X c (fst (resolving X c w)).
Proof. destruct c; exact I || reflexivity. Qed.

(** X16, on the screenshot request against the engine that resolves every
    call. *)
Lemma cooperative_engine_succeeds_witness :
  (exists resp,
     completion (run resolving (Rev3.app screenshotReq) tt) = Returned resp
     /\ http_status resp = 200)
  /\ count isLaunch (trace (run resolving (Rev3.app screenshotReq) tt))
     = count isRelease (trace (run resolving (Rev3.app screenshotReq) tt)).
Proof.
  exact (cooperative_engine_succeeds unit resolving resolving_cooperative screenshotReq tt).
Defined.

(** ** The numbers of a reported image *)

Lemma SFdiv_finite_signed (s : bool) (n p : positive) :
  JsNum.signed s (SFdiv JsNum.prec JsNum.emax (S754_finite s n 0) (S754_finite false p 0)).
Proof.
  simpl. rewrite xorb_false_r.
  unfold SFdiv_core_binary.
  match goal with |- context [Z.div_eucl ?a ?b] =>
    rewrite (div_eucl_div a b);
    assert (Hq : 0 <= a / b) end.
  { apply Z.div_pos; [ | lia ].
    match goal with |- context [match ?k with _ => _ end] => destruct k end; try lia.
    apply Z.shiftl_nonneg; lia. }
  apply binary_round_aux_signed, Hq.
Qed.

(** [Number(x.toFixed(f))] of a number is a number, and it is not negative
    when [x] is not. *)
Lemma Number_toFixed_signed (f : Z) (s : bool) (x : JsNum.num) :
  JsNum.signed s x ->
  exists s', JsNum.signed s' (JsNum.Number_toFixed f x) /\ (s = false -> s' = false).
Proof.
  destruct x as [s0 | s0 | | s0 m e]; cbn [JsNum.signed JsNum.Number_toFixed]; intros Hs.
  - exists false; split; reflexivity.
  - subst s0. exists s; split; [ reflexivity | now intros ].
  - contradiction.
  - subst s0.
    destruct (JsNum.ge_1e21 m e).
    + exists s; split; [ reflexivity | now intros ].
    + destruct (JsNum.toFixed_int f m e) as [ | n | n].
      * exists s; split; [ reflexivity | now intros ].
      * exists s; split; [ apply SFdiv_finite_signed | now intros ].
      * exists s; split; [ reflexivity | now intros ].
Qed.

Lemma mul_100_signed (x : JsNum.num) :
  JsNum.signed false x -> JsNum.signed false (JsNum.mul x (JsNum.of_Z 100)).
Proof.
  intros Hs.
  destruct (of_Z_normal 100 ltac:(discriminate) ltac:(split; reflexivity))
    as (m & e & E & _).
  change (100 <? 0) with false in E.
  unfold JsNum.mul; rewrite E; unfold SFmul.
  destruct x as [s | s | | s mx ex]; cbn [JsNum.signed] in Hs;
    try contradiction; subst s; cbv beta iota; cbn [xorb JsNum.signed];
    try reflexivity.
  apply binary_round_aux_signed; lia.
Qed.

(** X17.  On a page whose images have measurements within their WebIDL
    ranges, the three numbers of every reported record are numbers:
    [naturalAR] and [deltaPct] are never [NaN] and never negative, and
    [renderAR] is never [NaN]; and the record stands for an image of the
    page that the test flags, with [src] its [currentSrc] or, failing that,
    its [src]. *)
Theorem reported_numbers_are_numbers (doc : Document) (d : DistortedImage) :
  (forall img, In img (images doc) -> idlTyped img) ->
  In d (distorted doc) ->
  JsNum.signed false (d_naturalAR d)
  /\ JsNum.signed false (d_deltaPct d)
  /\ (exists s, JsNum.signed s (d_renderAR d))
  /\ exists img, In img (images doc) /\ flaggedAt THRESHOLD img = true
                 /\ d_src d = (if JsStr.truthy (currentSrc img)
                               then currentSrc img else src img).
Proof.
  intros Hty Hd.
  unfold distorted, distortedAt in Hd.
  apply in_map_iff in Hd as (img & <- & Hin).
  apply filter_In in Hin as (Hin & Hfl).
  pose proof (Hty img Hin) as Himg.
  assert (Hm : unmeasured img = false).
  { unfold flaggedAt in Hfl. apply andb_true_iff in Hfl as [Hn _].
    now apply negb_true_iff in Hn. }
  pose proof (delta_signed img Himg Hm) as Hdelta.
  destruct Himg as (Hnw & Hnh & Hcw & Hch).
  apply unmeasured_false in Hm as (Nnw & Nnh & Ncw & Nch).
  assert (P31 : 0 < 2 ^ 31) by reflexivity.
  assert (P32 : 2 ^ 31 < 2 ^ 32) by reflexivity.
  destruct (ratio_finite (naturalWidth img) (naturalHeight img)) as (mn & en & En);
    try assumption; try lia.
  destruct (ratio_finite (clientWidth img) (clientHeight img)) as (mr & er & Er);
    try assumption; try lia.
  replace (naturalWidth img <? 0) with false in En by (symmetry; apply Z.ltb_ge; lia).
  replace (naturalHeight img <? 0) with false in En by (symmetry; apply Z.ltb_ge; lia).
  cbn [evidenceOf d_naturalAR d_deltaPct d_renderAR d_src].
  repeat split.
  - destruct (Number_toFixed_signed 3 false (natAR img)) as (s' & Hs' & Hf).
    { unfold natAR; rewrite En; reflexivity. }
    now rewrite (Hf eq_refl) in Hs'.
  - destruct (Number_toFixed_signed 1 false (JsNum.mul (delta img) (JsNum.of_Z 100)))
      as (s' & Hs' & Hf).
    { apply mul_100_signed, Hdelta. }
    now rewrite (Hf eq_refl) in Hs'.
  - destruct (Number_toFixed_signed 3
                (xorb (clientWidth img <? 0) (clientHeight img <? 0)) (rendAR img))
      as (s' & Hs' & _).
    { unfold rendAR; rewrite Er; reflexivity. }
    now exists s'.
  - exists img. repeat split; assumption || reflexivity.
Qed.

(** X17, on the stretched logo of the audited page. *)
Lemma reported_numbers_are_numbers_witness :
  JsNum.signed false (d_naturalAR (evidenceOf stretchedLogo))
  /\ JsNum.signed false (d_deltaPct (evidenceOf stretchedLogo))
  /\ (exists s, JsNum.signed s (d_renderAR (evidenceOf stretchedLogo)))
  /\ exists img, In img (images auditDoc) /\ flaggedAt THRESHOLD img = true
                 /\ d_src (evidenceOf stretchedLogo)
                    = (if JsStr.truthy (currentSrc img) then currentSrc img else src img).
Proof.
  apply (reported_numbers_are_numbers auditDoc (evidenceOf stretchedLogo)).
  - intros img [<- | [<- | [<- | []]]]; unfold idlTyped; vm_compute; intuition discriminate.
  - unfold distorted, distortedAt. apply in_map, filter_In.
    split; [ left; reflexivity | vm_compute; reflexivity ].
Defined.
